(** * BrLP data-preparation scripts: a shallow embedding and its properties

    The development embeds the pure cores of

    - [scripts/prepare/prepare_csv.py]            (timestamp extraction,
                                                   subject pairing, B.csv),
    - [scripts/prepare/prepare_csv_build.py]      (normalisers, [ColFinder],
                                                   manifest merge, auto split),
    - [scripts/prepare/convert_to_dataset_csv.py] (candidate scoring and
                                                   selection, row building),
    - [clean_quotes.py]                           (quote removal),

    and proves the properties of the specification over them.  The first
    part holds the definitions, module by module as the scripts are laid
    out; the second part holds the lemmas and theorems.

    Conventions.  Python [str] values are modelled by [string]; the text
    handled by the scripts (CSV headers and cells, file-system paths) is
    taken to be ASCII, so [str.upper], [str.lower], [str.isspace] and the
    regex class [\d] are modelled by their restrictions to ASCII.  Python
    [int] is [Z]; lists are [list]; a [dict] that the code iterates over is
    an association list in insertion order.  What the scripts take from
    their environment is a parameter of the model: the file system
    ([exists], [resolve], the directory listings), the random generator
    behind [random.shuffle], floating-point arithmetic (IEEE 754 binary64
    where the gap threshold of the pairing is computed), and the parsing
    of the dates of the ADNI sheet, which depends on the locale. *)

From Stdlib Require Import ZArith QArith Qround List String Ascii Bool Lia Arith.
From Stdlib Require Import Permutation Sorted.
From Stdlib Require SpecFloat.
Import ListNotations.

Open Scope string_scope.
Open Scope Z_scope.

(* ================================================================== *)
(** * Python string primitives *)
(* ================================================================== *)

Module PyStr.

(** Code point of a character. *)
Definition ord (c : ascii) : Z := Z.of_nat (nat_of_ascii c).

Definition chr (z : Z) : ascii := ascii_of_nat (Z.to_nat z).

(** [c.isspace()] on ASCII: TAB, LF, VT, FF, CR, FS, GS, RS, US, SPACE. *)
Definition isspace (c : ascii) : bool :=
  let n := ord c in
  ((9 <=? n) && (n <=? 13)) || ((28 <=? n) && (n <=? 32)).

(** The regex class [[0-9]] (and [\d] on ASCII text). *)
Definition isdigit (c : ascii) : bool :=
  let n := ord c in (48 <=? n) && (n <=? 57).

Definition islower (c : ascii) : bool :=
  let n := ord c in (97 <=? n) && (n <=? 122).

Definition isupper (c : ascii) : bool :=
  let n := ord c in (65 <=? n) && (n <=? 90).

Definition upper_char (c : ascii) : ascii :=
  if islower c then chr (ord c - 32) else c.

Definition lower_char (c : ascii) : ascii :=
  if isupper c then chr (ord c + 32) else c.

Fixpoint map_str (f : ascii -> ascii) (s : string) : string :=
  match s with
  | EmptyString => EmptyString
  | String c r => String (f c) (map_str f r)
  end.

Fixpoint filter_str (p : ascii -> bool) (s : string) : string :=
  match s with
  | EmptyString => EmptyString
  | String c r => if p c then String c (filter_str p r) else filter_str p r
  end.

(** [s.upper()] and [s.lower()]. *)
Definition upper (s : string) : string := map_str upper_char s.
Definition lower (s : string) : string := map_str lower_char s.

(** [s.lstrip()], [s.rstrip()], [s.strip()]. *)
Fixpoint lstrip (s : string) : string :=
  match s with
  | EmptyString => EmptyString
  | String c r => if isspace c then lstrip r else s
  end.

Fixpoint rstrip (s : string) : string :=
  match s with
  | EmptyString => EmptyString
  | String c r =>
      match rstrip r with
      | EmptyString => if isspace c then EmptyString else String c EmptyString
      | r' => String c r'
      end
  end.

Definition strip (s : string) : string := rstrip (lstrip s).

(** Truthiness of a string: [bool(s)], false for the empty string only. *)
Definition nonempty (s : string) : bool :=
  match s with EmptyString => false | _ => true end.

(** [s.startswith(p)]. *)
Fixpoint startswith (s p : string) : bool :=
  match p, s with
  | EmptyString, _ => true
  | String _ _, EmptyString => false
  | String a p', String b s' => Ascii.eqb a b && startswith s' p'
  end.

(** [p in s] (substring test). *)
Fixpoint contains (s p : string) : bool :=
  startswith s p ||
  match s with
  | EmptyString => false
  | String _ r => contains r p
  end.

(** [s.endswith(p)]. *)
Fixpoint endswith (s p : string) : bool :=
  String.eqb s p ||
  match s with
  | EmptyString => false
  | String _ r => endswith r p
  end.

(** [s.replace(old, new)] for a non-empty [old]: every non-overlapping
    occurrence, scanning from the left.  [skip] counts the characters of
    an occurrence just replaced that are still to be dropped. *)
Fixpoint replace_from (skip : nat) (old new s : string) : string :=
  match s with
  | EmptyString => EmptyString
  | String c r =>
      match skip with
      | S k => replace_from k old new r
      | O =>
          if startswith s old
          then new ++ replace_from (Nat.pred (String.length old)) old new r
          else String c (replace_from O old new r)
      end
  end.

Definition replace (s old new : string) : string := replace_from O old new s.

(** [sep.join(l)]. *)
Fixpoint join (sep : string) (l : list string) : string :=
  match l with
  | [] => ""
  | [x] => x
  | x :: r => x ++ sep ++ join sep r
  end.

(** [s.split(sep, 1)[0]] for a one-character separator: the text before
    the first separator, or all of [s] when there is none. *)
Fixpoint split_first (sep : ascii) (s : string) : string :=
  match s with
  | EmptyString => EmptyString
  | String c r => if Ascii.eqb c sep then EmptyString else String c (split_first sep r)
  end.

(** [re.sub(r'^[iI]', '', s)]. *)
Definition strip_leading_i (s : string) : string :=
  match s with
  | String c r => if Ascii.eqb c "i" || Ascii.eqb c "I" then r else s
  | EmptyString => EmptyString
  end.

(** [v in {a, b, ...}] for a set literal of strings. *)
Definition in_set (v : string) (l : list string) : bool :=
  existsb (String.eqb v) l.

End PyStr.

(* ================================================================== *)
(** * prepare_csv.py: the timestamp extractor *)
(* ================================================================== *)

Module Timestamp.
Import PyStr.

(** A naive [datetime] as the scripts build it (microsecond is always 0). *)
Record datetime : Type := mkDatetime {
    year : Z; month : Z; day : Z; hour : Z; minute : Z; second : Z
  }.

Definition is_leap (y : Z) : bool :=
  ((y mod 4 =? 0) && negb (y mod 100 =? 0)) || (y mod 400 =? 0).

Definition days_in_month (y m : Z) : Z :=
  if m =? 2 then (if is_leap y then 29 else 28)
  else if (m =? 4) || (m =? 6) || (m =? 9) || (m =? 11) then 30
  else 31.

(** The checks of the [datetime] constructor reached through [strptime]. *)
Definition valid_datetime (d : datetime) : bool :=
  (1 <=? year d) && (year d <=? 9999) &&
  (1 <=? month d) && (month d <=? 12) &&
  (1 <=? day d) && (day d <=? days_in_month (year d) (month d)) &&
  (0 <=? hour d) && (hour d <=? 23) &&
  (0 <=? minute d) && (minute d <=? 59) &&
  (0 <=? second d) && (second d <=? 59).

(** [date.toordinal()]: day number in the proleptic Gregorian calendar. *)
Definition days_before_year (y : Z) : Z :=
  let y1 := y - 1 in y1 * 365 + y1 / 4 - y1 / 100 + y1 / 400.

Definition days_before_month (y m : Z) : Z :=
  nth (Z.to_nat m) [0; 0; 31; 59; 90; 120; 151; 181; 212; 243; 273; 304; 334] 0
  + (if (2 <? m) && is_leap y then 1 else 0).

Definition toordinal (d : datetime) : Z :=
  days_before_year (year d) + days_before_month (year d) (month d) + day d.

(** The instant of a datetime, in seconds; datetimes compare and subtract
    as these instants do. *)
Definition seconds_of (d : datetime) : Z :=
  toordinal d * 86400 + hour d * 3600 + minute d * 60 + second d.

(** [a < b] on naive datetimes as CPython evaluates it, field by field;
    on valid datetimes it is the order of the instants (see
    [datetime_lt_instants] below). *)
Definition datetime_lt (a b : datetime) : Prop :=
  year a < year b \/
  (year a = year b /\
   (month a < month b \/
    (month a = month b /\
     (day a < day b \/
      (day a = day b /\
       (hour a < hour b \/
        (hour a = hour b /\
         (minute a < minute b \/
          (minute a = minute b /\ second a < second b))))))))).

(** The day of the year, from 1. *)
Definition day_of_year (d : datetime) : Z :=
  days_before_month (year d) (month d) + day d.

(** A [timedelta], in microseconds; [dt_sub b a] is [b - a]. *)
Definition timedelta := Z.
Definition dt_sub (b a : datetime) : timedelta :=
  (seconds_of b - seconds_of a) * 1000000.

(** Decimal value of a digit string ([int(s)] for [s] made of digits). *)
Fixpoint int_of_digits_acc (acc : Z) (s : string) : Z :=
  match s with
  | EmptyString => acc
  | String c r => int_of_digits_acc (acc * 10 + (ord c - 48)) r
  end.
Definition int_of_digits (s : string) : Z := int_of_digits_acc 0 s.

Fixpoint all_digits (s : string) : bool :=
  match s with
  | EmptyString => true
  | String c r => isdigit c && all_digits r
  end.

Definition field (s : string) (start len : nat) : Z :=
  int_of_digits (String.substring start len s).

(** [datetime.strptime(raw, "%Y%m%d%H%M%S")] on the strings the extractor
    passes to it: exactly fourteen digits.  Every directive then takes its
    full width, and the parse fails (ValueError, [None] here) when a field
    is out of range or the day does not exist. *)
Definition strptime14 (raw : string) : option datetime :=
  if (String.length raw =? 14)%nat && all_digits raw then
    let d := mkDatetime (field raw 0 4) (field raw 4 2) (field raw 6 2)
                        (field raw 8 2) (field raw 10 2) (field raw 12 2) in
    if valid_datetime d then Some d else None
  else None.

(** [datetime.strptime(raw, "%Y%m%d")] on exactly eight digits. *)
Definition strptime8 (raw : string) : option datetime :=
  if (String.length raw =? 8)%nat && all_digits raw then
    let d := mkDatetime (field raw 0 4) (field raw 4 2) (field raw 6 2) 0 0 0 in
    if valid_datetime d then Some d else None
  else None.

(** Character classes of the three patterns. *)
Definition in_range (lo hi : ascii) (c : ascii) : bool :=
  (ord lo <=? ord c) && (ord c <=? ord hi).

Definition c12 : ascii -> bool := in_range "1" "2".
Definition c01 : ascii -> bool := in_range "0" "1".
Definition c03 : ascii -> bool := in_range "0" "3".
Definition c02 : ascii -> bool := in_range "0" "2".
Definition c05 : ascii -> bool := in_range "0" "5".
Definition c09 : ascii -> bool := in_range "0" "9".

(** A pattern [(?<!\d) C1 C2 ... Cn (?!\d)] is given by its classes. *)
Definition Y4_classes   : list (ascii -> bool) := [c12; c09; c09; c09].
Definition TS8_classes  : list (ascii -> bool) :=
  Y4_classes ++ [c01; c09; c03; c09].
Definition TS14_classes : list (ascii -> bool) :=
  TS8_classes ++ [c02; c09; c05; c09; c05; c09].

(** Match the classes at the head of [s], then the look-ahead [(?!\d)];
    the result is the text matched (the concatenation of the groups). *)
Fixpoint match_here (cls : list (ascii -> bool)) (s : string) : option string :=
  match cls with
  | [] =>
      match s with
      | String c _ => if isdigit c then None else Some EmptyString
      | EmptyString => Some EmptyString
      end
  | p :: cls' =>
      match s with
      | String c r =>
          if p c then
            match match_here cls' r with
            | Some m => Some (String c m)
            | None => None
            end
          else None
      | EmptyString => None
      end
  end.

(** [rx.search(t)]: the leftmost position where the pattern matches;
    [prev_digit] says whether the character before [s] is a digit (the
    look-behind [(?<!\d)]). *)
Fixpoint search_from (cls : list (ascii -> bool)) (prev_digit : bool)
         (s : string) : option string :=
  match (if prev_digit then None else match_here cls s) with
  | Some m => Some m
  | None =>
      match s with
      | EmptyString => None
      | String c r => search_from cls (isdigit c) r
      end
  end.

Definition TS14_search (t : string) : option string := search_from TS14_classes false t.
Definition TS8_search  (t : string) : option string := search_from TS8_classes false t.
Definition Y4_search   (t : string) : option string := search_from Y4_classes false t.

(** The three loops of [parse_timestamp_from_texts] (lines 60-80): the
    first text whose match parses returns; a match that does not parse is
    passed over ([except: pass]). *)
Fixpoint loop14 (texts : list string) : option datetime :=
  match texts with
  | [] => None
  | t :: rest =>
      if nonempty t then
        match TS14_search t with
        | Some raw =>
            match strptime14 raw with
            | Some d => Some d
            | None => loop14 rest
            end
        | None => loop14 rest
        end
      else loop14 rest
  end.

Fixpoint loop8 (texts : list string) : option datetime :=
  match texts with
  | [] => None
  | t :: rest =>
      if nonempty t then
        match TS8_search t with
        | Some raw =>
            match strptime8 raw with
            | Some d => Some d
            | None => loop8 rest
            end
        | None => loop8 rest
        end
      else loop8 rest
  end.

(** In the third loop the first text with a year token returns whatever
    the parse gives; the fallback parse of line 80 reads the same year, and
    an exception there would leave the function without a value. *)
Fixpoint loop4 (texts : list string) : option datetime :=
  match texts with
  | [] => None
  | t :: rest =>
      if nonempty t then
        match Y4_search t with
        | Some y =>
            match strptime14 (y ++ "0101000000") with
            | Some d => Some d
            | None => strptime8 (y ++ "0101")
            end
        | None => loop4 rest
        end
      else loop4 rest
  end.

(** [parse_timestamp_from_texts] (lines 58-81), on the list of its arguments. *)
Definition parse_timestamp_from_texts (texts : list string) : option datetime :=
  match loop14 texts with
  | Some d => Some d
  | None =>
      match loop8 texts with
      | Some d => Some d
      | None => loop4 texts
      end
  end.

(** ** Vocabulary for statements about digit runs *)

(** A class of digits only. *)
Definition digit_class (p : ascii -> bool) : Prop :=
  forall c, p c = true -> isdigit c = true.

(** [s] is exactly a run of characters, one per class. *)
Fixpoint fits (cls : list (ascii -> bool)) (s : string) : bool :=
  match cls, s with
  | [], EmptyString => true
  | p :: cls', String c r => p c && fits cls' r
  | _, _ => false
  end.

Definition starts_with_digit (s : string) : bool :=
  match s with
  | String c _ => isdigit c
  | EmptyString => false
  end.

(** Whether the character before the end of [pre] is a digit, [before]
    standing for the character before [pre]. *)
Fixpoint ends_with_digit (before : bool) (pre : string) : bool :=
  match pre with
  | EmptyString => before
  | String c r => ends_with_digit (isdigit c) r
  end.

(** The date-time that fourteen digits spell. *)
Definition datetime_of_digits (run : string) : datetime :=
  mkDatetime (field run 0 4) (field run 4 2) (field run 6 2)
             (field run 8 2) (field run 10 2) (field run 12 2).

End Timestamp.

(* ================================================================== *)
(** * Dictionaries and the ten-column row *)
(* ================================================================== *)

Module PyDict.

(** A CSV row as [csv.DictReader] yields it: header/cell pairs in header
    order. *)
Definition dict := list (string * string).

(** [d.get(k, default)]. *)
Fixpoint get (d : dict) (k : string) (default : string) : string :=
  match d with
  | [] => default
  | (k', v) :: r => if String.eqb k' k then v else get r k default
  end.

(** [k in d]. *)
Definition has_key (d : dict) (k : string) : bool :=
  existsb (fun kv => String.eqb (fst kv) k) d.

(** [list(d.keys())]. *)
Definition keys (d : dict) : list string := map fst d.

(** [d.get(col, '')] where [col] may be [None] (never a key of a row). *)
Definition get_col (d : dict) (col : option string) : string :=
  match col with
  | Some c => get d c ""
  | None => ""
  end.

(** [groups.setdefault(key, []).append(v)] on a dictionary of lists kept in
    insertion order. *)
Fixpoint setdefault_append {A : Type} (groups : list (string * list A))
         (key : string) (v : A) : list (string * list A) :=
  match groups with
  | [] => [(key, [v])]
  | (k, l) :: r =>
      if String.eqb k key then (k, (l ++ [v])%list) :: r
      else (k, l) :: setdefault_append r key v
  end.

(** Look-up in such a dictionary. *)
Fixpoint lookup {A : Type} (groups : list (string * A)) (key : string) : option A :=
  match groups with
  | [] => None
  | (k, l) :: r => if String.eqb k key then Some l else lookup r key
  end.

End PyDict.

Module Row.
Import PyDict.

(** One row of dataset.csv / A.csv / B.csv: the keys of [FIELDS10]. *)
Record DatasetRow : Type := mkRow {
    subject_id : string;
    image_uid : string;
    split : string;
    sex : string;
    age : string;
    diagnosis : string;
    last_diagnosis : string;
    image_path : string;
    segm_path : string;
    latent_path : string
  }.

(** [{k: r.get(k, "") for k in FIELDS10}]. *)
Definition project (r : dict) : DatasetRow :=
  mkRow (get r "subject_id" "") (get r "image_uid" "") (get r "split" "")
        (get r "sex" "") (get r "age" "") (get r "diagnosis" "")
        (get r "last_diagnosis" "") (get r "image_path" "")
        (get r "segm_path" "") (get r "latent_path" "").

(** [r['split'] = sp]. *)
Definition set_split (r : DatasetRow) (sp : string) : DatasetRow :=
  mkRow (subject_id r) (image_uid r) sp (sex r) (age r) (diagnosis r)
        (last_diagnosis r) (image_path r) (segm_path r) (latent_path r).

End Row.

(* ================================================================== *)
(** * prepare_csv.py: the subject pairing engine ([build_B]) *)
(* ================================================================== *)

Module PrepareCsv.
Import PyStr PyDict Row Timestamp.

(** Python floats, as far as [build_B] uses them: the conversion of an
    integer, sum and product, the literal [365.2425], and the constructor
    [timedelta(days=x)], whose result is a whole number of microseconds.
    The operations are those of binary floating point and are left
    uninterpreted: the properties below hold whatever they compute.  The
    module [Binary64] further down interprets them. *)
Class PyFloat : Type := {
  float : Type;
  float_of_int : Z -> float;
  float_add : float -> float -> float;
  float_mul : float -> float -> float;
  days_per_year : float;
  timedelta_of_days : float -> timedelta
}.

(** A row of [enriched]: the ten fields and the parsed ["_dt"]. *)
Record erow : Type := mkErow { row : DatasetRow; dt : datetime }.

(** Lines 122-128: rows without a timestamp are left out. *)
Fixpoint enrich (rows : list dict) : list erow :=
  match rows with
  | [] => []
  | r :: rest =>
      match parse_timestamp_from_texts [get r "image_path" ""; get r "image_uid" ""] with
      | Some d => mkErow (project r) d :: enrich rest
      | None => enrich rest
      end
  end.

(** [subject_group_key] (lines 83-93).  A compiled [regex_pat] is given by
    what the code uses of it: the first group of its leftmost match. *)
Definition subject_group_key (subject_id : string) (mode : string)
           (regex_pat : option (string -> option string)) : string :=
  let s := strip subject_id in
  if negb (nonempty s) then ""
  else if String.eqb mode "exact" then s
  else if String.eqb mode "first_token" then split_first "_" s
  else
    match (if String.eqb mode "regex" then regex_pat else None) with
    | Some search =>
        match search s with
        | Some g => g
        | None => s
        end
    | None => s
    end.

(** [a["_dt"] <= b["_dt"]]: [a] is not later than [b].  Naive datetimes
    compare as the instants they denote. *)
Definition not_later (a b : erow) : Prop :=
  seconds_of (dt a) <= seconds_of (dt b).

(** [lst.sort(key=lambda x: x["_dt"])]: the stable ascending sort, as an
    insertion sort that keeps equal keys in their original order. *)
Fixpoint insert_by_dt (x : erow) (l : list erow) : list erow :=
  match l with
  | [] => [x]
  | y :: r =>
      if seconds_of (dt x) <=? seconds_of (dt y) then x :: y :: r
      else y :: insert_by_dt x r
  end.

Fixpoint sort_by_dt (l : list erow) : list erow :=
  match l with
  | [] => []
  | x :: r => insert_by_dt x (sort_by_dt r)
  end.

(** ** The loop over the groups (lines 149-180) *)

Section Groups.
(** What the loop reads of the arguments of [build_B], and the threshold
    [td_thresh] of line 138. *)
Variable pairing : string.
Variable td_thresh : timedelta.
Variable same_split : bool.
Variable max_pairs_per_subject : Z.

(** [same_split and (A.get("split","") != B.get("split",""))]. *)
Definition split_differs (a b : erow) : bool :=
  same_split && negb (String.eqb (split (row a)) (split (row b))).

(** [(B["_dt"] - A["_dt"]) < td_thresh]. *)
Definition gap_too_small (a b : erow) : bool :=
  dt_sub (dt b) (dt a) <? td_thresh.

(** [max_pairs_per_subject>0 and count>=max_pairs_per_subject]. *)
Definition cap_reached (count : Z) : bool :=
  (0 <? max_pairs_per_subject) && (max_pairs_per_subject <=? count).

(** The loop over [j] (lines 168-178) for a fixed [Ai]; [js] holds
    [lst[i+1:]] still to visit, the state is [(b_rows, count)]. *)
Fixpoint inner_loop (Ai : erow) (js : list erow)
         (st : list DatasetRow * Z) : list DatasetRow * Z :=
  match js with
  | [] => st
  | Bj :: js' =>
      if split_differs Ai Bj then inner_loop Ai js' st
      else if gap_too_small Ai Bj then inner_loop Ai js' st
      else
        let st' := ((fst st ++ [row Ai; row Bj])%list, snd st + 1) in
        if cap_reached (snd st') then st' else inner_loop Ai js' st'
  end.

(** The loop over [i] (lines 167-180); [lst] holds [lst[i:]]. *)
Fixpoint outer_loop (lst : list erow)
         (st : list DatasetRow * Z) : list DatasetRow * Z :=
  match lst with
  | [] => st
  | Ai :: rest =>
      let st' := inner_loop Ai rest st in
      if cap_reached (snd st') then st' else outer_loop rest st'
  end.

(** The body of the loop over the groups (lines 150-180). *)
Definition process_group (b_rows : list DatasetRow) (lst : list erow)
  : list DatasetRow :=
  if (List.length lst <? 2)%nat then b_rows
  else
    let lst := sort_by_dt lst in
    if String.eqb pairing "edge" then
      match lst with
      | [] => b_rows
      | A_ :: _ =>
          let B_ := last lst A_ in
          if split_differs A_ B_ then b_rows
          else if gap_too_small A_ B_ then b_rows
          else (b_rows ++ [row A_; row B_])%list
      end
    else fst (outer_loop lst (b_rows, 0)).

(** ** The pairs accepted

    A pair is accepted each time control reaches lines 162-163 or lines
    174-176; the functions below follow the same loops and record the pair
    instead of the two rows. *)
Fixpoint inner_pairs (Ai : erow) (js : list erow) (count : Z)
  : list (erow * erow) * Z :=
  match js with
  | [] => ([], count)
  | Bj :: js' =>
      if split_differs Ai Bj then inner_pairs Ai js' count
      else if gap_too_small Ai Bj then inner_pairs Ai js' count
      else if cap_reached (count + 1) then ([(Ai, Bj)], count + 1)
      else
        let '(ps, c) := inner_pairs Ai js' (count + 1) in
        ((Ai, Bj) :: ps, c)
  end.

Fixpoint outer_pairs (lst : list erow) (count : Z) : list (erow * erow) :=
  match lst with
  | [] => []
  | Ai :: rest =>
      let '(ps, c) := inner_pairs Ai rest count in
      if cap_reached c then ps else (ps ++ outer_pairs rest c)%list
  end.

Definition group_pairs (lst : list erow) : list (erow * erow) :=
  if (List.length lst <? 2)%nat then []
  else
    let lst := sort_by_dt lst in
    if String.eqb pairing "edge" then
      match lst with
      | [] => []
      | A_ :: _ =>
          let B_ := last lst A_ in
          if split_differs A_ B_ then []
          else if gap_too_small A_ B_ then []
          else [(A_, B_)]
      end
    else outer_pairs lst 0.

(** The two rows written for a pair. *)
Definition pair_rows (p : erow * erow) : list DatasetRow :=
  [row (fst p); row (snd p)].

(** ** Pairing mode "all" without the cap: every pair [i < j] of the
    sorted group that passes the two tests, in the order of the loops. *)
Definition qualifies (a b : erow) : bool :=
  negb (split_differs a b) && negb (gap_too_small a b).

Fixpoint qualifying_pairs (lst : list erow) : list (erow * erow) :=
  match lst with
  | [] => []
  | Ai :: rest =>
      (map (fun Bj => (Ai, Bj)) (filter (qualifies Ai) rest)
       ++ qualifying_pairs rest)%list
  end.

(** What a cap leaves of a list of pairs when [count] pairs are already
    counted: the first [max_pairs_per_subject - count] of them, or all of
    them when the cap is off ([max_pairs_per_subject <= 0]). *)
Definition capped {A : Type} (count : Z) (l : list A) : list A :=
  if 0 <? max_pairs_per_subject
  then firstn (Z.to_nat (max_pairs_per_subject - count)) l
  else l.

(** ** The cap as the specification words it

    "stop scanning further j for the current i once the cap is reached,
    then continue to the next i": the inner loop as in the code, the outer
    loop without its own [break]. *)
Fixpoint spec_outer_loop (lst : list erow)
         (st : list DatasetRow * Z) : list DatasetRow * Z :=
  match lst with
  | [] => st
  | Ai :: rest => spec_outer_loop rest (inner_loop Ai rest st)
  end.

End Groups.

(** ** [build_B] (lines 110-183) *)

Section BuildB.
Context {F : PyFloat}.

(** The arguments of [build_B]; [subject_regex] is the compiled pattern,
    [None] when the option is the empty string. *)
Variable pairing : string.
Variable min_days : Z.
Variable min_years : float.
Variable same_split : bool.
Variable max_pairs_per_subject : Z.
Variable subject_group : string.
Variable subject_regex : option (string -> option string).

(** Lines 131-135. *)
Definition regex_pat : option (string -> option string) :=
  if String.eqb subject_group "regex" then subject_regex else None.

Definition group_rows (enriched : list erow) : list (string * list erow) :=
  fold_left
    (fun groups r =>
       setdefault_append groups
         (subject_group_key (subject_id (row r)) subject_group regex_pat) r)
    enriched [].

(** Line 138:
    [timedelta(days=float(min_days) + float(min_years)*365.2425)]. *)
Definition td_thresh : timedelta :=
  timedelta_of_days
    (float_add (float_of_int min_days) (float_mul min_years days_per_year)).

(** The rows written to B.csv. *)
Definition build_B (rows : list dict) : list DatasetRow :=
  fold_left (process_group pairing td_thresh same_split max_pairs_per_subject)
            (map snd (group_rows (enrich rows))) [].

(** The pairs accepted in the whole run. *)
Definition accepted_pairs (rows : list dict) : list (erow * erow) :=
  flat_map (group_pairs pairing td_thresh same_split max_pairs_per_subject)
           (map snd (group_rows (enrich rows))).

End BuildB.

End PrepareCsv.

(* ================================================================== *)
(** * pathlib paths (POSIX flavour) *)
(* ================================================================== *)

Module PyPath.
Import PyStr.

(** A [Path]: its anchor (["/"], ["//"] or empty for a relative path) and
    the components after it. *)
Record Path : Type := mkPath { anchor : string; tail : list string }.

(** [path.parts]. *)
Definition parts (p : Path) : list string :=
  if nonempty (anchor p) then anchor p :: tail p else tail p.

(** [path.as_posix()], which is [str(path)] here. *)
Definition as_posix (p : Path) : string :=
  let s := anchor p ++ join "/" (tail p) in
  if nonempty s then s else ".".

Definition str (p : Path) : string := as_posix p.

(** [path.name]. *)
Definition name (p : Path) : string := last (tail p) "".

(** [path.parent]. *)
Definition parent (p : Path) : Path := mkPath (anchor p) (removelast (tail p)).

(** [path / n] for a single component [n]. *)
Definition joinpath (p : Path) (n : string) : Path :=
  mkPath (anchor p) (tail p ++ [n]).

(** [s.rfind('.')], as an option. *)
Fixpoint rfind_dot (s : string) : option nat :=
  match s with
  | EmptyString => None
  | String c r =>
      match rfind_dot r with
      | Some i => Some (S i)
      | None => if Ascii.eqb c "." then Some O else None
      end
  end.

(** [path.stem]: the name without its last suffix. *)
Definition stem (p : Path) : string :=
  let n := name p in
  match rfind_dot n with
  | Some i =>
      if (0 <? i)%nat && (i <? String.length n - 1)%nat
      then String.substring 0 i n else n
  | None => n
  end.

End PyPath.

(* ================================================================== *)
(** * convert_to_dataset_csv.py: the file candidate matcher and the
      default row builder *)
(* ================================================================== *)

Module ConvertToDataset.
Import PyStr PyDict PyPath Row.

(** [normalize] (lines 74-75). *)
Definition normalize (s : string) : string := strip s.

Definition len (s : string) : Z := Z.of_nat (String.length s).

(** [score_candidate] (lines 77-99). *)
Definition score_candidate (path : Path)
           (subject_id image_id series_id image_visit : string) : Z * Z :=
  let s_path := as_posix path in
  let subj := normalize subject_id in
  let img := normalize image_id in
  let ser := normalize series_id in
  let vis := normalize image_visit in
  let score := 0 in
  let prefix_len := 0 in
  let score :=
    if nonempty subj && existsb (fun part => String.eqb part subj) (parts path)
    then score + 100 else score in
  let score :=
    if nonempty img && existsb (fun part => String.eqb part img) (parts path)
    then score + 80 else score in
  let '(score, prefix_len) :=
    if nonempty img && existsb (fun part => startswith part img) (parts path)
    then (score + 60, Z.max prefix_len (len img)) else (score, prefix_len) in
  let score :=
    if nonempty img && contains s_path img then score + 40 else score in
  let score := if nonempty ser && contains s_path ser then score + 10 else score in
  let score := if nonempty vis && contains s_path vis then score + 10 else score in
  (score, prefix_len).

(** [sc > best_score] on pairs of integers (lexicographic). *)
Definition tuple_gt (a b : Z * Z) : bool :=
  (fst b <? fst a) || ((fst a =? fst b) && (snd b <? snd a)).

Section ChooseBest.
Variables subject_id image_id series_id image_visit : string.

(** The loop of lines 104-107 on the state [(best, best_score)]. *)
Fixpoint choose_loop (cands : list Path) (best : option Path)
         (best_score : Z * Z) : option Path * (Z * Z) :=
  match cands with
  | [] => (best, best_score)
  | c :: rest =>
      let sc := score_candidate c subject_id image_id series_id image_visit in
      if tuple_gt sc best_score
      then choose_loop rest (Some c) sc
      else choose_loop rest best best_score
  end.

(** [choose_best] (lines 101-110); [None] is "no match". *)
Definition choose_best (cands : list Path) : option Path :=
  match cands with
  | [] => None
  | _ =>
      let '(best, best_score) := choose_loop cands None (-1, -1) in
      if (1 <? List.length cands)%nat && (fst best_score <=? 0)
      then None else best
  end.

(** [c] is the first candidate of [cands] with the highest score tuple:
    the candidates before it score strictly less, those after it no more. *)
Definition first_best (cands : list Path) (c : Path) : Prop :=
  let score x := score_candidate x subject_id image_id series_id image_visit in
  exists pre post,
    cands = (pre ++ c :: post)%list /\
    Forall (fun x => tuple_gt (score c) (score x) = true) pre /\
    Forall (fun x => tuple_gt (score x) (score c) = false) post.

End ChooseBest.

(** The metadata of a subject ([load_meta]). *)
Record Meta : Type := mkMeta {
    m_sex : string; m_age : string; m_diagnosis : string; m_last_diagnosis : string
  }.

(** The counters and the output of the main loop. *)
Record LoopState : Type := mkState {
    out_rows : list DatasetRow; skipped : Z; matched : Z
  }.

Section Main.
(** The file system as the loop sees it: [p.exists()] and
    [p.resolve()]; the index [subj2warped] in directory order; the
    metadata table. *)
Variable exists_ : Path -> bool.
Variable resolve : Path -> Path.
Variable subj2warped : list (string * list Path).
Variable meta : list (string * Meta).

(** [find_segm_near] (lines 66-72). *)
Definition find_segm_near (warped : Path) : option Path :=
  let parent := parent warped in
  if exists_ (joinpath parent "segm.nii.gz") then Some (joinpath parent "segm.nii.gz")
  else if exists_ (joinpath parent "segm.nii") then Some (joinpath parent "segm.nii")
  else None.

(** The candidate pool (lines 159-168). *)
Definition collect_cands (subject_id image_id : string) : list Path :=
  let cands :=
    if nonempty subject_id then
      match lookup subj2warped subject_id with
      | Some l => l
      | None => []
      end
    else [] in
  let cands :=
    if nonempty image_id then
      fold_left
        (fun acc kv =>
           if startswith (fst kv) image_id || contains (fst kv) image_id
           then (acc ++ snd kv)%list else acc)
        subj2warped cands
    else cands in
  match cands with
  | [] => fold_left (fun acc kv => (acc ++ snd kv)%list) subj2warped []
  | _ => cands
  end.

(** The derived latent path (line 177). *)
Definition latent_of (image_path : string) : string :=
  replace (replace image_path ".nii.gz" "_latent.npz") ".nii" "_latent.npz".

(** [warped.name[:-7]]. *)
Definition drop_last7 (s : string) : string :=
  String.substring 0 (String.length s - 7) s.

(** The identifiers read from a source row (lines 152-156). *)
Definition subject_id_of (r : dict) : string := normalize (get r "subject_id" "").
Definition image_id_of (r : dict) : string := normalize (get r "image_id" "").
Definition series_id_of (r : dict) : string := normalize (get r "series_id" "").
Definition image_visit_of (r : dict) : string := normalize (get r "image_visit" "").
Definition split_of (r : dict) : string :=
  if nonempty (normalize (get r "split" ""))
  then normalize (get r "split" "") else "train".

(** The path matched for a source row (lines 159-170), if any. *)
Definition matched_path (r : dict) : option Path :=
  choose_best (subject_id_of r) (image_id_of r) (series_id_of r) (image_visit_of r)
              (collect_cands (subject_id_of r) (image_id_of r)).

(** The row built for a matched path (lines 174-197). *)
Definition build_row (r : dict) (warped : Path) : DatasetRow :=
  let segm := find_segm_near warped in
  let image_path := str (resolve warped) in
  let segm_path :=
    match segm with
    | Some s => str (resolve s)
    | None => ""
    end in
  let latent_path := latent_of image_path in
  let image_uid :=
    if nonempty (image_id_of r) then image_id_of r
    else if endswith (name warped) ".nii.gz" then drop_last7 (name warped)
    else stem warped in
  let m :=
    match lookup meta (subject_id_of r) with
    | Some m => m
    | None => mkMeta "" "" "" ""
    end in
  mkRow (subject_id_of r) image_uid (split_of r) (m_sex m) (m_age m)
        (m_diagnosis m) (m_last_diagnosis m)
        image_path segm_path latent_path.

(** The body of the loop over the source rows (lines 152-198): an
    unmatched row is counted as skipped, a matched one is appended. *)
Definition process_row (st : LoopState) (r : dict) : LoopState :=
  match matched_path r with
  | None => mkState (out_rows st) (skipped st + 1) (matched st)
  | Some warped =>
      mkState (out_rows st ++ [build_row r warped])%list
              (skipped st) (matched st + 1)
  end.

(** The loop of [main] (lines 141-198) over the rows of the source CSV. *)
Definition main_loop (rows_in : list dict) : LoopState :=
  fold_left process_row rows_in (mkState [] 0 0).

End Main.

(** ** The suffix replacement the specification describes

    The image path with its imaging-format suffix ([.nii.gz] or [.nii] at
    the end of the base name) replaced by [_latent.npz]. *)
Definition replace_suffix (image_path : string) : string :=
  if endswith image_path ".nii.gz"
  then String.substring 0 (String.length image_path - 7) image_path ++ "_latent.npz"
  else if endswith image_path ".nii"
  then String.substring 0 (String.length image_path - 4) image_path ++ "_latent.npz"
  else image_path.

End ConvertToDataset.

(* ================================================================== *)
(** * Regular expressions of the header patterns *)
(* ================================================================== *)

Module PyRe.

(** What [ColFinder.find] needs of a compiled pattern. *)
Class Regex (pattern : Type) : Type := {
    re_fullmatch : pattern -> string -> bool;
    re_search : pattern -> string -> bool
  }.

(** The fragment of [re] syntax in which the header patterns of
    [build_dataset] are written: literals, concatenation, an optional
    group [(r)?] or character [c?], and the anchors [^] and [$]. *)
Inductive regex : Type :=
  | Eps : regex
  | Chr : ascii -> regex
  | Cat : regex -> regex -> regex
  | Opt : regex -> regex
  | Bol : regex
  | Eol : regex.

Fixpoint lit (s : string) : regex :=
  match s with
  | EmptyString => Eps
  | String c r => Cat (Chr c) (lit r)
  end.

(** Backtracking matcher: [matches r at0 s k] tries [r] at the head of
    [s] and hands every way of matching to the continuation [k]; [at0]
    says whether the position is the start of the subject string. *)
Fixpoint matches (r : regex) (at0 : bool) (s : string)
         (k : bool -> string -> bool) : bool :=
  match r with
  | Eps => k at0 s
  | Chr c =>
      match s with
      | String d s' => if Ascii.eqb c d then k false s' else false
      | EmptyString => false
      end
  | Cat a b => matches a at0 s (fun at0' s' => matches b at0' s' k)
  | Opt a => matches a at0 s k || k at0 s
  | Bol => if at0 then k at0 s else false
  | Eol =>
      (* [$]: at the end, or before a newline that ends the string *)
      match s with
      | EmptyString => k at0 s
      | String c EmptyString => if Ascii.eqb c "010" then k at0 s else false
      | _ => false
      end
  end.

Definition fullmatch (r : regex) (s : string) : bool :=
  matches r true s (fun _ rest => match rest with EmptyString => true | _ => false end).

Fixpoint search_at (r : regex) (at0 : bool) (s : string) : bool :=
  matches r at0 s (fun _ _ => true) ||
  match s with
  | EmptyString => false
  | String _ s' => search_at r false s'
  end.

Definition search (r : regex) (s : string) : bool := search_at r true s.

#[export] Instance regex_Regex : Regex regex :=
  {| re_fullmatch := fullmatch; re_search := search |}.

End PyRe.

(* ================================================================== *)
(** * prepare_csv_build.py: normalisers, [ColFinder], the manifest merge
      and the automatic split *)
(* ================================================================== *)

Module PrepareCsvBuild.
Import PyStr PyDict Row PyRe.

(** [pick_first] (lines 55-58). *)
Fixpoint pick_first (vals : list string) : string :=
  match vals with
  | [] => ""
  | v :: r => if nonempty v then v else pick_first r
  end.

(** [normalize_sex] (lines 60-64). *)
Definition normalize_sex (v : string) : string :=
  let v := upper (strip v) in
  if in_set v ["M"; "MALE"] then "M"
  else if in_set v ["F"; "FEMALE"] then "F"
  else v.

(** [normalize_dx] (lines 66-71). *)
Definition normalize_dx (v : string) : string :=
  let v := upper (strip v) in
  if in_set v ["CN"; "CONTROL"; "NORMAL"] then "0"
  else if in_set v ["MCI"; "EMCI"; "LMCI"] then "0.5"
  else if in_set v ["AD"; "DEMENTIA"; "ALZHEIMERS"] then "1"
  else "".

(** The sex code of [build_dataset] (line 151). *)
Definition sex_code (sex_raw : string) : string :=
  if String.eqb sex_raw "M" then "0"
  else if String.eqb sex_raw "F" then "1"
  else "".

(** ** [ColFinder] (lines 73-87) *)
Module ColFinder.

(** [re.sub(r"[^a-z0-9]", "", h.lower())]. *)
Definition canon_key (h : string) : string :=
  filter_str (fun c => islower c || isdigit c) (lower h).

(** [__init__]: the dictionary [canon], canonical key to original
    header, in insertion order. *)
Definition init (headers : list string) : list (string * string) :=
  fold_left
    (fun canon h =>
       let k := canon_key h in
       if nonempty k && negb (has_key canon k)
       then (canon ++ [(k, h)])%list else canon)
    headers [].

Section Find.
Context {pattern : Type} `{Regex pattern}.

(** The loop over [self.canon.items()] for one pattern. *)
Fixpoint find_in (rx : pattern) (canon : list (string * string))
  : option string :=
  match canon with
  | [] => None
  | (k, orig) :: rest =>
      if re_fullmatch rx k || re_search rx k then Some orig
      else find_in rx rest
  end.

(** [find]: the patterns in the order given. *)
Fixpoint find (canon : list (string * string)) (patterns : list pattern)
  : option string :=
  match patterns with
  | [] => None
  | pat :: rest =>
      match find_in pat canon with
      | Some orig => Some orig
      | None => find canon rest
      end
  end.

(** ** Full match preferred, as the specification words it

    For the first pattern with a match, a header that the pattern
    matches in full is taken before one it matches only inside. *)
Fixpoint find_full (rx : pattern) (canon : list (string * string))
  : option string :=
  match canon with
  | [] => None
  | (k, orig) :: rest =>
      if re_fullmatch rx k then Some orig else find_full rx rest
  end.

Fixpoint find_sub (rx : pattern) (canon : list (string * string))
  : option string :=
  match canon with
  | [] => None
  | (k, orig) :: rest =>
      if re_search rx k then Some orig else find_sub rx rest
  end.

Fixpoint spec_find (canon : list (string * string)) (patterns : list pattern)
  : option string :=
  match patterns with
  | [] => None
  | pat :: rest =>
      match find_full pat canon with
      | Some orig => Some orig
      | None =>
          match find_sub pat canon with
          | Some orig => Some orig
          | None => spec_find canon rest
          end
      end
  end.
End Find.

End ColFinder.

(** ** The header patterns of [build_dataset] (lines 94-103), for the
    columns the merge loop reads *)
Definition opt_lit (s : string) : regex := Opt (lit s).
Definition cat (l : list regex) : regex := fold_right Cat Eps l.

Definition uid_patterns : list regex :=
  [ cat [Bol; lit "imageuid"; Eol];
    cat [lit "image"; opt_lit "data"; lit "id"];
    lit "imageuid" ].
Definition subj_patterns : list regex :=
  [ cat [Bol; lit "ptid"; Eol];
    cat [lit "subject"; opt_lit "id"; Eol];
    lit "rid";
    cat [lit "subject"; opt_lit "_"; lit "key"; Eol] ].
Definition sex_patterns : list regex :=
  [ cat [lit "ptgender"; Eol]; cat [lit "sex"; Eol]; cat [lit "gender"; Eol] ].
Definition age_patterns : list regex :=
  [ cat [lit "age"; Opt (cat [opt_lit "_"; lit "atscan"]); Eol];
    cat [lit "age"; Eol];
    cat [lit "ageyears"; Eol] ].
Definition dx_patterns : list regex :=
  [ cat [lit "dx"; opt_lit "change"; Eol];
    cat [lit "dx"; Eol];
    cat [lit "diagnosis"; Eol];
    cat [lit "dx_bl"; Eol] ].
Definition split_patterns : list regex := [ cat [lit "split"; Eol] ].

(** The columns found in the two sheets. *)
Record Columns : Type := mkColumns {
    adni_uid_col : option string;
    man_uid_col : option string;
    adni_subj_col : option string;
    man_subj_col : option string;
    sex_col : option string;
    age_col : option string;
    dx_col : option string;
    split_col : option string
  }.

Definition or_empty (o : option string) : string :=
  match o with Some s => s | None => "" end.

Definition first_keys (rows : list dict) : list string :=
  match rows with
  | r :: _ => keys r
  | [] => []
  end.

Definition find_columns (adni_rows manifest_rows : list dict) : Columns :=
  let adni_f := ColFinder.init (first_keys adni_rows) in
  let man_f := ColFinder.init (first_keys manifest_rows) in
  let sp := pick_first [or_empty (ColFinder.find man_f split_patterns);
                        or_empty (ColFinder.find adni_f split_patterns)] in
  mkColumns
    (ColFinder.find adni_f uid_patterns)
    (ColFinder.find man_f (uid_patterns ++ [lit "seriesid"])%list)
    (ColFinder.find adni_f subj_patterns)
    (ColFinder.find man_f (subj_patterns ++ [lit "participant"])%list)
    (ColFinder.find adni_f sex_patterns)
    (ColFinder.find adni_f age_patterns)
    (ColFinder.find adni_f dx_patterns)
    (if nonempty sp then Some sp else None).

Section BuildDataset.
(** What the merge loop takes from the rest of [build_dataset]:
    [find_adni] (lines 115-129), the index [path_map] of the
    preprocessed directory (lines 132-139) and the formatting of the age
    (lines 153-156, floating point). *)
Variable cols : Columns.
Variable find_adni : dict -> option dict.
Variable path_map : list (string * dict).
Variable format_age : string -> string.

Definition has_col (d : dict) (col : option string) : bool :=
  match col with
  | Some c => nonempty c && has_key d c
  | None => false
  end.

(** The subject id and the image id of a manifest row (lines 143-146). *)
Definition ad_of (mr : dict) : dict :=
  match find_adni mr with Some d => d | None => [] end.

Definition subj_of (mr : dict) : string :=
  pick_first [get_col mr (man_subj_col cols); get_col (ad_of mr) (adni_subj_col cols)].

Definition uid_of (mr : dict) : string :=
  strip_leading_i
    (pick_first [get_col mr (man_uid_col cols); get_col (ad_of mr) (adni_uid_col cols)]).

(** The body of the merge loop (lines 143-177): [None] is [continue]. *)
Definition merge_row (mr : dict) : option DatasetRow :=
  let ad := ad_of mr in
  let subj := subj_of mr in
  let uid := uid_of mr in
  if negb (nonempty subj) && negb (nonempty uid) then None
  else
    let sex_raw := normalize_sex (pick_first [get_col ad (sex_col cols)]) in
    let sex := sex_code sex_raw in
    let age := format_age (pick_first [get_col ad (age_col cols)]) in
    let dx := normalize_dx (pick_first [get_col ad (dx_col cols)]) in
    let split :=
      if has_col mr (split_col cols) then get_col mr (split_col cols)
      else if has_col ad (split_col cols) then get_col ad (split_col cols)
      else "" in
    let entry := match lookup path_map uid with Some d => d | None => [] end in
    Some (mkRow subj uid split sex age dx dx
                (get entry "img" "") (get entry "segm" "") "").

(** The merge loop (lines 141-177). *)
Fixpoint merge (manifest_rows : list dict) : list DatasetRow :=
  match manifest_rows with
  | [] => []
  | mr :: rest =>
      match merge_row mr with
      | Some r => r :: merge rest
      | None => merge rest
      end
  end.
End BuildDataset.

(** ** The automatic split (lines 179-187) *)

(** [out_rows[ii] = r]; the index is in range where it is used. *)
Fixpoint list_set {A : Type} (l : list A) (i : nat) (x : A) : list A :=
  match l, i with
  | [], _ => []
  | _ :: r, O => x :: r
  | y :: r, S i' => y :: list_set r i' x
  end.

(** Line 181: the row numbers of every subject, subjects in first-seen
    order. *)
Fixpoint index_by_subject (rows : list DatasetRow) (i : nat)
         (by_subj : list (string * list nat)) : list (string * list nat) :=
  match rows with
  | [] => by_subj
  | r :: rest =>
      index_by_subject rest (S i) (setdefault_append by_subj (subject_id r) i)
  end.

(** [by_subj] when the rows [done] are indexed: one entry per subject id
    seen, holding the numbers of its rows. *)
Definition indexes (done : list DatasetRow) (by_subj : list (string * list nat))
  : Prop :=
  NoDup (map fst by_subj) /\
  (forall i r, nth_error done i = Some r -> In (subject_id r) (map fst by_subj)) /\
  (forall k l, In (k, l) by_subj ->
     NoDup l /\
     forall i, In i l <-> exists r, nth_error done i = Some r /\ subject_id r = k).

(** [int(0.8*n)] and [int(0.1*n)]: the products are computed in binary
    floating point and truncated; for every list length that fits in
    memory the result is the integer quotient below. *)
Definition n_train (n : nat) : nat := (8 * n / 10)%nat.
Definition n_valid (n : nat) : nat := (n / 10)%nat.

(** Line 186. *)
Definition split_label (n_tr n_val j : nat) : string :=
  if (j <? n_tr)%nat then "train"
  else if (j <? n_tr + n_val)%nat then "val"
  else "test".

(** What line 187 leaves in place of a row: its split is filled in when it
    is empty, and the row is untouched otherwise. *)
Definition fill_split (r : DatasetRow) (sp : string) : DatasetRow :=
  if negb (nonempty (split r)) then set_split r sp else r.

(** The loop over [enumerate(idxs)] (lines 185-187); reading
    [out_rows[ii]] out of range raises, [None] here. *)
Fixpoint assign_splits (n_tr n_val : nat) (idxs : list nat) (j : nat)
         (out_rows : list DatasetRow) : option (list DatasetRow) :=
  match idxs with
  | [] => Some out_rows
  | ii :: rest =>
      match nth_error out_rows ii with
      | None => None
      | Some r =>
          let out_rows :=
            if negb (nonempty (split r))
            then list_set out_rows ii (set_split r (split_label n_tr n_val j))
            else out_rows in
          assign_splits n_tr n_val rest (S j) out_rows
      end
  end.

Section AutoSplit.
(** The random generator: its state after [random.seed(seed)] and
    [random.shuffle], which returns the shuffled list and the next
    state. *)
Variable rng : Type.
Variable shuffle : rng -> list nat -> list nat * rng.

(** The loop over [by_subj.items()] (lines 182-187). *)
Fixpoint split_groups (groups : list (string * list nat)) (g : rng)
         (out_rows : list DatasetRow) : option (list DatasetRow) :=
  match groups with
  | [] => Some out_rows
  | (_, idxs) :: rest =>
      let '(idxs, g) := shuffle g idxs in
      let n := List.length idxs in
      match assign_splits (n_train n) (n_valid n) idxs O out_rows with
      | None => None
      | Some out_rows => split_groups rest g out_rows
      end
  end.

Definition auto_split_rows (g : rng) (out_rows : list DatasetRow)
  : option (list DatasetRow) :=
  split_groups (index_by_subject out_rows O []) g out_rows.

(** [build_dataset] from the merge on (lines 141-188). *)
Definition build_dataset (cols : Columns) (find_adni : dict -> option dict)
           (path_map : list (string * dict)) (format_age : string -> string)
           (manifest_rows : list dict) (auto_split : bool) (g : rng)
  : option (list DatasetRow) :=
  let out_rows := merge cols find_adni path_map format_age manifest_rows in
  if auto_split then auto_split_rows g out_rows else Some out_rows.
End AutoSplit.

End PrepareCsvBuild.

(* ================================================================== *)
(** * Sample inputs *)
(* ================================================================== *)

Module Examples.
Import PyDict Row.

(** A row of dataset.csv, by the columns that matter to the pairing. *)
Definition visit (subj uid split_ path : string) : dict :=
  [("subject_id", subj); ("image_uid", uid); ("split", split_);
   ("image_path", path)].

(** Three yearly visits of one subject. *)
Definition visit_2018 : dict :=
  visit "S1" "I1" "train" "/pre/S1/20180101/turboprep_Warped.nii.gz".
Definition visit_2019 : dict :=
  visit "S1" "I2" "train" "/pre/S1/20190101/turboprep_Warped.nii.gz".
Definition visit_2020 : dict :=
  visit "S1" "I3" "train" "/pre/S1/20200101/turboprep_Warped.nii.gz".

Definition three_visits : list dict := [visit_2018; visit_2019; visit_2020].

(** Floats for the examples: exact rational arithmetic, with
    [timedelta(days=x)] rounding to the nearest microsecond (ties to even).
    It agrees with binary floating point on the values the examples use
    ([min_days = 0], [min_years = 0]). *)
Definition round_half_even (x : Q) : Z :=
  let n := Qfloor x in
  match Qcompare (x - inject_Z n) (1 # 2) with
  | Lt => n
  | Gt => n + 1
  | Eq => if Z.even n then n else n + 1
  end.

#[export] Instance exact_float : PrepareCsv.PyFloat := {|
  PrepareCsv.float := Q;
  PrepareCsv.float_of_int := inject_Z;
  PrepareCsv.float_add := Qplus;
  PrepareCsv.float_mul := Qmult;
  PrepareCsv.days_per_year := 3652425 # 10000;
  PrepareCsv.timedelta_of_days := fun x => round_half_even (x * inject_Z 86400000000)
|}.

(** A file system for the examples: nothing but the indexed files exists
    and every path is already resolved. *)
Definition no_file (p : PyPath.Path) : bool := false.
Definition resolved (p : PyPath.Path) : PyPath.Path := p.

(** A preprocessed tree whose subject directory carries an imaging suffix
    in its name. *)
Definition warped_in_nii_dir : PyPath.Path :=
  PyPath.mkPath "/" ["pre"; "sub01.nii"; "turboprep_Warped.nii.gz"].
Definition index_nii_dir : list (string * list PyPath.Path) :=
  [("sub01.nii", [warped_in_nii_dir])].
Definition source_row_nii_dir : dict :=
  [("image_id", "I1"); ("subject_id", "sub01.nii"); ("split", "train")].

(** A tree of two subjects and a source row that names neither. *)
Definition index_two_subjects : list (string * list PyPath.Path) :=
  [("S1", [PyPath.mkPath "/" ["pre"; "S1"; "turboprep_Warped.nii.gz"]]);
   ("S2", [PyPath.mkPath "/" ["pre"; "S2"; "turboprep_Warped.nii.gz"]])].
Definition source_row_unknown : dict :=
  [("image_id", "I9"); ("subject_id", "S9"); ("split", "train")].

(** A generator for the examples: its shuffle reverses the list. *)
Definition reverse_shuffle (g : unit) (l : list nat) : list nat * unit := (rev l, g).

(** Ten unsplit rows of one subject. *)
Definition unsplit_row (uid : string) : DatasetRow :=
  mkRow "S1" uid "" "0" "0.700" "0" "0" "" "" "".
Definition ten_unsplit_rows : list DatasetRow :=
  map unsplit_row ["1"; "2"; "3"; "4"; "5"; "6"; "7"; "8"; "9"; "10"].

(** The only row of a subject, unsplit. *)
Definition single_unsplit_row : list DatasetRow := [unsplit_row "1"].

(** Ten rows of one subject of which all but the first two carry the
    split train. *)
Definition train_row (uid : string) : DatasetRow :=
  mkRow "S1" uid "train" "0" "0.700" "0" "0" "" "" "".
Definition two_unsplit_of_ten : list DatasetRow :=
  map unsplit_row ["1"; "2"]
  ++ map train_row ["3"; "4"; "5"; "6"; "7"; "8"; "9"; "10"].

(** Two sheet headers with the same ending. *)
Definition headers_two_sex : list string := ["Patient Sex"; "Sex"].

End Examples.

(* ================================================================== *)
(** * Vocabulary for the properties of the timestamp extractor *)
(* ================================================================== *)

Module TimestampVocabulary.
Import PyStr Timestamp.

(** [m] is the leftmost run of [t] that a pattern of classes [cls] matches:
    [t] is [pre ++ m ++ post], the run takes one character per class, no
    digit stands right before or right after it, and the pattern matches
    nowhere in [pre]. *)
Definition leftmost_run (cls : list (ascii -> bool)) (t m : string) : Prop :=
  exists pre post,
    t = (pre ++ m ++ post)%string /\
    fits cls m = true /\
    ends_with_digit false pre = false /\
    starts_with_digit post = false /\
    search_from cls false pre = None.

(** Midnight of the first of January. *)
Definition new_year (y : Z) : datetime := mkDatetime y 1 1 0 0 0.

End TimestampVocabulary.

(* ================================================================== *)
(** * prepare_csv.py: [build_A] and [main] *)
(* ================================================================== *)

Module PrepareCsvMain.
Import PyStr PyDict Row Timestamp PrepareCsv.

(** [s.split(sep)] for a one-character separator. *)
Fixpoint split_on (sep : ascii) (s : string) : list string :=
  match s with
  | EmptyString => [EmptyString]
  | String c r =>
      if Ascii.eqb c sep then EmptyString :: split_on sep r
      else
        match split_on sep r with
        | x :: l => String c x :: l
        | [] => [String c EmptyString]
        end
  end.

(** The set [allow] of line 206, as the list of its elements. *)
Definition allow (split_filter : string) : list string :=
  filter nonempty (map strip (split_on "," split_filter)).

(** Lines 205-207: the rows in scope. *)
Definition rows_in_scope (split_filter : string) (rows : list dict) : list dict :=
  if nonempty split_filter
  then filter (fun r => in_set (get r "split" "") (allow split_filter)) rows
  else rows.

(** [build_A] (lines 95-108): the rows of A.csv. *)
Definition build_A (rows : list dict) : list DatasetRow := map project rows.

(** Whether [build_B] finds a timestamp for a row (lines 124-125). *)
Definition has_timestamp (r : dict) : bool :=
  match parse_timestamp_from_texts [get r "image_path" ""; get r "image_uid" ""] with
  | Some _ => true
  | None => false
  end.

(** Every pair [(l[i], l[j])] with [i < j], in the order of the two loops
    of lines 167-168. *)
Fixpoint ordered_pairs {A : Type} (l : list A) : list (A * A) :=
  match l with
  | [] => []
  | a :: r => (map (fun b => (a, b)) r ++ ordered_pairs r)%list
  end.

Section Main.
Context {F : PyFloat}.
Variable split_filter : string.
Variable pairing : string.
Variable min_days : Z.
Variable min_years : float.
Variable same_split : bool.
Variable max_pairs_per_subject : Z.
Variable subject_group : string.
Variable subject_regex : option (string -> option string).

(** [main] (lines 204-222) from the rows read on: the rows of A.csv and
    those of B.csv. *)
Definition main (rows : list dict) : list DatasetRow * list DatasetRow :=
  let rows := rows_in_scope split_filter rows in
  (build_A rows,
   build_B pairing min_days min_years same_split max_pairs_per_subject
           subject_group subject_regex rows).

End Main.

End PrepareCsvMain.

(* ================================================================== *)
(** * Vocabulary for the properties of [ColFinder] *)
(* ================================================================== *)

Module HeaderVocabulary.
Import PrepareCsvBuild.

(** Where an entry of [canon] comes from: its value is the first header
    with its key. *)
Definition first_with_key (headers : list string) (kv : string * string) : Prop :=
  exists pre post,
    headers = (pre ++ snd kv :: post)%list /\
    Forall (fun h => ColFinder.canon_key h <> fst kv) pre.

End HeaderVocabulary.

(* ================================================================== *)
(** * prepare_csv_build.py: the indexes of [build_dataset] and
      [find_adni] *)
(* ================================================================== *)

Module AdniIndex.
Import PyStr PyDict Row Timestamp PyPath PyRe PrepareCsvBuild.

(** [d[k] = v] on a dictionary in insertion order: the value of a key
    already there is replaced in place, a new key goes to the end. *)
Fixpoint dict_set {A : Type} (d : list (string * A)) (k : string) (v : A)
  : list (string * A) :=
  match d with
  | [] => [(k, v)]
  | (k', v') :: r =>
      if String.eqb k' k then (k', v) :: r else (k', v') :: dict_set r k v
  end.

(** [r.get(col, '') if col else '']. *)
Definition get_if (d : dict) (col : option string) : string :=
  match col with
  | Some c => if nonempty c then get d c "" else ""
  | None => ""
  end.

(** An element of [idx_subj[subj]]: the date of an ADNI row, if it has
    one, and the row. *)
Definition entry : Type := option datetime * dict.

(** The order of the sort key [(x[0] is None, x[0])] of line 113: dated
    entries by their instant, undated entries after them. *)
Definition key_le (a b : entry) : bool :=
  match fst a, fst b with
  | Some x, Some y => seconds_of x <=? seconds_of y
  | Some _, None => true
  | None, Some _ => false
  | None, None => true
  end.

(** [list.sort(key=...)]: the stable sort, as an insertion sort. *)
Fixpoint insert_entry (x : entry) (l : list entry) : list entry :=
  match l with
  | [] => [x]
  | y :: r => if key_le x y then x :: y :: r else y :: insert_entry x r
  end.

Fixpoint sort_entries (l : list entry) : list entry :=
  match l with
  | [] => []
  | x :: r => insert_entry x (sort_entries r)
  end.

(** [bool(d)] for a dictionary. *)
Definition nonempty_dict (d : dict) : bool :=
  match d with [] => false | _ => true end.

Section Index.
(** [parse_date] is [parse_date_from_values] (lines 40-53) on one
    non-empty value; it goes through [strptime] with formats that depend on
    the locale and is a parameter here.  What it returns comes from
    [strptime], a valid date-time, and such date-times compare and subtract
    as the instants they denote.  The two date columns are those of
    lines 98-99. *)
Variable parse_date : string -> option datetime.
Variable cols : Columns.
Variable adni_date_col : option string.
Variable man_date_col : option string.

(** [parse_date_from_values(v)] with one argument: an empty value is
    passed over (line 42). *)
Definition parse_date_from_values (v : string) : option datetime :=
  if nonempty v then parse_date v else None.

(** What the loop of lines 106-112 reads of an ADNI row. *)
Definition adni_uid_of (r : dict) : string :=
  strip_leading_i (strip (get_if r (adni_uid_col cols))).
Definition adni_subj_of (r : dict) : string :=
  strip (get_if r (adni_subj_col cols)).
Definition adni_date_of (r : dict) : option datetime :=
  parse_date_from_values (get_if r adni_date_col).

(** Lines 105-112; the loop fills the two dictionaries independently. *)
Definition idx_uid (adni_rows : list dict) : list (string * dict) :=
  fold_left
    (fun idx r =>
       if nonempty (adni_uid_of r) then dict_set idx (adni_uid_of r) r else idx)
    adni_rows [].

(** The pair [(dt, r)] of line 112. *)
Definition entry_of (r : dict) : entry := (adni_date_of r, r).

Definition idx_subj_unsorted (adni_rows : list dict) : list (string * list entry) :=
  fold_left
    (fun idx r =>
       if nonempty (adni_subj_of r)
       then setdefault_append idx (adni_subj_of r) (entry_of r)
       else idx)
    adni_rows [].

(** Line 113. *)
Definition idx_subj (adni_rows : list dict) : list (string * list entry) :=
  map (fun kl => (fst kl, sort_entries (snd kl))) (idx_subj_unsorted adni_rows).

(** What [find_adni] reads of a manifest row. *)
Definition man_uid_of (mr : dict) : string := strip (get_if mr (man_uid_col cols)).
Definition man_subj_of (mr : dict) : string := strip (get_if mr (man_subj_col cols)).
Definition man_date_of (mr : dict) : option datetime :=
  parse_date_from_values (get_if mr man_date_col).

(** [abs((dt-mdt).total_seconds())]. *)
Definition seconds_apart (a b : datetime) : Z := Z.abs (seconds_of a - seconds_of b).

(** The loop of lines 125-128 on the state [(best, best_abs)]. *)
Definition closest_step (mdt : datetime) (st : option dict * option Z) (c : entry)
  : option dict * option Z :=
  match fst c with
  | None => st
  | Some dt =>
      let diff := seconds_apart dt mdt in
      match snd st with
      | None => (Some (snd c), Some diff)
      | Some best_abs =>
          if diff <? best_abs then (Some (snd c), Some diff) else st
      end
  end.

(** What the loop has found when the candidates [seen] are visited: the
    row of a dated candidate at the least distance from [mdt], or nothing
    when no candidate seen has a date. *)
Definition closest_inv (mdt : datetime) (seen : list entry)
           (st : option dict * option Z) : Prop :=
  match st with
  | (Some r, Some a) =>
      (exists d, In (Some d, r) seen /\ a = seconds_apart d mdt) /\
      forall d' r', In (Some d', r') seen -> a <= seconds_apart d' mdt
  | (None, None) => forall c, In c seen -> fst c = None
  | _ => False
  end.

(** The candidates of a subject (line 120). *)
Definition candidates_of (adni_rows : list dict) (subj : string) : list entry :=
  match lookup (idx_subj adni_rows) subj with
  | Some l => l
  | None => []
  end.

(** Lines 122-129: the row taken from the candidates [c0 :: cs] of a
    subject, given the date [mdt] of the manifest row. *)
Definition choose_candidate (mdt : option datetime) (c0 : entry) (cs : list entry)
  : dict :=
  let latest := snd (last (c0 :: cs) c0) in
  match mdt with
  | None => latest
  | Some mdt =>
      match fst (fold_left (closest_step mdt) (c0 :: cs) (None, None)) with
      | Some best => if nonempty_dict best then best else latest
      | None => latest
      end
  end.

(** [find_adni] (lines 115-129). *)
Definition find_adni (adni_rows : list dict) (mr : dict) : option dict :=
  let uid := man_uid_of mr in
  match (if nonempty uid then lookup (idx_uid adni_rows) uid else None) with
  | Some r => Some r
  | None =>
      let subj := man_subj_of mr in
      if negb (nonempty subj) then None
      else
        match candidates_of adni_rows subj with
        | [] => None
        | c0 :: cs => Some (choose_candidate (man_date_of mr) c0 cs)
        end
  end.

End Index.

(** ** The index of the preprocessed directory (lines 131-139) *)

(** The longest run of digits at the head of [s], and what follows it. *)
Fixpoint take_digits (s : string) : string * string :=
  match s with
  | EmptyString => (EmptyString, EmptyString)
  | String c r =>
      if isdigit c then let '(ds, rest) := take_digits r in (String c ds, rest)
      else (EmptyString, s)
  end.

(** [(\d+)(?=_)] at the head of [s]: the run of digits must be followed by
    an underscore, and a shorter run is followed by a digit, so only the
    longest run can match. *)
Definition uid_here (s : string) : option string :=
  let '(ds, rest) := take_digits s in
  if nonempty ds && startswith rest "_" then Some ds else None.

(** [I?(\d+)(?=_)] at the head of [s]: with the optional [I] first. *)
Definition uid_match (s : string) : option string :=
  match s with
  | String "I" r =>
      match uid_here r with
      | Some u => Some u
      | None => uid_here s
      end
  | _ => uid_here s
  end.

(** [re.search(r'I?(\d+)(?=_)', s)]: group 1 of the leftmost match. *)
Fixpoint search_uid (s : string) : option string :=
  match uid_match s with
  | Some u => Some u
  | None =>
      match s with
      | EmptyString => None
      | String _ r => search_uid r
      end
  end.

(** [path_map.setdefault(uid, {})[field] = v]. *)
Fixpoint set_field (pm : list (string * dict)) (uid field v : string)
  : list (string * dict) :=
  match pm with
  | [] => [(uid, [(field, v)])]
  | (k, d) :: r =>
      if String.eqb k uid then (k, dict_set d field v) :: r
      else (k, d) :: set_field r uid field v
  end.

(** The body of the loops of lines 134-139 for a file [p]. *)
Definition path_step (field : string) (pm : list (string * dict)) (p : Path)
  : list (string * dict) :=
  match search_uid (name (parent p)) with
  | Some uid => set_field pm uid field (str p)
  | None => pm
  end.

(** [v] is the path of one of the [files], whose directory gives the image
    id [uid]. *)
Definition indexed_path (files : list Path) (uid v : string) : Prop :=
  exists p, In p files /\ v = str p /\ search_uid (name (parent p)) = Some uid.

(** [path_map] from the files that the two [rglob] calls list (both lists
    are empty when there is no preprocessed directory). *)
Definition build_path_map (img_files segm_files : list Path) : list (string * dict) :=
  fold_left (path_step "segm") segm_files (fold_left (path_step "img") img_files []).

(** ** The date columns *)

(** The date patterns of lines 98-99. *)
Definition adni_date_patterns : list regex :=
  [ cat [lit "exam"; opt_lit "date"; Eol];
    cat [lit "scan"; opt_lit "date"; Eol];
    cat [lit "imagedate"; Eol];
    cat [lit "date"; Eol] ].
Definition man_date_patterns : list regex :=
  (adni_date_patterns ++ [cat [lit "acq"; opt_lit "date"; Eol]])%list.

End AdniIndex.

(* ================================================================== *)
(** * Sample sheets *)
(* ================================================================== *)

Module SheetExamples.
Import PyDict PyRe PrepareCsvBuild AdniIndex.

(** An ADNI sheet: three yearly visits of one subject. *)
Definition adni_row (subj uid date sex age_ dx : string) : dict :=
  [("PTID", subj); ("Image Data ID", uid); ("EXAMDATE", date);
   ("PTGENDER", sex); ("AGE", age_); ("DX", dx)].

Definition adni_2018 : dict := adni_row "S1" "I10" "20180101" "F" "70" "CN".
Definition adni_2019 : dict := adni_row "S1" "I11" "20190101" "F" "71" "MCI".
Definition adni_2020 : dict := adni_row "S1" "I12" "20200101" "F" "72" "AD".
Definition adni_sheet : list dict := [adni_2018; adni_2019; adni_2020].

(** A manifest row. *)
Definition manifest_row (subj uid date : string) : dict :=
  [("subject_id", subj); ("image_id", uid); ("scan_date", date)].

(** The image id written without the leading [I], and with it. *)
Definition manifest_plain_id : dict := manifest_row "S1" "11" "".
Definition manifest_prefixed_id : dict := manifest_row "S1" "I11" "20190301".

(** The columns found in the two sheets. *)
Definition sheet_cols : Columns := find_columns adni_sheet [manifest_plain_id].
Definition sheet_adni_date_col : option string :=
  ColFinder.find (ColFinder.init (first_keys adni_sheet)) adni_date_patterns.
Definition sheet_man_date_col : option string :=
  ColFinder.find (ColFinder.init (first_keys [manifest_plain_id])) man_date_patterns.

(** Dates written as eight digits, which [parse_date_from_values] reads
    through the second timestamp pattern and the format [%Y%m%d]. *)
Definition compact_date (v : string) : option Timestamp.datetime :=
  Timestamp.strptime8 v.

End SheetExamples.

(* ================================================================== *)
(** * convert_to_dataset_csv.py: the scan of the preprocessed directory
      and [main] *)
(* ================================================================== *)

Module ConvertIndex.
Import PyStr PyDict PyPath Row ConvertToDataset.

(** The two file names of lines 55 and 60. *)
Definition warped_names : list string :=
  ["turboprep_Warped.nii.gz"; "turboprep_Warped.nii"].

Section Scan.
(** The file system: [p.exists()], and for a directory the names of its
    sub-directories in the order in which [sorted] puts their paths. *)
Variable exists_ : Path -> bool.
Variable subdirs : Path -> list string.

(** The loop over the two names for one directory (lines 55-58 and 60-63). *)
Definition warped_in (d : Path) : list Path :=
  filter exists_ (map (joinpath d) warped_names).

(** [list_warped_under] (lines 53-64). *)
Definition list_warped_under (dirpath : Path) : list Path :=
  (warped_in dirpath
   ++ flat_map (fun n => warped_in (joinpath dirpath n)) (subdirs dirpath))%list.

(** [list_subject_dirs] (lines 50-51). *)
Definition list_subject_dirs (pre_root : Path) : list Path :=
  map (joinpath pre_root)
      (filter (fun n => negb (String.eqb n "_ALL")) (subdirs pre_root)).

(** [subj2warped] (line 136); the names of the directories of one parent
    are pairwise distinct, so no key is written twice. *)
Definition index_of (pre_root : Path) : list (string * list Path) :=
  map (fun d => (name d, list_warped_under d)) (list_subject_dirs pre_root).

(** Lines 129-130. *)
Definition rows_to_process (limit : Z) (rows_in : list dict) : list dict :=
  if 0 <? limit then firstn (Z.to_nat limit) rows_in else rows_in.

(** [main] (lines 124-198) from the rows read on. *)
Definition main (resolve : Path -> Path) (meta : list (string * Meta))
           (pre_root : Path) (limit : Z) (rows_in : list dict) : LoopState :=
  main_loop exists_ resolve (index_of pre_root) meta (rows_to_process limit rows_in).

End Scan.

(** The parts of the primary score (lines 84-98). *)
Definition score_parts (subject_part image_part series_part visit_part : Z) : Prop :=
  (subject_part = 0 \/ subject_part = 100) /\
  (image_part = 0 \/ image_part = 40 \/ image_part = 100 \/ image_part = 180) /\
  (series_part = 0 \/ series_part = 10) /\
  (visit_part = 0 \/ visit_part = 10).

End ConvertIndex.

(* ================================================================== *)
(** * A sample preprocessed directory *)
(* ================================================================== *)

Module TreeExamples.
Import PyStr PyDict PyPath.

(** The directory [/pre] with the sub-directories [S1] and [_ALL], and
    one artifact, in [S1]. *)
Definition pre_root : Path := mkPath "/" ["pre"].

Definition tree_subdirs (p : Path) : list string :=
  if String.eqb (as_posix p) "/pre" then ["S1"; "_ALL"] else [].

Definition artifact_S1 : Path := mkPath "/" ["pre"; "S1"; "turboprep_Warped.nii.gz"].

Definition tree_exists (p : Path) : bool :=
  String.eqb (as_posix p) (as_posix artifact_S1).

(** A source row of subject [S1] without image id and split. *)
Definition source_row_S1 : dict :=
  [("image_id", ""); ("subject_id", " S1 "); ("split", "")].

End TreeExamples.

(* ================================================================== *)
(** * Reading the rows of a sheet, and clean_quotes.py *)
(* ================================================================== *)

Module CsvRows.
Import PyStr PyDict AdniIndex.

(** [csv.DictReader.__next__] on a line of at most as many cells as the
    header has names, with the cells as [csv.reader] gives them:
    [d = dict(zip(self.fieldnames, row))], then
    [d[key] = self.restval] for the names past the end of the line.  A name
    written twice keeps its first place and takes the last value.  The
    [restval] is [None], which the only reader of the dict turns into the
    empty string ([v or '']); it is the empty string here. *)
Definition dict_reader_row (fieldnames row : list string) : dict :=
  fold_left (fun d key => dict_set d key "")
            (skipn (List.length row) fieldnames)
            (fold_left (fun d kv => dict_set d (fst kv) (snd kv))
                       (combine fieldnames row) []).

(** [{(k or '').strip(): (v or '').strip() for k, v in r.items()}]
    (prepare_csv.py line 47 in [read_dataset_rows], prepare_csv_build.py
    line 30 in [read_rows]): a key that comes up twice once stripped keeps
    its first place and takes the last value. *)
Definition clean_row (r : dict) : dict :=
  fold_left (fun d kv => dict_set d (strip (fst kv)) (strip (snd kv))) r [].

(** One line of the sheet.  On a line with more cells than the header has
    names the reader stores the list of the cells in excess under the key
    [None], and the comprehension raises on it (a list has no [strip]):
    [None] here. *)
Definition read_row (fieldnames row : list string) : option dict :=
  if (List.length fieldnames <? List.length row)%nat then None
  else Some (clean_row (dict_reader_row fieldnames row)).

(** [while row == []: row = next(self.reader)]: blank lines are skipped. *)
Definition nonblank (row : list string) : bool :=
  match row with
  | [] => false
  | _ :: _ => true
  end.

Fixpoint read_all (fieldnames : list string) (rows : list (list string))
  : option (list dict) :=
  match rows with
  | [] => Some []
  | row :: rest =>
      match read_row fieldnames row with
      | None => None
      | Some r =>
          match read_all fieldnames rest with
          | None => None
          | Some out => Some (r :: out)
          end
      end
  end.

(** [read_dataset_rows] (prepare_csv.py lines 41-48) and [read_rows]
    (prepare_csv_build.py lines 27-30) on the lines of the sheet as
    [csv.reader] yields them: the first line is the header, and a sheet
    without any line has no rows. *)
Definition read_rows (lines : list (list string)) : option (list dict) :=
  match lines with
  | [] => Some []
  | fieldnames :: rest => read_all fieldnames (filter nonblank rest)
  end.

(** Filling a dict pair by pair, [f] applied to the keys and [g] to the
    values: the reader fills its dict with both as they are, the
    comprehension with both stripped. *)
Definition fill (f g : string -> string) (l acc : dict) : dict :=
  fold_left (fun d kv => dict_set d (f (fst kv)) (g (snd kv))) l acc.

(** The cells of a line, filled up with empty cells to the width of the
    header. *)
Definition padded (fieldnames row : list string) : list string :=
  (row ++ repeat "" (List.length fieldnames - List.length row))%list.

End CsvRows.

Module CleanQuotes.
Import PyStr.

(** The two quote characters. *)
Definition apostrophe : ascii := "'"%char.
Definition double_quote : ascii := ascii_of_nat 34.

Definition is_quote (c : ascii) : bool :=
  Ascii.eqb c apostrophe || Ascii.eqb c double_quote.

(** Line 16, for one cell: both quote characters are replaced by nothing. *)
Definition clean_cell (cell : string) : string :=
  replace (replace cell (String apostrophe EmptyString) "")
          (String double_quote EmptyString) "".

(** Lines 15-17: the rows written. *)
Definition clean_rows (rows : list (list string)) : list (list string) :=
  map (map clean_cell) rows.

(** Line 10. *)
Definition output_file (input_file : string) : string :=
  replace input_file ".csv" "_clean.csv".

End CleanQuotes.

(* ================================================================== *)
(** * Python floats: IEEE 754 binary64, and [timedelta(days=x)] *)
(* ================================================================== *)

Module Binary64.
Import SpecFloat Timestamp.

(** A Python [float] is a binary64 number: 53 bits of precision, the
    infinities at exponent 1024.  The operations are those of the
    Standard Library's specification of binary floating point, which
    round to nearest, ties to even. *)
Definition prec : Z := 53.
Definition emax : Z := 1024.

(** [float(n)] for an integer [n], correctly rounded (Python raises
    OverflowError where the result here is an infinity). *)
Definition float_of_int (n : Z) : spec_float := binary_normalize prec emax n 0 false.

Definition float_add : spec_float -> spec_float -> spec_float := SFadd prec emax.
Definition float_mul : spec_float -> spec_float -> spec_float := SFmul prec emax.
Definition float_div : spec_float -> spec_float -> spec_float := SFdiv prec emax.

(** The literal [365.2425]: the binary64 number nearest to it,
    [6425414011327611 * 2^-44]. *)
Definition days_per_year : spec_float := S754_finite false 6425414011327611 (-44).

(** C's [modf]: the integral part, rounded towards zero, and the
    fractional part, which is exact and has the sign of the argument. *)
Definition modf (x : spec_float) : Z * spec_float :=
  match x with
  | S754_finite s m e =>
      if 0 <=? e then (cond_Zopp s (Z.shiftl (Zpos m) e), S754_zero s)
      else
        let q := Z.shiftr (Zpos m) (- e) in
        let r := Zpos m - Z.shiftl q (- e) in
        (cond_Zopp s q, binary_normalize prec emax (cond_Zopp s r) e s)
  | _ => (0, x)
  end.

(** [round(leftover_us)] of [delta_new] with its correction at the
    halves: a fraction of a microsecond is rounded to the nearest whole
    number, and a half goes to the side that makes the number of
    microseconds [x] even. *)
Definition round_leftover (x : Z) (leftover : spec_float) : Z :=
  match leftover with
  | S754_finite s m e =>
      match Z.compare (Z.shiftl (Zpos m) 1) (Z.shiftl 1 (- e)) with
      | Lt => 0
      | Gt => cond_Zopp s 1
      | Eq => if Z.odd x then cond_Zopp s 1 else 0
      end
  | _ => 0
  end.

Definition us_per_day : Z := 86400000000.

(** [timedelta(days=x)] for a float [x], in microseconds, as CPython's
    [delta_new] and [accum] compute it: the integral part of [x] is
    multiplied by the microseconds of a day exactly; the fractional part is
    multiplied by them in floating point, and the fraction of a microsecond
    left over is rounded.  The constructor raises for an infinity or a
    NaN, where the value is 0 here, and for a result beyond 999999999
    days, where the value is the number of microseconds all the same. *)
Definition timedelta_of_days (x : spec_float) : timedelta :=
  let '(intpart, fracpart) := modf x in
  let sum := intpart * us_per_day in
  match fracpart with
  | S754_finite _ _ _ =>
      let '(intpart', leftover) := modf (float_mul (float_of_int us_per_day) fracpart) in
      let y := sum + intpart' in
      y + round_leftover y leftover
  | _ => sum
  end.

#[export] Instance binary64 : PrepareCsv.PyFloat := {|
  PrepareCsv.float := spec_float;
  PrepareCsv.float_of_int := float_of_int;
  PrepareCsv.float_add := float_add;
  PrepareCsv.float_mul := float_mul;
  PrepareCsv.days_per_year := days_per_year;
  PrepareCsv.timedelta_of_days := timedelta_of_days
|}.

(** The float [k/4], a number of quarters of a year; for the whole
    numbers [k] used below the quotient is exact. *)
Definition quarters (k : Z) : spec_float := float_div (float_of_int k) (float_of_int 4).

(** The threshold of line 138 for [min_days] and [k] quarters of a year,
    against the seconds of [min_days + (k/4) * 365.2425] days; a day has
    86400 seconds and a quarter of 365.2425 days has 7889238. *)
Definition threshold_is_exact (min_days k : Z) : bool :=
  PrepareCsv.td_thresh (F := binary64) min_days (quarters k)
  =? (min_days * 86400 + k * 7889238) * 1000000.

(** The integers from 0 to [n - 1]. *)
Definition zrange (n : nat) : list Z := map Z.of_nat (seq 0 n).

(** [int(x)] for a finite float: the integral part. *)
Definition int_of_float (x : spec_float) : Z := fst (modf x).

(** The literals [0.8] and [0.1] of the automatic split. *)
Definition literal_0_8 : spec_float := S754_finite false 7205759403792794 (-53).
Definition literal_0_1 : spec_float := S754_finite false 7205759403792794 (-56).

(** [int(0.8*n)] and [int(0.1*n)] against the quotients that model them
    in the automatic split. *)
Definition split_counts_agree (n : nat) : bool :=
  (int_of_float (float_mul literal_0_8 (float_of_int (Z.of_nat n)))
   =? Z.of_nat (PrepareCsvBuild.n_train n))
  && (int_of_float (float_mul literal_0_1 (float_of_int (Z.of_nat n)))
      =? Z.of_nat (PrepareCsvBuild.n_valid n)).

End Binary64.

Module ThresholdExamples.
Import PyDict Row Examples.

(** Two visits of one subject, [195 * 365.2425] days apart to the
    second. *)
Definition visit_1800 : dict :=
  visit "S1" "I1" "train" "/pre/S1/18000101000000/turboprep_Warped.nii.gz".
Definition visit_1995 : dict :=
  visit "S1" "I2" "train" "/pre/S1/19950101065400/turboprep_Warped.nii.gz".

End ThresholdExamples.

(* ################################################################## *)
(** * Part II: properties *)
(* ################################################################## *)

(* ================================================================== *)
(** * Properties of the string primitives *)
(* ================================================================== *)

Module PyStrFacts.
Import PyStr.

Lemma upper_char_idem (c : ascii) : upper_char (upper_char c) = upper_char c.
Proof. destruct c as [[] [] [] [] [] [] [] []]; reflexivity. Qed.

Lemma isspace_upper_char (c : ascii) : isspace (upper_char c) = isspace c.
Proof. destruct c as [[] [] [] [] [] [] [] []]; reflexivity. Qed.

Lemma upper_idem (s : string) : upper (upper s) = upper s.
Proof.
  unfold upper. induction s as [|c r IH]; simpl.
  - reflexivity.
  - now rewrite upper_char_idem, IH.
Qed.

Lemma lstrip_upper (s : string) : lstrip (upper s) = upper (lstrip s).
Proof.
  unfold upper. induction s as [|c r IH]; simpl.
  - reflexivity.
  - rewrite isspace_upper_char. destruct (isspace c); [exact IH | reflexivity].
Qed.

Lemma rstrip_upper (s : string) : rstrip (upper s) = upper (rstrip s).
Proof.
  unfold upper. induction s as [|c r IH]; simpl.
  - reflexivity.
  - rewrite IH, isspace_upper_char.
    destruct (rstrip r); simpl; [destruct (isspace c)|]; reflexivity.
Qed.

Lemma strip_upper (s : string) : strip (upper s) = upper (strip s).
Proof. unfold strip. now rewrite lstrip_upper, rstrip_upper. Qed.

Lemma rstrip_idem (s : string) : rstrip (rstrip s) = rstrip s.
Proof.
  induction s as [|c r IH]; simpl.
  - reflexivity.
  - destruct (rstrip r) as [|d r'] eqn:E.
    + destruct (isspace c) eqn:Ec; simpl; [reflexivity | now rewrite Ec].
    + change (rstrip (String c (String d r'))) with
        (match rstrip (String d r') with
         | EmptyString => if isspace c then EmptyString else String c EmptyString
         | r0 => String c r0
         end).
      now rewrite IH.
Qed.

(** What [lstrip] leaves does not start with white space. *)
Lemma lstrip_head (s : string) :
  lstrip s = EmptyString \/
  exists c r, lstrip s = String c r /\ isspace c = false.
Proof.
  induction s as [|c r IH]; simpl.
  - now left.
  - destruct (isspace c) eqn:Ec; [exact IH | right; eauto].
Qed.

Lemma lstrip_rstrip_lstrip (s : string) : lstrip (rstrip (lstrip s)) = rstrip (lstrip s).
Proof.
  destruct (lstrip_head s) as [-> | (c & r & -> & Hc)]; [reflexivity|].
  simpl. destruct (rstrip r); rewrite ?Hc; simpl; now rewrite Hc.
Qed.

Lemma strip_idem (s : string) : strip (strip s) = strip s.
Proof. unfold strip. now rewrite lstrip_rstrip_lstrip, rstrip_idem. Qed.

Lemma in_set_spec (v : string) (l : list string) : in_set v l = true <-> In v l.
Proof.
  unfold in_set. rewrite existsb_exists. split.
  - intros (x & Hx & E). apply String.eqb_eq in E. now subst.
  - intros H. exists v. split; [assumption | apply String.eqb_refl].
Qed.

(** ** [str.replace] on a path whose only imaging suffix is its ending *)

Lemma replace_from_skip_all (old new : string) :
  forall s k, (String.length s <= k)%nat -> replace_from k old new s = EmptyString.
Proof.
  induction s as [|c r IH]; intros k Hk; simpl.
  - reflexivity.
  - destruct k as [|k]; simpl in Hk; [lia|]. apply IH. lia.
Qed.

Lemma startswith_refl (s : string) : startswith s s = true.
Proof.
  induction s as [|c r IH]; simpl; [reflexivity|].
  now rewrite Ascii.eqb_refl, IH.
Qed.

Lemma append_empty_r (s : string) : (s ++ "")%string = s.
Proof. induction s as [|c r IH]; simpl; [reflexivity | now rewrite IH]. Qed.

(** Without an occurrence nothing is replaced. *)
Lemma replace_unchanged (old new : string) :
  forall s, contains s old = false -> replace s old new = s.
Proof.
  unfold replace. induction s as [|c r IH]; intros H.
  - reflexivity.
  - cbn [contains] in H. apply orb_false_iff in H. destruct H as [H1 H2].
    cbn [replace_from]. rewrite H1, (IH H2). reflexivity.
Qed.

(** No occurrence of [old] in [stem ++ old] starts inside [stem]. *)
Local Abbreviation no_early_start stem old :=
  (forall pre c t, stem = (pre ++ String c t)%string ->
                   startswith (String c t ++ old) old = false).

(** When [old] occurs in [stem ++ old] at the end only, that occurrence is
    the one replaced. *)
Lemma replace_at_end (old new : string) :
  old <> EmptyString ->
  forall stem,
    no_early_start stem old ->
    replace (stem ++ old) old new = (stem ++ new)%string.
Proof.
  intros Hold. unfold replace. induction stem as [|c r IH]; intros Hearly.
  - destruct old as [|a old']; [congruence|].
    cbn [append replace_from].
    change (startswith (String a old') (String a old')) with
      (Ascii.eqb a a && startswith old' old').
    rewrite Ascii.eqb_refl, startswith_refl. cbn [andb].
    rewrite replace_from_skip_all by (simpl; lia).
    apply append_empty_r.
  - cbn [append replace_from].
    change (String c (r ++ old)%string) with (String c r ++ old)%string.
    rewrite (Hearly EmptyString c r eq_refl).
    f_equal. apply IH.
    intros pre c' t E. apply (Hearly (String c pre) c' t). simpl. now rewrite E.
Qed.

(** A text that does not start with [.nii] does not come to start with an
    imaging suffix, or with [.nii] again, by what is appended to it. *)
Lemma no_suffix_by_appending (t : string) :
  t <> EmptyString ->
  startswith t ".nii" = false ->
  startswith (t ++ ".nii.gz") ".nii.gz" = false /\
  startswith (t ++ ".nii") ".nii.gz" = false /\
  startswith (t ++ ".nii") ".nii" = false /\
  startswith (t ++ "_latent.npz") ".nii" = false.
Proof.
  intros Hne H.
  destruct t as [|c1 [|c2 [|c3 [|c4 r]]]]; [congruence | | | |];
    cbn [startswith append] in *;
    repeat match goal with
           | H0 : context [Ascii.eqb ?a ?b] |- _ =>
               destruct (Ascii.eqb_spec a b); [subst|]; cbn [andb] in *
           | |- context [Ascii.eqb ?a ?b] =>
               destruct (Ascii.eqb_spec a b); [subst|]; cbn [andb] in *
           end;
    try discriminate;
    try (match goal with H0 : startswith ?r EmptyString = false |- _ =>
           destruct r; discriminate H0 end);
    repeat split; reflexivity.
Qed.

Lemma contains_cons_false (c : ascii) (r p : string) :
  contains (String c r) p = false ->
  startswith (String c r) p = false /\ contains r p = false.
Proof. cbn [contains]. apply orb_false_iff. Qed.

Lemma no_nii_no_early_start (stem : string) :
  contains stem ".nii" = false ->
  no_early_start stem ".nii.gz" /\ no_early_start stem ".nii".
Proof.
  induction stem as [|c r IH]; intros H.
  - split; intros [|x pre] c t E; discriminate E.
  - apply contains_cons_false in H. destruct H as [H1 H2].
    destruct (IH H2) as [IH1 IH2].
    destruct (no_suffix_by_appending (String c r)) as (E1 & _ & E3 & _);
      [discriminate | exact H1 |].
    split; intros [|x pre] c' t E; simpl in E; injection E as -> ->;
      eauto.
Qed.

Lemma no_nii_after_append (stem : string) :
  contains stem ".nii" = false ->
  contains (stem ++ ".nii") ".nii.gz" = false /\
  contains (stem ++ "_latent.npz") ".nii" = false.
Proof.
  induction stem as [|c r IH]; intros H.
  - split; reflexivity.
  - apply contains_cons_false in H. destruct H as [H1 H2].
    destruct (IH H2) as [IH1 IH2].
    destruct (no_suffix_by_appending (String c r)) as (_ & E2 & _ & E4);
      [discriminate | exact H1 |].
    split.
    + change (contains (String c r ++ ".nii") ".nii.gz")
        with (startswith (String c r ++ ".nii") ".nii.gz"
              || contains (r ++ ".nii") ".nii.gz").
      now rewrite E2, IH1.
    + change (contains (String c r ++ "_latent.npz") ".nii")
        with (startswith (String c r ++ "_latent.npz") ".nii"
              || contains (r ++ "_latent.npz") ".nii").
      now rewrite E4, IH2.
Qed.

(** On an image path in which [.nii] occurs in the suffix only, line 177
    does replace the suffix: C8 holds for such paths. *)
Lemma latent_of_suffix_only (stem : string) :
  contains stem ".nii" = false ->
  ConvertToDataset.latent_of (stem ++ ".nii.gz") = (stem ++ "_latent.npz")%string /\
  ConvertToDataset.latent_of (stem ++ ".nii") = (stem ++ "_latent.npz")%string.
Proof.
  intros H. unfold ConvertToDataset.latent_of.
  destruct (no_nii_no_early_start stem H) as [Hgz Hnii].
  destruct (no_nii_after_append stem H) as [Hc1 Hc2].
  split.
  - rewrite (replace_at_end ".nii.gz" "_latent.npz") by (discriminate || exact Hgz).
    now apply replace_unchanged.
  - rewrite (replace_unchanged ".nii.gz" "_latent.npz" _ Hc1).
    apply replace_at_end; [discriminate | exact Hnii].
Qed.

End PyStrFacts.

(* ================================================================== *)
(** * Sex normalisation (prepare_csv_build.py) *)
(* ================================================================== *)

Module NormalizeSexFacts.
Import PyStr PyStrFacts PrepareCsvBuild.

Lemma cleaned_idem (v : string) : upper (strip (upper (strip v))) = upper (strip v).
Proof. now rewrite strip_upper, strip_idem, upper_idem. Qed.

Lemma normalize_sex_cases (v : string) :
  (In (upper (strip v)) ["M"; "MALE"] /\ normalize_sex v = "M") \/
  (In (upper (strip v)) ["F"; "FEMALE"] /\ normalize_sex v = "F") \/
  (~ In (upper (strip v)) ["M"; "MALE"; "F"; "FEMALE"] /\ normalize_sex v = upper (strip v)).
Proof.
  unfold normalize_sex.
  destruct (in_set (upper (strip v)) ["M"; "MALE"]) eqn:E1.
  - left. split; [now apply in_set_spec | reflexivity].
  - destruct (in_set (upper (strip v)) ["F"; "FEMALE"]) eqn:E2.
    + right; left. split; [now apply in_set_spec | reflexivity].
    + right; right. split; [|reflexivity].
      intros H.
      assert (H1 : ~ In (upper (strip v)) ["M"; "MALE"])
        by (rewrite <- in_set_spec; congruence).
      assert (H2 : ~ In (upper (strip v)) ["F"; "FEMALE"])
        by (rewrite <- in_set_spec; congruence).
      simpl in *. tauto.
Qed.

(** C1, as the specification states it, fails: an input that is neither
    spelling of male or female is not mapped to the empty string.  The cell
    ["Unknown"] comes back as ["UNKNOWN"]. *)
Lemma normalize_sex_unknown_not_empty :
  normalize_sex "Unknown" = "UNKNOWN" /\
  ~ (normalize_sex "Unknown" = "M" \/ normalize_sex "Unknown" = "F"
     \/ normalize_sex "Unknown" = "").
Proof.
  split; [reflexivity|].
  intros [H | [H | H]]; discriminate H.
Qed.

(** C1, amended: [normalize_sex] is total and idempotent; "M"/"MALE" (in any
    letter case, surrounded by any white space) give "M", "F"/"FEMALE" give
    "F", and any other input is returned stripped and upper-cased, not
    emptied.  It is the sex code built from it in [build_dataset] that is
    one of "0", "1" or the empty string, the empty string exactly for the
    other inputs. *)
Theorem normalize_sex_total_idempotent (v : string) :
  ((In (upper (strip v)) ["M"; "MALE"] /\ normalize_sex v = "M" /\ sex_code (normalize_sex v) = "0") \/
   (In (upper (strip v)) ["F"; "FEMALE"] /\ normalize_sex v = "F" /\ sex_code (normalize_sex v) = "1") \/
   (~ In (upper (strip v)) ["M"; "MALE"; "F"; "FEMALE"] /\ normalize_sex v = upper (strip v)
    /\ sex_code (normalize_sex v) = "")) /\
  normalize_sex (normalize_sex v) = normalize_sex v.
Proof.
  destruct (normalize_sex_cases v) as [[H E] | [[H E] | [H E]]].
  - split; [left; rewrite E; auto | now rewrite E].
  - split; [right; left; rewrite E; auto | now rewrite E].
  - split.
    + right; right. repeat split; [exact H | exact E |].
      rewrite E. unfold sex_code.
      destruct (String.eqb_spec (upper (strip v)) "M") as [e|_];
        [exfalso; apply H; rewrite e; simpl; auto|].
      destruct (String.eqb_spec (upper (strip v)) "F") as [e|_];
        [exfalso; apply H; rewrite e; simpl; auto|].
      reflexivity.
    + rewrite E.
      destruct (normalize_sex_cases (upper (strip v))) as [[H' E'] | [[H' E'] | [H' E']]];
        rewrite cleaned_idem in H'.
      * exfalso. apply H. simpl in *. tauto.
      * exfalso. apply H. simpl in *. tauto.
      * now rewrite E', cleaned_idem.
Qed.

End NormalizeSexFacts.

(* ================================================================== *)
(** * The file candidate matcher (convert_to_dataset_csv.py) *)
(* ================================================================== *)

Module ChooseBestFacts.
Import PyStr PyPath ConvertToDataset.

Lemma tuple_gt_iff (a b : Z * Z) :
  tuple_gt a b = true <-> (fst b < fst a \/ (fst a = fst b /\ snd b < snd a)).
Proof.
  unfold tuple_gt.
  rewrite orb_true_iff, andb_true_iff, !Z.ltb_lt, Z.eqb_eq. tauto.
Qed.

Lemma tuple_gt_false_iff (a b : Z * Z) :
  tuple_gt a b = false <-> (fst a < fst b \/ (fst a = fst b /\ snd a <= snd b)).
Proof.
  rewrite <- not_true_iff_false, tuple_gt_iff. lia.
Qed.

Ltac tuple_order :=
  repeat match goal with
         | H : tuple_gt _ _ = true |- _ => apply tuple_gt_iff in H
         | H : tuple_gt _ _ = false |- _ => apply tuple_gt_false_iff in H
         | |- tuple_gt _ _ = true => apply tuple_gt_iff
         | |- tuple_gt _ _ = false => apply tuple_gt_false_iff
         end.

(** Every score component is non-negative, so any candidate beats the
    initial [best_score = (-1, -1)]. *)
Lemma score_candidate_nonneg (p : Path) (subj img ser vis : string) :
  0 <= fst (score_candidate p subj img ser vis) /\
  0 <= snd (score_candidate p subj img ser vis).
Proof.
  unfold score_candidate, len.
  repeat match goal with
         | |- context [if ?b then _ else _] => destruct b
         end; simpl; lia.
Qed.

Section Selection.
Variables subject_id image_id series_id image_visit : string.

Local Abbreviation score c :=
  (score_candidate c subject_id image_id series_id image_visit).
Local Abbreviation loop := (choose_loop subject_id image_id series_id image_visit).
Local Abbreviation first_best := (first_best subject_id image_id series_id image_visit).

(** The loop keeps the state unless a candidate beats it, and then ends on
    the first candidate with the highest score. *)
Lemma choose_loop_spec (cands : list Path) :
  forall best bs,
    (loop cands best bs = (best, bs) /\
     Forall (fun x => tuple_gt (score x) bs = false) cands) \/
    (exists c, loop cands best bs = (Some c, score c) /\
               tuple_gt (score c) bs = true /\ first_best cands c).
Proof.
  induction cands as [|c rest IH]; intros best bs; simpl.
  - left. split; [reflexivity | constructor].
  - destruct (tuple_gt (score c) bs) eqn:Hc.
    + right.
      destruct (IH (Some c) (score c))
        as [[E F] | (c' & E & G & pre & post & -> & Fpre & Fpost)].
      * exists c. split; [exact E | split; [exact Hc|]].
        exists [], rest. split; [reflexivity | split; [constructor | exact F]].
      * exists c'. split; [exact E | split; [tuple_order; lia|]].
        exists (c :: pre), post.
        split; [reflexivity | split; [constructor; assumption | exact Fpost]].
    + destruct (IH best bs)
        as [[E F] | (c' & E & G & pre & post & -> & Fpre & Fpost)].
      * left. split; [exact E | constructor; assumption].
      * right. exists c'. split; [exact E | split; [exact G|]].
        exists (c :: pre), post.
        split; [reflexivity | split; [|exact Fpost]].
        constructor; [tuple_order; lia | exact Fpre].
Qed.

Lemma first_best_max (cands : list Path) (c : Path) :
  first_best cands c -> Forall (fun x => fst (score x) <= fst (score c)) cands.
Proof.
  intros (pre & post & -> & Fpre & Fpost).
  apply Forall_app. split; [|constructor; [lia|]].
  - eapply Forall_impl; [|exact Fpre]. intros x Hx. cbv beta in Hx. tuple_order. lia.
  - eapply Forall_impl; [|exact Fpost]. intros x Hx. cbv beta in Hx. tuple_order. lia.
Qed.

Lemma first_best_In (cands : list Path) (c : Path) : first_best cands c -> In c cands.
Proof. intros (pre & post & -> & _). apply in_elt. Qed.

(** On a non-empty pool the loop of [choose_best] ends on the first best
    candidate. *)
Lemma choose_loop_nonempty (c0 : Path) (rest : list Path) :
  exists c, loop (c0 :: rest) None (-1, -1) = (Some c, score c) /\
            first_best (c0 :: rest) c.
Proof.
  destruct (choose_loop_spec (c0 :: rest) None (-1, -1))
    as [[_ F] | (c & E & _ & Hb)].
  - exfalso. inversion F as [|x l Hx _]; subst.
    destruct (score_candidate_nonneg c0 subject_id image_id series_id image_visit).
    tuple_order. simpl in Hx. lia.
  - eauto.
Qed.

(** C2: the selection step.  An empty pool gives no match; a pool of one
    candidate returns that candidate whatever its score; a pool of two or
    more gives no match when the highest primary score is at most 0 (that is,
    every primary score is), and otherwise returns the candidate with the
    highest score tuple (primary score, then prefix length), the first such
    in the order of the pool. *)
Theorem choose_best_selection (cands : list Path) :
  match cands with
  | [] => choose_best subject_id image_id series_id image_visit cands = None
  | [c] => choose_best subject_id image_id series_id image_visit cands = Some c
  | _ =>
      (Forall (fun x => fst (score x) <= 0) cands /\
       choose_best subject_id image_id series_id image_visit cands = None) \/
      (exists c,
          0 < fst (score c) /\ first_best cands c /\
          choose_best subject_id image_id series_id image_visit cands = Some c)
  end.
Proof.
  destruct cands as [|c0 [|c1 rest]].
  - reflexivity.
  - unfold choose_best.
    destruct (choose_loop_nonempty c0 []) as (c & E & Hb).
    rewrite E. simpl.
    apply first_best_In in Hb. destruct Hb as [<- | []]. reflexivity.
  - unfold choose_best.
    destruct (choose_loop_nonempty c0 (c1 :: rest)) as (c & E & Hb).
    rewrite E. cbn [List.length fst].
    replace (1 <? S (S (List.length rest)))%nat with true
      by (symmetry; apply Nat.ltb_lt; lia).
    simpl andb.
    destruct (fst (score c) <=? 0) eqn:Hs.
    + left. split; [|reflexivity].
      apply Z.leb_le in Hs.
      eapply Forall_impl; [|exact (first_best_max _ _ Hb)].
      intros x Hx. cbv beta in Hx. lia.
    + right. exists c. apply Z.leb_gt in Hs. auto.
Qed.

End Selection.

(** The example of the specification: the path with the subject segment is
    chosen (score 100 against 0). *)
Example choose_best_subject_segment :
  choose_best "123" "" "" ""
    [mkPath "/" ["A"; "123"; "img.nii.gz"]; mkPath "/" ["A"; "999"; "img.nii.gz"]]
  = Some (mkPath "/" ["A"; "123"; "img.nii.gz"]).
Proof. reflexivity. Qed.

(** A lone candidate that matches nothing is accepted; the same candidate
    among two is rejected. *)
Example choose_best_lone_unscored :
  choose_best "123" "77" "" "" [mkPath "/" ["A"; "999"; "img.nii.gz"]]
  = Some (mkPath "/" ["A"; "999"; "img.nii.gz"])
  /\ choose_best "123" "77" "" ""
       [mkPath "/" ["A"; "999"; "img.nii.gz"]; mkPath "/" ["A"; "998"; "img.nii.gz"]]
     = None.
Proof. split; reflexivity. Qed.

(** Equal primary scores are separated by the prefix length before the
    order of the pool: both paths score 100, the second has the longer
    prefix match and wins. *)
Example choose_best_prefix_tiebreak :
  score_candidate (mkPath "/" ["A"; "S1"; "img.nii.gz"]) "S1" "I7" "" "" = (100, 0)
  /\ score_candidate (mkPath "/" ["A"; "I7_x"; "img.nii.gz"]) "S1" "I7" "" "" = (100, 2)
  /\ choose_best "S1" "I7" "" ""
       [mkPath "/" ["A"; "S1"; "img.nii.gz"]; mkPath "/" ["A"; "I7_x"; "img.nii.gz"]]
     = Some (mkPath "/" ["A"; "I7_x"; "img.nii.gz"]).
Proof. repeat split; reflexivity. Qed.

End ChooseBestFacts.

(* ================================================================== *)
(** * The timestamp extractor (prepare_csv.py) *)
(* ================================================================== *)

Module TimestampFacts.
Import PyStr Timestamp.

(** ** Datetimes as instants *)

Lemma days_before_year_succ (y : Z) :
  days_before_year (y + 1) = days_before_year y + (if is_leap y then 366 else 365).
Proof.
  unfold days_before_year, is_leap. cbv zeta.
  replace (y + 1 - 1) with y by lia.
  destruct (y mod 4 =? 0) eqn:E4; destruct (y mod 100 =? 0) eqn:E100;
    destruct (y mod 400 =? 0) eqn:E400; cbn [negb andb orb];
    rewrite ?Z.eqb_eq, ?Z.eqb_neq in *;
    Z.div_mod_to_equations; lia.
Qed.

(** A later year starts after the last day of an earlier one. *)
Lemma days_before_year_mono (y1 y2 : Z) :
  y1 < y2 ->
  days_before_year y1 + (if is_leap y1 then 366 else 365) <= days_before_year y2.
Proof.
  intros H.
  assert (Hm : forall n, 0 <= n ->
             days_before_year (y1 + 1) + 365 * n <= days_before_year (y1 + 1 + n)).
  { apply natlike_ind.
    - cbv beta. replace (y1 + 1 + 0) with (y1 + 1) by lia. lia.
    - intros n Hn IH. cbv beta in *.
      replace (y1 + 1 + Z.succ n) with ((y1 + 1 + n) + 1) by lia.
      rewrite (days_before_year_succ (y1 + 1 + n)).
      destruct (is_leap (y1 + 1 + n)); lia. }
  specialize (Hm (y2 - (y1 + 1)) ltac:(lia)).
  replace (y1 + 1 + (y2 - (y1 + 1))) with y2 in Hm by lia.
  rewrite days_before_year_succ in Hm. destruct (is_leap y1); lia.
Qed.

Ltac table_lookup :=
  repeat match goal with
         | |- context [nth ?n ?l ?d] =>
             let v := eval vm_compute in (nth n l d) in change (nth n l d) with v
         end;
  cbn - [Z.le Z.lt Z.add] in *.

Ltac month_cases m :=
  let Hm := fresh "Hm" in
  assert (Hm : m = 1 \/ m = 2 \/ m = 3 \/ m = 4 \/ m = 5 \/ m = 6 \/ m = 7 \/
               m = 8 \/ m = 9 \/ m = 10 \/ m = 11 \/ m = 12) by lia;
  repeat (destruct Hm as [Hm | Hm]; [subst m|]); [.. | subst m].

Lemma valid_datetime_bounds (d : datetime) :
  valid_datetime d = true ->
  1 <= month d <= 12 /\ 1 <= day d <= days_in_month (year d) (month d) /\
  0 <= hour d <= 23 /\ 0 <= minute d <= 59 /\ 0 <= second d <= 59.
Proof.
  unfold valid_datetime. rewrite !andb_true_iff, !Z.leb_le. lia.
Qed.

Lemma day_of_year_bounds (d : datetime) :
  valid_datetime d = true ->
  1 <= day_of_year d <= (if is_leap (year d) then 366 else 365).
Proof.
  intros H. apply valid_datetime_bounds in H.
  destruct d as [y m dd h mi s].
  unfold day_of_year, days_before_month, days_in_month in *.
  cbn [year month day hour minute second] in *.
  month_cases m; destruct (is_leap y); table_lookup; lia.
Qed.

Lemma day_of_year_mono (a b : datetime) :
  valid_datetime a = true -> valid_datetime b = true ->
  year a = year b ->
  (month a < month b \/ (month a = month b /\ day a < day b)) ->
  day_of_year a < day_of_year b.
Proof.
  intros Ha Hb. apply valid_datetime_bounds in Ha, Hb.
  destruct a as [y m dd h mi s]. destruct b as [y' m' dd' h' mi' s'].
  unfold day_of_year, days_before_month, days_in_month in *.
  cbn [year month day hour minute second] in *.
  intros <- Hlt.
  month_cases m; destruct (is_leap y);
    month_cases m'; table_lookup; lia.
Qed.

(** On valid datetimes an earlier datetime is an earlier instant. *)
Lemma datetime_lt_seconds (a b : datetime) :
  valid_datetime a = true -> valid_datetime b = true ->
  datetime_lt a b -> seconds_of a < seconds_of b.
Proof.
  intros Ha Hb Hlt.
  pose proof (day_of_year_bounds a Ha) as Da.
  pose proof (day_of_year_bounds b Hb) as Db.
  pose proof (valid_datetime_bounds a Ha) as Ba.
  pose proof (valid_datetime_bounds b Hb) as Bb.
  assert (Hord : forall d, toordinal d = days_before_year (year d) + day_of_year d)
    by (intros d; unfold toordinal, day_of_year; lia).
  unfold seconds_of. rewrite !Hord.
  destruct Hlt as [Hy | [Hy Hlt]].
  - pose proof (days_before_year_mono _ _ Hy). destruct (is_leap (year a)); lia.
  - assert (Hdoy : day_of_year a < day_of_year b \/
                   (day_of_year a = day_of_year b /\
                    (hour a < hour b \/
                     (hour a = hour b /\
                      (minute a < minute b \/
                       (minute a = minute b /\ second a < second b)))))).
    { destruct Hlt as [Hm | [Hm [Hd | [Hd Ht]]]].
      - left. apply day_of_year_mono; auto.
      - left. apply day_of_year_mono; auto.
      - right. split; [unfold day_of_year; congruence | exact Ht]. }
    rewrite Hy. lia.
Qed.

Lemma datetime_lt_trichotomy (a b : datetime) :
  datetime_lt a b \/ a = b \/ datetime_lt b a.
Proof.
  destruct a as [y m d h mi s]. destruct b as [y' m' d' h' mi' s'].
  unfold datetime_lt. cbn [year month day hour minute second].
  destruct (Z.lt_trichotomy y y') as [H | [-> | H]]; [tauto | | tauto].
  destruct (Z.lt_trichotomy m m') as [H | [-> | H]]; [tauto | | tauto].
  destruct (Z.lt_trichotomy d d') as [H | [-> | H]]; [tauto | | tauto].
  destruct (Z.lt_trichotomy h h') as [H | [-> | H]]; [tauto | | tauto].
  destruct (Z.lt_trichotomy mi mi') as [H | [-> | H]]; [tauto | | tauto].
  destruct (Z.lt_trichotomy s s') as [H | [-> | H]]; tauto.
Qed.

(** Datetime comparison is the comparison of instants: on valid datetimes
    [a < b] holds exactly when [a] precedes [b] in time. *)
Lemma datetime_lt_instants (a b : datetime) :
  valid_datetime a = true -> valid_datetime b = true ->
  (datetime_lt a b <-> seconds_of a < seconds_of b).
Proof.
  intros Ha Hb. split; [now apply datetime_lt_seconds|].
  intros Hlt. destruct (datetime_lt_trichotomy a b) as [H | [-> | H]].
  - exact H.
  - lia.
  - apply (datetime_lt_seconds b a Hb Ha) in H. lia.
Qed.

(** What the extractor returns is a valid datetime. *)
Lemma strptime14_valid (raw : string) (d : datetime) :
  strptime14 raw = Some d -> valid_datetime d = true.
Proof.
  unfold strptime14. destruct (_ && _); [|discriminate].
  match goal with |- context [valid_datetime ?x] => destruct (valid_datetime x) eqn:E end;
    [|discriminate].
  intros H. injection H as <-. exact E.
Qed.

Lemma strptime8_valid (raw : string) (d : datetime) :
  strptime8 raw = Some d -> valid_datetime d = true.
Proof.
  unfold strptime8. destruct (_ && _); [|discriminate].
  match goal with |- context [valid_datetime ?x] => destruct (valid_datetime x) eqn:E end;
    [|discriminate].
  intros H. injection H as <-. exact E.
Qed.

Lemma parse_timestamp_valid (texts : list string) (d : datetime) :
  parse_timestamp_from_texts texts = Some d -> valid_datetime d = true.
Proof.
  unfold parse_timestamp_from_texts.
  assert (H14 : forall l, loop14 l = Some d -> valid_datetime d = true).
  { induction l as [|t l IH]; simpl; [discriminate|].
    destruct (nonempty t); [|exact IH].
    destruct (TS14_search t) as [raw|]; [|exact IH].
    destruct (strptime14 raw) as [d'|] eqn:E; [|exact IH].
    intros H. injection H as ->. eapply strptime14_valid; exact E. }
  assert (H8 : forall l, loop8 l = Some d -> valid_datetime d = true).
  { induction l as [|t l IH]; simpl; [discriminate|].
    destruct (nonempty t); [|exact IH].
    destruct (TS8_search t) as [raw|]; [|exact IH].
    destruct (strptime8 raw) as [d'|] eqn:E; [|exact IH].
    intros H. injection H as ->. eapply strptime8_valid; exact E. }
  assert (H4 : forall l, loop4 l = Some d -> valid_datetime d = true).
  { induction l as [|t l IH]; simpl; [discriminate|].
    destruct (nonempty t); [|exact IH].
    destruct (Y4_search t) as [y|]; [|exact IH].
    destruct (strptime14 (y ++ "0101000000")) as [d'|] eqn:E.
    - intros H. injection H as ->. eapply strptime14_valid; exact E.
    - apply strptime8_valid. }
  destruct (loop14 texts) as [d'|] eqn:E14.
  - intros H. injection H as ->. now apply H14 in E14.
  - destruct (loop8 texts) as [d'|] eqn:E8.
    + intros H. injection H as ->. now apply H8 in E8.
    + apply H4.
Qed.

(** ** The patterns *)

Lemma in_range_digit (lo hi : ascii) :
  48 <= ord lo -> ord hi <= 57 -> digit_class (in_range lo hi).
Proof.
  intros Hlo Hhi. unfold digit_class, in_range, isdigit. intros c.
  rewrite !andb_true_iff, !Z.leb_le. lia.
Qed.

Lemma TS14_classes_digits : Forall digit_class TS14_classes.
Proof.
  repeat constructor; apply in_range_digit; vm_compute; discriminate.
Qed.

(** A run that fits the classes, followed by a non-digit, is matched. *)
Lemma match_here_fits (cls : list (ascii -> bool)) :
  forall run post,
    fits cls run = true -> starts_with_digit post = false ->
    match_here cls (run ++ post) = Some run.
Proof.
  induction cls as [|p cls IH]; intros run post Hf Hp.
  - destruct run; [|discriminate Hf]. simpl.
    destruct post as [|c r]; [reflexivity|]. simpl in Hp. now rewrite Hp.
  - destruct run as [|c r]; [discriminate Hf|]. simpl in *.
    apply andb_true_iff in Hf. destruct Hf as [Hc Hr].
    now rewrite Hc, (IH _ _ Hr Hp).
Qed.

(** A text that ends in a non-digit and has no match at its head has none
    there either when more text follows. *)
Lemma match_here_app_None (cls : list (ascii -> bool)) :
  Forall digit_class cls ->
  forall pre s before,
    pre <> EmptyString -> ends_with_digit before pre = false ->
    match_here cls pre = None -> match_here cls (pre ++ s) = None.
Proof.
  induction cls as [|p cls IH]; intros Hd pre s before Hne He Hm.
  - destruct pre as [|c r]; [congruence|]. simpl in *.
    destruct (isdigit c); [reflexivity | discriminate Hm].
  - inversion Hd as [|x l Hp Hcls]; subst.
    destruct pre as [|c r]; [congruence|]. simpl in *.
    destruct (p c) eqn:Ec; [|reflexivity].
    destruct r as [|c' r'].
    + simpl in He. rewrite (Hp _ Ec) in He. discriminate He.
    + rewrite (IH Hcls (String c' r') s (isdigit c)); [reflexivity | discriminate | exact He |].
      destruct (match_here cls (String c' r')); [discriminate Hm | reflexivity].
Qed.

(** [search] passes over a prefix without a match and finds the run that
    follows it. *)
Lemma search_from_app (cls : list (ascii -> bool)) :
  Forall digit_class cls ->
  forall pre before s m,
    search_from cls before pre = None ->
    ends_with_digit before pre = false ->
    match_here cls s = Some m ->
    search_from cls before (pre ++ s) = Some m.
Proof.
  intros Hd. induction pre as [|c r IH]; intros before s m Hs He Hm.
  - simpl in *. subst before. destruct s; simpl; now rewrite Hm.
  - simpl in Hs.
    assert (Hhead : (if before then None else match_here cls (String c r)) = None)
      by (destruct (if before then None else match_here cls (String c r));
          [discriminate Hs | reflexivity]).
    rewrite Hhead in Hs.
    change (search_from cls before (String c r ++ s))
      with (match (if before then None else match_here cls (String c (r ++ s))) with
            | Some m0 => Some m0
            | None => search_from cls (isdigit c) (r ++ s)
            end).
    assert (Hhead' : (if before then None else match_here cls (String c (r ++ s))) = None).
    { destruct before; [reflexivity|].
      apply (match_here_app_None cls Hd (String c r) s false); [discriminate | exact He | exact Hhead]. }
    rewrite Hhead'. now apply IH.
Qed.

(** A match is a run that fits the classes and is not followed by a
    digit. *)
Lemma match_here_sound (cls : list (ascii -> bool)) :
  forall s m,
    match_here cls s = Some m ->
    exists post,
      s = (m ++ post)%string /\ fits cls m = true /\ starts_with_digit post = false.
Proof.
  induction cls as [|p cls IH]; intros s m Hm; simpl in Hm.
  - destruct s as [|c r].
    + injection Hm as <-. exists EmptyString. auto.
    + destruct (isdigit c) eqn:Ec; [discriminate Hm|].
      injection Hm as <-. exists (String c r). simpl. auto.
  - destruct s as [|c r]; [discriminate Hm|].
    destruct (p c) eqn:Ec; [|discriminate Hm].
    destruct (match_here cls r) as [m'|] eqn:Er; [|discriminate Hm].
    injection Hm as <-.
    destruct (IH _ _ Er) as (post & -> & Hf & Hp).
    exists post. simpl. rewrite Ec, Hf. auto.
Qed.

(** What [search] returns is a run of the text that fits the classes and
    has no digit on either side: a run inside a longer digit sequence is
    never matched. *)
Lemma search_from_sound (cls : list (ascii -> bool)) :
  forall t before m,
    search_from cls before t = Some m ->
    exists pre post,
      t = (pre ++ m ++ post)%string /\
      fits cls m = true /\
      ends_with_digit before pre = false /\
      starts_with_digit post = false.
Proof.
  induction t as [|c r IH]; intros before m Hs; simpl in Hs.
  - destruct before; [discriminate Hs|].
    destruct (match_here cls EmptyString) as [m'|] eqn:Em; [|discriminate Hs].
    injection Hs as <-.
    destruct (match_here_sound _ _ _ Em) as (post & E & Hf & Hp).
    exists EmptyString, post. simpl. auto.
  - destruct (if before then None else match_here cls (String c r)) as [m'|] eqn:Em.
    + injection Hs as <-. destruct before; [discriminate Em|].
      destruct (match_here_sound _ _ _ Em) as (post & E & Hf & Hp).
      exists EmptyString, post. simpl. auto.
    + destruct (IH _ _ Hs) as (pre & post & -> & Hf & He & Hp).
      exists (String c pre), post. simpl. auto.
Qed.

Lemma fits_length (cls : list (ascii -> bool)) :
  forall s, fits cls s = true -> String.length s = List.length cls.
Proof.
  induction cls as [|p cls IH]; intros [|c r] H; try discriminate H.
  - reflexivity.
  - simpl in *. apply andb_true_iff in H. f_equal. now apply IH.
Qed.

Lemma fits_all_digits (cls : list (ascii -> bool)) :
  Forall digit_class cls ->
  forall s, fits cls s = true -> all_digits s = true.
Proof.
  induction cls as [|p cls IH]; intros Hd [|c r] H; try discriminate H.
  - reflexivity.
  - inversion Hd as [|x l Hp Hcls]; subst. simpl in *.
    apply andb_true_iff in H. destruct H as [Hc Hr].
    now rewrite (Hp _ Hc), (IH Hcls _ Hr).
Qed.

Lemma nonempty_app_run (pre run post : string) :
  fits TS14_classes run = true -> nonempty (pre ++ run ++ post) = true.
Proof.
  intros Hf. destruct pre; [|reflexivity].
  destruct run; [discriminate Hf | reflexivity].
Qed.

(** The example of the specification. *)
Example parse_timestamp_adni :
  parse_timestamp_from_texts ["ADNI_123_S_4567_20180315120000_I999999"]
  = Some (mkDatetime 2018 3 15 12 0 0).
Proof. reflexivity. Qed.

(** C4, as the specification states it, fails.  A 14-digit run between
    non-digits is returned only if its digits fit the timestamp pattern and
    spell an existing date and time.  The identifier [98765432101234] does
    not fit the pattern, and [20181332120000] fits it but has no month 13:
    for both fragments the extractor falls through to the 8-digit rule and
    returns the first of January 2019 at midnight. *)
Lemma ts14_run_falls_through :
  all_digits "98765432101234" = true /\
  loop14 ["I98765432101234_20190101"] = None /\
  parse_timestamp_from_texts ["I98765432101234_20190101"]
    = Some (mkDatetime 2019 1 1 0 0 0) /\
  TS14_search "scan_20181332120000_20190101" = Some "20181332120000" /\
  parse_timestamp_from_texts ["scan_20181332120000_20190101"]
    = Some (mkDatetime 2019 1 1 0 0 0) /\
  parse_timestamp_from_texts ["scan_20181332120000_20190101"]
    <> Some (datetime_of_digits "20181332120000").
Proof.
  do 5 (split; [vm_compute; reflexivity|]).
  intros H. vm_compute in H. discriminate H.
Qed.

(** When the leftmost 14-digit run of a fragment that fits the timestamp
    pattern [[12]ddd [01]d [0-3]d [0-2]d [0-5]d [0-5]d] between non-digits
    (or the ends of the string) spells an existing date and time, the
    extractor called with that fragment first returns exactly that
    date-time, whatever follows in the fragment or in the other
    fragments. *)
Theorem ts14_run_is_returned
        (pre run post : string) (rest : list string) :
  TS14_search pre = None ->
  ends_with_digit false pre = false ->
  fits TS14_classes run = true ->
  starts_with_digit post = false ->
  valid_datetime (datetime_of_digits run) = true ->
  TS14_search (pre ++ run ++ post) = Some run /\
  loop14 ((pre ++ run ++ post) :: rest) = Some (datetime_of_digits run) /\
  parse_timestamp_from_texts ((pre ++ run ++ post) :: rest)
    = Some (datetime_of_digits run).
Proof.
  intros Hpre Hend Hfit Hpost Hvalid.
  assert (Hsearch : TS14_search (pre ++ run ++ post) = Some run).
  { unfold TS14_search.
    apply (search_from_app _ TS14_classes_digits); try assumption.
    now apply match_here_fits. }
  assert (Hparse : strptime14 run = Some (datetime_of_digits run)).
  { unfold strptime14.
    rewrite (fits_length _ _ Hfit), (fits_all_digits _ TS14_classes_digits _ Hfit).
    cbn [List.length TS14_classes TS8_classes Y4_classes app Nat.eqb andb].
    fold (datetime_of_digits run). now rewrite Hvalid. }
  assert (Hloop : loop14 ((pre ++ run ++ post) :: rest) = Some (datetime_of_digits run)).
  { cbn [loop14]. now rewrite (nonempty_app_run _ _ _ Hfit), Hsearch, Hparse. }
  split; [exact Hsearch|]. split; [exact Hloop|].
  unfold parse_timestamp_from_texts. now rewrite Hloop.
Qed.

(** The theorem at the fragment of the specification's example: the run
    [20180315120000] between [ADNI_123_S_4567_] and [_I999999]. *)
Lemma ts14_run_is_returned_witness :
  parse_timestamp_from_texts
    [("ADNI_123_S_4567_" ++ "20180315120000" ++ "_I999999")%string]
  = Some (mkDatetime 2018 3 15 12 0 0).
Proof.
  exact (proj2 (proj2
    (ts14_run_is_returned "ADNI_123_S_4567_" "20180315120000" "_I999999" []
       eq_refl eq_refl eq_refl eq_refl eq_refl))).
Defined.

End TimestampFacts.

(* ================================================================== *)
(** * The subject pairing engine (prepare_csv.py) *)
(* ================================================================== *)

Module PairingFacts.
Import PyStr PyDict Row Timestamp PrepareCsv.
Local Open Scope list_scope.

(** ** The timestamps of the enriched rows *)

Lemma enrich_valid (rows : list dict) :
  Forall (fun r => valid_datetime (dt r) = true) (enrich rows).
Proof.
  induction rows as [|r rest IH]; cbn [enrich]; [constructor|].
  destruct (parse_timestamp_from_texts _) as [d|] eqn:E; [|exact IH].
  constructor; [|exact IH].
  cbn [dt]. eapply TimestampFacts.parse_timestamp_valid; exact E.
Qed.

(** On the rows of [enriched], [not_later] is the negation of the datetime
    comparison [b < a]. *)
Lemma not_later_datetime (a b : erow) :
  valid_datetime (dt a) = true -> valid_datetime (dt b) = true ->
  (not_later a b <-> ~ datetime_lt (dt b) (dt a)).
Proof.
  intros Ha Hb. unfold not_later.
  rewrite (TimestampFacts.datetime_lt_instants _ _ Hb Ha). lia.
Qed.

(** ** The sort *)

Lemma insert_by_dt_perm (x : erow) (l : list erow) :
  Permutation (insert_by_dt x l) (x :: l).
Proof.
  induction l as [|y r IH]; simpl.
  - apply Permutation_refl.
  - destruct (seconds_of (dt x) <=? seconds_of (dt y)).
    + apply Permutation_refl.
    + eapply Permutation_trans; [apply perm_skip, IH | apply perm_swap].
Qed.

Lemma sort_by_dt_perm (l : list erow) : Permutation (sort_by_dt l) l.
Proof.
  induction l as [|x r IH]; simpl.
  - apply perm_nil.
  - eapply Permutation_trans; [apply insert_by_dt_perm | now apply perm_skip].
Qed.

Lemma insert_by_dt_sorted (x : erow) (l : list erow) :
  StronglySorted not_later l -> StronglySorted not_later (insert_by_dt x l).
Proof.
  induction l as [|y r IH]; simpl; intros Hs.
  - constructor; constructor.
  - inversion Hs as [|y' r' Hr Hy]; subst.
    destruct (seconds_of (dt x) <=? seconds_of (dt y)) eqn:E.
    + apply Z.leb_le in E. constructor; [exact Hs|].
      constructor; [exact E|].
      eapply Forall_impl; [|exact Hy]. unfold not_later. intros z Hz. lia.
    + apply Z.leb_gt in E. constructor; [now apply IH|].
      eapply Permutation_Forall; [apply Permutation_sym, insert_by_dt_perm|].
      constructor; [unfold not_later; lia | exact Hy].
Qed.

Lemma sort_by_dt_sorted (l : list erow) : StronglySorted not_later (sort_by_dt l).
Proof.
  induction l as [|x r IH]; simpl.
  - constructor.
  - now apply insert_by_dt_sorted.
Qed.

Lemma last_In {A : Type} (a d : A) (t : list A) : In (last (a :: t) d) (a :: t).
Proof.
  revert a. induction t as [|b t IH]; intros a.
  - now left.
  - right. change (last (a :: b :: t) d) with (last (b :: t) d). apply IH.
Qed.

Lemma sorted_last_max (l : list erow) (d : erow) :
  StronglySorted not_later l ->
  forall r, In r l -> not_later r (last l d).
Proof.
  induction l as [|a t IH]; intros Hs r Hr.
  - destruct Hr.
  - inversion Hs as [|x l Hst Hall]; subst x l.
    destruct t as [|b t'].
    + destruct Hr as [<- | []]. unfold not_later. simpl. lia.
    + change (last (a :: b :: t') d) with (last (b :: t') d).
      destruct Hr as [<- | Hr]; [|now apply IH].
      rewrite Forall_forall in Hall. apply Hall. apply last_In.
Qed.

(** ** The loops and the pairs they accept *)

Section Loops.
Variable pairing : string.
Variable td_thresh : timedelta.
Variable same_split : bool.
Variable cap : Z.

Local Abbreviation inner := (inner_loop td_thresh same_split cap).
Local Abbreviation outer := (outer_loop td_thresh same_split cap).
Local Abbreviation ipairs := (inner_pairs td_thresh same_split cap).
Local Abbreviation opairs := (outer_pairs td_thresh same_split cap).
Local Abbreviation gpairs := (group_pairs pairing td_thresh same_split cap).
Local Abbreviation group := (process_group pairing td_thresh same_split cap).
Local Abbreviation ok := (qualifies td_thresh same_split).
Local Abbreviation reached := (cap_reached cap).

Lemma flat_map_pair_rows_length (ps : list (erow * erow)) :
  List.length (flat_map pair_rows ps) = (2 * List.length ps)%nat.
Proof. induction ps as [|p ps IH]; simpl; [reflexivity | rewrite IH; lia]. Qed.

Lemma flat_map_pair_rows_nth (ps : list (erow * erow)) :
  forall k p, nth_error ps k = Some p ->
    nth_error (flat_map pair_rows ps) (2 * k) = Some (row (fst p)) /\
    nth_error (flat_map pair_rows ps) (2 * k + 1) = Some (row (snd p)).
Proof.
  induction ps as [|q ps IH]; intros k p Hk.
  - destruct k; discriminate Hk.
  - destruct k as [|k].
    + injection Hk as ->. split; reflexivity.
    + simpl in Hk. destruct (IH k p Hk) as [H1 H2].
      replace (2 * S k)%nat with (S (S (2 * k))) by lia.
      replace (S (S (2 * k)) + 1)%nat with (S (S (2 * k + 1))) by lia.
      split; assumption.
Qed.

(** The inner loop writes the two rows of every pair it accepts. *)
Lemma inner_loop_pairs (Ai : erow) (js : list erow) :
  forall b c,
    inner Ai js (b, c) =
    (b ++ flat_map pair_rows (fst (ipairs Ai js c)), snd (ipairs Ai js c)).
Proof.
  induction js as [|Bj js IH]; intros b c; simpl.
  - now rewrite app_nil_r.
  - destruct (split_differs same_split Ai Bj); [apply IH|].
    destruct (gap_too_small td_thresh Ai Bj); [apply IH|].
    destruct (reached (c + 1)); [reflexivity|].
    rewrite IH. destruct (ipairs Ai js (c + 1)) as [ps c']. simpl.
    now rewrite <- app_assoc.
Qed.

Lemma outer_loop_pairs (lst : list erow) :
  forall b c, fst (outer lst (b, c)) = b ++ flat_map pair_rows (opairs lst c).
Proof.
  induction lst as [|Ai rest IH]; intros b c; simpl.
  - now rewrite app_nil_r.
  - rewrite inner_loop_pairs. destruct (ipairs Ai rest c) as [ps c']. simpl.
    destruct (reached c'); [reflexivity|].
    now rewrite IH, flat_map_app, app_assoc.
Qed.

Lemma process_group_pairs (b : list DatasetRow) (lst : list erow) :
  group b lst = b ++ flat_map pair_rows (gpairs lst).
Proof.
  unfold process_group, group_pairs.
  destruct (List.length lst <? 2)%nat; [now rewrite app_nil_r|].
  destruct (String.eqb pairing "edge").
  - destruct (sort_by_dt lst) as [|A_ t]; [now rewrite app_nil_r|].
    destruct (split_differs same_split A_ (last (A_ :: t) A_)); [now rewrite app_nil_r|].
    destruct (gap_too_small td_thresh A_ (last (A_ :: t) A_)); [now rewrite app_nil_r|].
    reflexivity.
  - apply outer_loop_pairs.
Qed.

Lemma fold_process_group (gs : list (list erow)) :
  forall b, fold_left group gs b = b ++ flat_map pair_rows (flat_map gpairs gs).
Proof.
  induction gs as [|g gs IH]; intros b; simpl.
  - now rewrite app_nil_r.
  - now rewrite IH, process_group_pairs, flat_map_app, app_assoc.
Qed.

(** Every pair of the inner loop is anchored at [Ai], takes its later row
    from the rows after it and passes the two tests. *)
Lemma inner_pairs_In (Ai : erow) (js : list erow) :
  forall c p, In p (fst (ipairs Ai js c)) ->
    fst p = Ai /\ In (snd p) js /\ ok (fst p) (snd p) = true.
Proof.
  induction js as [|Bj js IH]; intros c p; simpl.
  - intros [].
  - unfold qualifies in *.
    destruct (split_differs same_split Ai Bj) eqn:E1.
    { intros H. destruct (IH _ _ H) as (H1 & H2 & H3). auto. }
    destruct (gap_too_small td_thresh Ai Bj) eqn:E2.
    { intros H. destruct (IH _ _ H) as (H1 & H2 & H3). auto. }
    assert (Hhere : forall q, q = (Ai, Bj) ->
              fst q = Ai /\ (Bj = snd q \/ In (snd q) js) /\
              negb (split_differs same_split (fst q) (snd q)) &&
              negb (gap_too_small td_thresh (fst q) (snd q)) = true).
    { intros q ->. simpl. rewrite E1, E2. auto. }
    destruct (reached (c + 1)).
    + simpl. intros [<- | []]. now apply Hhere.
    + destruct (ipairs Ai js (c + 1)) as [ps c'] eqn:E. simpl.
      intros [<- | H]; [now apply Hhere|].
      specialize (IH (c + 1) p). rewrite E in IH.
      destruct (IH H) as (H1 & H2 & H3). auto.
Qed.

Lemma outer_pairs_In (lst : list erow) :
  StronglySorted not_later lst ->
  forall c p, In p (opairs lst c) ->
    In (fst p) lst /\ In (snd p) lst /\ not_later (fst p) (snd p) /\
    ok (fst p) (snd p) = true.
Proof.
  induction lst as [|Ai rest IH]; intros Hs c p; simpl.
  - intros [].
  - inversion Hs as [|x l Hrest Hall]; subst.
    destruct (ipairs Ai rest c) as [ps c'] eqn:E.
    assert (Hps : In p ps ->
              (Ai = fst p \/ In (fst p) rest) /\ (Ai = snd p \/ In (snd p) rest) /\
              not_later (fst p) (snd p) /\ ok (fst p) (snd p) = true).
    { intros H. pose proof (inner_pairs_In Ai rest c p) as Hi.
      rewrite E in Hi. destruct (Hi H) as (H1 & H2 & H3).
      repeat split; auto.
      rewrite H1. rewrite Forall_forall in Hall. now apply Hall. }
    destruct (reached c'); [exact Hps|].
    intros H. apply in_app_or in H. destruct H as [H | H]; [now apply Hps|].
    destruct (IH Hrest c' p H) as (H1 & H2 & H3 & H4). auto.
Qed.

(** Every accepted pair of a group: two rows of the group, the first not
    later than the second, passing the two tests. *)
Lemma group_pairs_In (lst : list erow) (p : erow * erow) :
  In p (gpairs lst) ->
  In (fst p) lst /\ In (snd p) lst /\ not_later (fst p) (snd p) /\
  ok (fst p) (snd p) = true.
Proof.
  unfold group_pairs.
  destruct (List.length lst <? 2)%nat; [intros []|].
  pose proof (sort_by_dt_sorted lst) as Hs.
  pose proof (sort_by_dt_perm lst) as Hp.
  assert (Hin : forall x, In x (sort_by_dt lst) -> In x lst)
    by (intros x; apply Permutation_in; exact Hp).
  destruct (String.eqb pairing "edge").
  - destruct (sort_by_dt lst) as [|A_ t] eqn:E; [intros []|].
    cbv beta iota zeta.
    destruct (split_differs same_split A_ (last (A_ :: t) A_)) eqn:E1; [intros []|].
    destruct (gap_too_small td_thresh A_ (last (A_ :: t) A_)) eqn:E2; [intros []|].
    intros [<- | []]. cbn [fst snd].
    pose proof (last_In A_ A_ t) as Hl.
    split; [apply Hin; now left|].
    split; [apply Hin; exact Hl|].
    split.
    + inversion Hs as [|x l _ Hall]; subst.
      destruct Hl as [E' | Hl]; [rewrite <- E'; unfold not_later; lia|].
      rewrite Forall_forall in Hall. now apply Hall.
    + unfold qualifies. now rewrite E1, E2.
  - intros H. destruct (outer_pairs_In _ Hs 0 p H) as (H1 & H2 & H3 & H4). auto.
Qed.

End Loops.

(** ** The cap of pairing mode "all" *)

Section Cap.
Variable td_thresh : timedelta.
Variable same_split : bool.
Variable cap : Z.

Local Abbreviation ipairs := (inner_pairs td_thresh same_split cap).
Local Abbreviation opairs := (outer_pairs td_thresh same_split cap).
Local Abbreviation ok := (qualifies td_thresh same_split).
Local Abbreviation reached := (cap_reached cap).
Local Abbreviation qpairs := (qualifying_pairs td_thresh same_split).
Local Abbreviation take := (capped cap).

Lemma cap_reached_false (c : Z) : reached c = false <-> (cap <= 0 \/ c < cap).
Proof.
  unfold cap_reached. rewrite andb_false_iff, Z.ltb_ge, Z.leb_gt. tauto.
Qed.

Lemma cap_reached_true (c : Z) : reached c = true <-> (0 < cap /\ cap <= c).
Proof.
  unfold cap_reached. rewrite andb_true_iff, Z.ltb_lt, Z.leb_le. tauto.
Qed.

Lemma capped_nil {A : Type} (c : Z) : take c (@nil A) = [].
Proof. unfold capped. destruct (0 <? cap); [apply firstn_nil | reflexivity]. Qed.

(** Counting one more pair before the cap is reached. *)
Lemma capped_cons {A : Type} (c : Z) (x : A) (l : list A) :
  reached c = false ->
  take c (x :: l) = x :: (if reached (c + 1) then [] else take (c + 1) l).
Proof.
  intros Hc. apply cap_reached_false in Hc. unfold capped.
  destruct (reached (c + 1)) eqn:E.
  - apply cap_reached_true in E.
    replace (0 <? cap) with true by (symmetry; apply Z.ltb_lt; lia).
    replace (Z.to_nat (cap - c)) with 1%nat by lia. reflexivity.
  - apply cap_reached_false in E.
    destruct (0 <? cap) eqn:E0; [|reflexivity].
    apply Z.ltb_lt in E0.
    replace (Z.to_nat (cap - c)) with (S (Z.to_nat (cap - (c + 1)))) by lia.
    reflexivity.
Qed.

Lemma capped_app {A : Type} (c : Z) (l1 l2 : list A) :
  reached c = false ->
  take c (l1 ++ l2) =
  take c l1 ++
  (if reached (c + Z.of_nat (List.length (take c l1))) then []
   else take (c + Z.of_nat (List.length (take c l1))) l2).
Proof.
  intros Hc. apply cap_reached_false in Hc. unfold capped.
  destruct (0 <? cap) eqn:E0.
  - apply Z.ltb_lt in E0. rewrite firstn_app, length_firstn.
    destruct (reached _) eqn:E.
    + apply cap_reached_true in E.
      replace (Z.to_nat (cap - c) - List.length l1)%nat with O by lia.
      now rewrite firstn_O.
    + apply cap_reached_false in E.
      do 2 f_equal. lia.
  - apply Z.ltb_ge in E0.
    replace (reached _) with false; [reflexivity|].
    symmetry. apply cap_reached_false. lia.
Qed.

Lemma inner_pairs_take (Ai : erow) (js : list erow) :
  forall c, reached c = false ->
    ipairs Ai js c =
    (take c (map (fun Bj => (Ai, Bj)) (filter (ok Ai) js)),
     c + Z.of_nat (List.length
                     (take c (map (fun Bj => (Ai, Bj)) (filter (ok Ai) js))))).
Proof.
  induction js as [|Bj js IH]; intros c Hc; cbn [inner_pairs filter map].
  - rewrite capped_nil. simpl. f_equal. lia.
  - assert (Eok : ok Ai Bj =
                  negb (split_differs same_split Ai Bj) &&
                  negb (gap_too_small td_thresh Ai Bj)) by reflexivity.
    rewrite Eok.
    destruct (split_differs same_split Ai Bj); [now apply IH|].
    destruct (gap_too_small td_thresh Ai Bj); [now apply IH|].
    cbn [negb andb map].
    rewrite (capped_cons _ _ _ Hc).
    destruct (reached (c + 1)) eqn:E.
    + reflexivity.
    + rewrite (IH _ E). cbn [List.length]. f_equal. lia.
Qed.

(** With the cap, the loops accept the first [max_pairs_per_subject]
    qualifying pairs of the group and nothing after them; without it, all
    of them. *)
Lemma outer_pairs_take (lst : list erow) :
  forall c, reached c = false -> opairs lst c = take c (qpairs lst).
Proof.
  induction lst as [|Ai rest IH]; intros c Hc; cbn [outer_pairs qualifying_pairs].
  - now rewrite capped_nil.
  - rewrite (inner_pairs_take Ai rest c Hc), (capped_app _ _ _ Hc).
    cbv beta iota zeta.
    match goal with |- context [cap_reached cap ?x] => destruct (reached x) eqn:E end.
    + now rewrite app_nil_r.
    + now rewrite (IH _ E).
Qed.

End Cap.

(** ** The subject groups *)

Section Groups.
Context {A : Type}.

Lemma setdefault_append_keys (gs : list (string * list A)) (k : string) (v : A) :
  forall k', In k' (map fst (setdefault_append gs k v)) <->
             (In k' (map fst gs) \/ k' = k).
Proof.
  induction gs as [|[k0 l0] gs IH]; intros k'; simpl.
  - intuition congruence.
  - destruct (String.eqb_spec k0 k) as [-> | Hne]; simpl.
    + intuition congruence.
    + rewrite IH. tauto.
Qed.

Lemma setdefault_append_NoDup (gs : list (string * list A)) (k : string) (v : A) :
  NoDup (map fst gs) -> NoDup (map fst (setdefault_append gs k v)).
Proof.
  induction gs as [|[k0 l0] gs IH]; simpl; intros Hn.
  - constructor; [intros [] | constructor].
  - inversion Hn as [|x l Hx Hl]; subst.
    destruct (String.eqb_spec k0 k) as [-> | Hne]; simpl.
    + constructor; assumption.
    + constructor; [|now apply IH].
      rewrite setdefault_append_keys. intros [H | H]; [contradiction | congruence].
Qed.

Lemma filter_none (f : A -> bool) (l : list A) :
  (forall x, In x l -> f x = false) -> filter f l = [].
Proof.
  induction l as [|x l IH]; simpl; intros H.
  - reflexivity.
  - rewrite (H x (or_introl eq_refl)). apply IH. intros y Hy. apply H. now right.
Qed.

(** An entry after [setdefault(key, []).append(v)]: an old entry of another
    key, the old entry of [key] with [v] appended, or the new entry [[v]]. *)
Lemma setdefault_append_In (gs : list (string * list A)) (k : string) (v : A) :
  NoDup (map fst gs) ->
  forall k' l',
    In (k', l') (setdefault_append gs k v) ->
    (k' <> k /\ In (k', l') gs) \/
    (k' = k /\ exists l, In (k, l) gs /\ l' = l ++ [v]) \/
    (k' = k /\ ~ In k (map fst gs) /\ l' = [v]).
Proof.
  induction gs as [|[k0 l0] gs IH]; intros Hn k' l'; simpl.
  - intros [H | []]. injection H as <- <-. right; right. auto.
  - inversion Hn as [|x l Hx Hl]; subst.
    destruct (String.eqb_spec k0 k) as [-> | Hne]; simpl.
    + intros [H | H].
      * injection H as <- <-. right; left. split; [reflexivity|]. exists l0. auto.
      * left. split; [|auto]. intros ->. apply Hx.
        apply (in_map fst) in H. exact H.
    + intros [H | H].
      * injection H as <- <-. left. auto.
      * destruct (IH Hl _ _ H) as [[H1 H2] | [(H1 & l & H2 & H3) | (H1 & H2 & H3)]].
        -- left. auto.
        -- right; left. split; [exact H1|]. exists l. auto.
        -- right; right. split; [exact H1|]. split; [|exact H3].
           intros [H4 | H4]; [congruence | contradiction].
Qed.

End Groups.

Section GroupRows.
Variable subject_group : string.
Variable subject_regex : option (string -> option string).

Local Abbreviation key r :=
  (subject_group_key (subject_id (row r)) subject_group
                     (regex_pat subject_group subject_regex)).
Local Abbreviation groups := (group_rows subject_group subject_regex).

Lemma group_rows_snoc (enriched : list erow) (r : erow) :
  groups (enriched ++ [r]) = setdefault_append (groups enriched) (key r) r.
Proof. unfold group_rows. now rewrite fold_left_app. Qed.

(** The groups of [build_B]: one per grouping key, each holding exactly the
    timestamped rows of that key, in their order in the input. *)
Lemma group_rows_spec (enriched : list erow) :
  NoDup (map fst (groups enriched)) /\
  (forall r, In r enriched -> In (key r) (map fst (groups enriched))) /\
  (forall k l, In (k, l) (groups enriched) ->
               l <> [] /\ l = filter (fun r => String.eqb (key r) k) enriched).
Proof.
  induction enriched as [|r e IH] using rev_ind.
  - split; [constructor|]. split; [intros r []|]. intros k l [].
  - destruct IH as (Hn & Hcov & Hgrp). rewrite group_rows_snoc.
    split; [now apply setdefault_append_NoDup|].
    split.
    + intros r0 Hr0. rewrite setdefault_append_keys.
      apply in_app_or in Hr0. destruct Hr0 as [H | [<- | []]]; auto.
    + intros k l Hl. rewrite filter_app. cbn [filter].
      destruct (setdefault_append_In _ _ _ Hn _ _ Hl)
        as [[H1 H2] | [(-> & l0 & H2 & ->) | (-> & H2 & ->)]].
      * destruct (Hgrp _ _ H2) as [Hne ->].
        destruct (String.eqb_spec (key r) k) as [E | _]; [congruence|].
        now rewrite app_nil_r.
      * destruct (Hgrp _ _ H2) as [Hne ->].
        rewrite String.eqb_refl.
        split; [|reflexivity]. intros H. apply app_eq_nil in H. destruct H; discriminate.
      * rewrite String.eqb_refl. split; [discriminate|].
        replace (filter (fun r0 => String.eqb (key r0) (key r)) e) with (@nil erow);
          [reflexivity|].
        symmetry. apply filter_none.
        intros r0 Hr0. destruct (String.eqb_spec (key r0) (key r)) as [E | _]; [|reflexivity].
        exfalso. apply H2. rewrite <- E. now apply Hcov.
Qed.

End GroupRows.

(** ** The rows written to B.csv *)

Section BuildB.
Context {F : PyFloat}.
Variable pairing : string.
Variable min_days : Z.
Variable min_years : float.
Variable same_split : bool.
Variable cap : Z.
Variable subject_group : string.
Variable subject_regex : option (string -> option string).

Local Abbreviation td_thresh := (td_thresh min_days min_years).
Local Abbreviation B :=
  (build_B pairing min_days min_years same_split cap subject_group subject_regex).
Local Abbreviation accepted :=
  (accepted_pairs pairing min_days min_years same_split cap subject_group subject_regex).
Local Abbreviation groups_of rows :=
  (map snd (group_rows subject_group subject_regex (enrich rows))).

Lemma build_B_pairs (rows : list dict) :
  B rows = flat_map pair_rows (accepted rows).
Proof. unfold build_B, accepted_pairs. now rewrite fold_process_group. Qed.

Lemma build_B_by_group (rows : list dict) :
  B rows =
  flat_map (process_group pairing td_thresh same_split cap []) (groups_of rows).
Proof.
  rewrite build_B_pairs. unfold accepted_pairs.
  induction (groups_of rows) as [|g gs IH]; simpl.
  - reflexivity.
  - now rewrite flat_map_app, IH, process_group_pairs.
Qed.

Lemma accepted_pairs_In (rows : list dict) (p : erow * erow) :
  In p (accepted rows) ->
  exists lst, In lst (groups_of rows) /\ In (fst p) lst /\ In (snd p) lst /\
              not_later (fst p) (snd p) /\
              qualifies td_thresh same_split (fst p) (snd p) = true.
Proof.
  unfold accepted_pairs. rewrite in_flat_map. intros (lst & Hl & Hp).
  exists lst. split; [exact Hl|]. eapply group_pairs_In; exact Hp.
Qed.

(** C7: the rows of B.csv are the accepted pairs written out, two rows per
    pair: their number is twice the number of accepted pairs, hence even,
    and the pair number [k] occupies the rows [2k] and [2k+1], the earlier
    row first (its timestamp is not later than the second row's), both rows
    being timestamped rows of one subject group. *)
Theorem build_B_two_rows_per_pair (rows : list dict) :
  B rows = flat_map pair_rows (accepted rows) /\
  List.length (B rows) = (2 * List.length (accepted rows))%nat /\
  Nat.Even (List.length (B rows)) /\
  forall k a b,
    nth_error (accepted rows) k = Some (a, b) ->
    nth_error (B rows) (2 * k) = Some (row a) /\
    nth_error (B rows) (2 * k + 1) = Some (row b) /\
    not_later a b /\
    exists lst, In lst (groups_of rows) /\ In a lst /\ In b lst.
Proof.
  pose proof (build_B_pairs rows) as E.
  split; [exact E|].
  split; [rewrite E; apply flat_map_pair_rows_length|].
  split; [exists (List.length (accepted rows)); rewrite E; apply flat_map_pair_rows_length|].
  intros k a b Hk. rewrite E.
  destruct (flat_map_pair_rows_nth _ _ _ Hk) as [H1 H2].
  split; [exact H1|]. split; [exact H2|].
  destruct (accepted_pairs_In rows (a, b) (nth_error_In _ _ Hk))
    as (lst & Hl & Ha & Hb & Hab & _).
  split; [exact Hab|]. exists lst. auto.
Qed.

End BuildB.

(** ** Pairing mode "edge" *)

Section Edge.
Context {F : PyFloat}.
Variable min_days : Z.
Variable min_years : float.
Variable same_split : bool.
Variable cap : Z.
Variable subject_group : string.
Variable subject_regex : option (string -> option string).

Local Abbreviation td_thresh := (td_thresh min_days min_years).
Local Abbreviation edge_group := (process_group "edge" td_thresh same_split cap []).

(** The test of lines 158-161 on the two ends of a group. *)
Local Abbreviation edge_ok A B :=
  ((same_split = true -> split (row A) = split (row B)) /\
   td_thresh <= dt_sub (dt B) (dt A)).

Lemma edge_tests (A B : erow) :
  (split_differs same_split A B = false /\ gap_too_small td_thresh A B = false)
  <-> edge_ok A B.
Proof.
  unfold split_differs, gap_too_small.
  rewrite andb_false_iff, negb_false_iff, String.eqb_eq, Z.ltb_ge.
  destruct same_split; split.
  - intros [[H | H] Hg]; [discriminate H | auto].
  - intros [Hs Hg]. auto.
  - intros [_ Hg]. split; [intros H; discriminate H | exact Hg].
  - intros [_ Hg]. auto.
Qed.

(** In pairing mode "edge" the rows of B.csv are, group after group,
    what each subject group emits, a subject group being the timestamped
    rows of one grouping key, in input order; a group of fewer than two
    rows emits nothing, and a group of two or more has an earliest row [A]
    and a latest row [B] (no row of the group is earlier than [A] or later
    than [B]) and emits exactly the pair [A], [B] if and only if the split
    test (when [same_split] is set, the two splits are equal) and the gap
    test (the gap is at least [td_thresh], the timedelta of
    [min_days + min_years * 365.2425] days, line 138) both pass, and
    nothing otherwise. *)
Theorem edge_mode_one_pair_per_group (rows : list dict) :
  build_B "edge" min_days min_years same_split cap subject_group subject_regex rows =
  flat_map edge_group
    (map snd (group_rows subject_group subject_regex (enrich rows))) /\
  (forall k lst,
      In (k, lst) (group_rows subject_group subject_regex (enrich rows)) ->
      lst <> [] /\
      lst = filter
              (fun r =>
                 String.eqb
                   (subject_group_key (subject_id (row r)) subject_group
                                      (regex_pat subject_group subject_regex)) k)
              (enrich rows)) /\
  forall lst : list erow,
    ((List.length lst < 2)%nat /\ edge_group lst = []) \/
    ((2 <= List.length lst)%nat /\
     exists A B,
       In A lst /\ In B lst /\
       (forall r, In r lst -> not_later A r /\ not_later r B) /\
       ((edge_ok A B /\ edge_group lst = [row A; row B]) \/
        (~ edge_ok A B /\ edge_group lst = []))).
Proof.
  split; [apply build_B_by_group|].
  split; [apply group_rows_spec|].
  intros lst. unfold process_group.
  destruct (List.length lst <? 2)%nat eqn:El.
  - left. apply Nat.ltb_lt in El. auto.
  - right. apply Nat.ltb_ge in El. split; [exact El|].
    cbn [String.eqb Ascii.eqb Bool.eqb andb].
    pose proof (sort_by_dt_sorted lst) as Hs.
    pose proof (sort_by_dt_perm lst) as Hp.
    destruct (sort_by_dt lst) as [|A_ t] eqn:E.
    + apply Permutation_length in Hp. simpl in Hp. lia.
    + cbv beta iota zeta.
      pose proof (last_In A_ A_ t) as Hl.
      set (B_ := last (A_ :: t) A_) in *.
      exists A_, B_.
      split; [eapply Permutation_in; [exact Hp | now left]|].
      split; [eapply Permutation_in; [exact Hp | exact Hl]|].
      split.
      * intros r Hr.
        apply (Permutation_in _ (Permutation_sym Hp)) in Hr.
        inversion Hs as [|x l Hsl Hall]; subst x l.
        rewrite Forall_forall in Hall.
        split.
        -- destruct Hr as [<- | Hr]; [unfold not_later; lia | now apply Hall].
        -- subst B_. apply sorted_last_max; assumption.
      * destruct (split_differs same_split A_ B_) eqn:E1.
        { right. split; [|reflexivity]. intros H. apply edge_tests in H.
          destruct H as [H _]. congruence. }
        destruct (gap_too_small td_thresh A_ B_) eqn:E2.
        { right. split; [|reflexivity]. intros H. apply edge_tests in H.
          destruct H as [_ H]. congruence. }
        left. split; [|reflexivity]. apply edge_tests. auto.
Qed.

End Edge.

(** ** Pairing mode "all" and its cap *)

(** C3, as the specification states it, fails.  Three yearly visits of one
    subject, cap 1, no other constraint: the code writes the single pair
    (2018, 2019) and leaves the group; continuing with the next earlier row
    would also write the pair (2019, 2020). *)
Lemma cap_reached_ends_group_scan :
  build_B (F := Examples.exact_float) "all" 0 0%Q false 1 "exact" None Examples.three_visits =
    [project Examples.visit_2018; project Examples.visit_2019] /\
  fst (spec_outer_loop 0 false 1 (sort_by_dt (enrich Examples.three_visits)) ([], 0)) =
    [project Examples.visit_2018; project Examples.visit_2019;
     project Examples.visit_2019; project Examples.visit_2020] /\
  build_B (F := Examples.exact_float) "all" 0 0%Q false 1 "exact" None Examples.three_visits <>
  fst (spec_outer_loop 0 false 1 (sort_by_dt (enrich Examples.three_visits)) ([], 0)).
Proof.
  assert (E1 : build_B (F := Examples.exact_float) "all" 0 0%Q false 1 "exact" None Examples.three_visits =
               [project Examples.visit_2018; project Examples.visit_2019])
    by (vm_compute; reflexivity).
  assert (E2 : fst (spec_outer_loop 0 false 1
                      (sort_by_dt (enrich Examples.three_visits)) ([], 0)) =
               [project Examples.visit_2018; project Examples.visit_2019;
                project Examples.visit_2019; project Examples.visit_2020])
    by (vm_compute; reflexivity).
  split; [exact E1|]. split; [exact E2|].
  rewrite E1, E2. intros H. discriminate H.
Qed.

(** C3, amended: in pairing mode "all" a group of two or more rows emits,
    from its sorted rows, the qualifying pairs in the order of the loops
    ([i], then [j]); with a positive cap it emits the first
    [max_pairs_per_subject] of them and then leaves the group (no later [j]
    and no later [i] is visited), and without a cap all of them. *)
Theorem all_mode_cap_ends_group
        (td_thresh : timedelta) (same_split : bool) (cap : Z)
        (b_rows : list DatasetRow) (lst : list erow) :
  process_group "all" td_thresh same_split cap b_rows lst =
  if (List.length lst <? 2)%nat then b_rows
  else
    b_rows ++
    flat_map pair_rows
      (if 0 <? cap
       then firstn (Z.to_nat cap)
                   (qualifying_pairs td_thresh same_split (sort_by_dt lst))
       else qualifying_pairs td_thresh same_split (sort_by_dt lst)).
Proof.
  unfold process_group.
  destruct (List.length lst <? 2)%nat; [reflexivity|].
  cbn [String.eqb Ascii.eqb Bool.eqb andb].
  rewrite outer_loop_pairs, outer_pairs_take.
  - unfold capped. now rewrite Z.sub_0_r.
  - apply cap_reached_false. lia.
Qed.

End PairingFacts.

(* ================================================================== *)
(** * The dataset row builders *)
(* ================================================================== *)

Module RowBuilderFacts.
Import PyStr PyDict PyPath Row ConvertToDataset.
Local Open Scope list_scope.

Section DefaultBuilder.
Variable exists_ : Path -> bool.
Variable resolve : Path -> Path.
Variable subj2warped : list (string * list Path).
Variable meta : list (string * Meta).

Local Abbreviation matched_of := (matched_path subj2warped).
Local Abbreviation step := (process_row exists_ resolve subj2warped meta).
Local Abbreviation row_of := (build_row exists_ resolve meta).

(** The rows one source row contributes to the output. *)
Local Abbreviation emitted r :=
  (match matched_of r with
   | Some warped => [row_of r warped]
   | None => []
   end).

Local Abbreviation is_unmatched r :=
  (match matched_of r with Some _ => false | None => true end).

Lemma main_loop_from (rows_in : list dict) :
  forall st,
    let st' := fold_left step rows_in st in
    out_rows st' = out_rows st ++ flat_map (fun r => emitted r) rows_in /\
    skipped st' =
      skipped st + Z.of_nat (List.length (filter (fun r => is_unmatched r) rows_in)) /\
    matched st' =
      matched st + Z.of_nat (List.length (flat_map (fun r => emitted r) rows_in)).
Proof.
  induction rows_in as [|r rest IH]; intros st; cbn [fold_left flat_map filter].
  - cbn zeta. split; [now rewrite app_nil_r | split; simpl; lia].
  - specialize (IH (step st r)). cbn zeta in IH. destruct IH as (Ho & Hs & Hm).
    cbn zeta. rewrite Ho, Hs, Hm. unfold process_row.
    destruct (matched_of r) as [w|]; cbn [out_rows skipped matched].
    + rewrite length_app. cbn [List.length app].
      split; [now rewrite <- app_assoc | split; lia].
    + cbn [List.length app]. split; [reflexivity | split; lia].
Qed.

(** The default builder: the output holds the rows built for the matched
    source rows, in order, and nothing for an unmatched one; the unmatched
    rows are counted in [skipped], the others in [matched]. *)
Lemma main_loop_counts (rows_in : list dict) :
  let st := main_loop exists_ resolve subj2warped meta rows_in in
  out_rows st = flat_map (fun r => emitted r) rows_in /\
  skipped st = Z.of_nat (List.length (filter (fun r => is_unmatched r) rows_in)) /\
  matched st = Z.of_nat (List.length (out_rows st)) /\
  skipped st + matched st = Z.of_nat (List.length rows_in).
Proof.
  cbn zeta. unfold main_loop.
  pose proof (main_loop_from rows_in (mkState [] 0 0)) as H.
  cbn zeta in H. cbn [out_rows skipped matched app] in H.
  destruct H as (Ho & Hs & Hm). rewrite Ho, Hs, Hm.
  split; [reflexivity|]. split; [reflexivity|]. split; [reflexivity|].
  clear. induction rows_in as [|r rest IH]; cbn [filter flat_map List.length].
  - reflexivity.
  - rewrite length_app. destruct (matched_of r); cbn [List.length]; lia.
Qed.

End DefaultBuilder.

Section ManifestMerge.
Import PrepareCsvBuild.
Variable cols : Columns.
Variable find_adni : dict -> option dict.
Variable path_map : list (string * dict).
Variable format_age : string -> string.

Local Abbreviation merge_one := (merge_row cols find_adni path_map format_age).

Lemma nonempty_false (s : string) : nonempty s = false <-> s = EmptyString.
Proof. destruct s; simpl; split; intros H; congruence. Qed.

(** The merge keeps the rows of [merge_row], in order. *)
Lemma merge_flat_map (manifest_rows : list dict) :
  merge cols find_adni path_map format_age manifest_rows =
  flat_map (fun mr => match merge_one mr with Some r => [r] | None => [] end)
           manifest_rows.
Proof.
  induction manifest_rows as [|mr rest IH]; simpl.
  - reflexivity.
  - rewrite IH. now destruct (merge_one mr).
Qed.

(** A manifest row is left out exactly when its subject id and its image
    id are both empty. *)
Lemma merge_row_None (mr : dict) :
  merge_one mr = None <->
  (subj_of cols find_adni mr = EmptyString /\ uid_of cols find_adni mr = EmptyString).
Proof.
  unfold merge_row. rewrite <- !nonempty_false.
  destruct (nonempty (subj_of cols find_adni mr));
    destruct (nonempty (uid_of cols find_adni mr)); simpl;
    split; intros H; try discriminate H; try (destruct H; discriminate); auto.
Qed.

(** A manifest row that is kept carries its two ids; without an indexed
    image its path fields are empty. *)
Lemma merge_row_Some (mr : dict) (r : DatasetRow) :
  merge_one mr = Some r ->
  subject_id r = subj_of cols find_adni mr /\
  image_uid r = uid_of cols find_adni mr /\
  latent_path r = EmptyString /\
  (lookup path_map (uid_of cols find_adni mr) = None ->
   image_path r = EmptyString /\ segm_path r = EmptyString).
Proof.
  unfold merge_row.
  destruct (negb (nonempty (subj_of cols find_adni mr)) &&
            negb (nonempty (uid_of cols find_adni mr))); [discriminate|].
  intros H. injection H as <-. cbn [subject_id image_uid latent_path image_path segm_path].
  do 3 (split; [reflexivity|]). intros ->. split; reflexivity.
Qed.

End ManifestMerge.

(** C6, as the specification states it, fails for the default builder.  A
    source row that names neither of the two indexed subjects falls back to
    the whole pool, where nothing scores: it is counted as skipped and no
    row is written for it, with or without path fields. *)
Lemma unmatched_row_is_not_emitted :
  matched_path Examples.index_two_subjects Examples.source_row_unknown = None /\
  out_rows (main_loop Examples.no_file Examples.resolved
                      Examples.index_two_subjects []
                      [Examples.source_row_unknown]) = [] /\
  skipped (main_loop Examples.no_file Examples.resolved
                     Examples.index_two_subjects []
                     [Examples.source_row_unknown]) = 1 /\
  ~ (exists r,
        In r (out_rows (main_loop Examples.no_file Examples.resolved
                                  Examples.index_two_subjects []
                                  [Examples.source_row_unknown])) /\
        image_path r = EmptyString).
Proof.
  assert (E : out_rows (main_loop Examples.no_file Examples.resolved
                          Examples.index_two_subjects []
                          [Examples.source_row_unknown]) = [])
    by (vm_compute; reflexivity).
  split; [vm_compute; reflexivity|].
  split; [exact E|].
  split; [vm_compute; reflexivity|].
  rewrite E. intros (r & [] & _).
Qed.

(** C6, amended.  Default builder ([convert_to_dataset_csv.py]): a source
    row with no matched image path is counted in [skipped], which the
    script reports, and is not emitted; the output holds exactly the rows
    built for the matched source rows, in order, and [skipped] and
    [matched] add up to the number of source rows.  Manifest-merge variant
    ([build_dataset]): a row is left out if and only if its subject id and
    its image id (less a leading "I" or "i") are both empty; a row that is
    kept is emitted even without an indexed image, its path fields empty. *)
Theorem unmatched_rows_counted_and_merge_exclusion
        (exists_ : Path -> bool) (resolve : Path -> Path)
        (subj2warped : list (string * list Path)) (meta : list (string * Meta))
        (cols : PrepareCsvBuild.Columns) (find_adni : dict -> option dict)
        (path_map : list (string * dict)) (format_age : string -> string)
        (rows_in manifest_rows : list dict) :
  (out_rows (main_loop exists_ resolve subj2warped meta rows_in) =
     flat_map (fun r => match matched_path subj2warped r with
                        | Some warped => [build_row exists_ resolve meta r warped]
                        | None => []
                        end) rows_in /\
   skipped (main_loop exists_ resolve subj2warped meta rows_in) =
     Z.of_nat (List.length
                 (filter (fun r => match matched_path subj2warped r with
                                   | Some _ => false
                                   | None => true
                                   end) rows_in)) /\
   matched (main_loop exists_ resolve subj2warped meta rows_in) =
     Z.of_nat (List.length (out_rows (main_loop exists_ resolve subj2warped meta rows_in))) /\
   skipped (main_loop exists_ resolve subj2warped meta rows_in) +
   matched (main_loop exists_ resolve subj2warped meta rows_in) =
     Z.of_nat (List.length rows_in)) /\
  (PrepareCsvBuild.merge cols find_adni path_map format_age manifest_rows =
     flat_map (fun mr =>
                 match PrepareCsvBuild.merge_row cols find_adni path_map format_age mr with
                 | Some r => [r]
                 | None => []
                 end) manifest_rows /\
   forall mr,
     (PrepareCsvBuild.merge_row cols find_adni path_map format_age mr = None <->
      (PrepareCsvBuild.subj_of cols find_adni mr = EmptyString /\
       PrepareCsvBuild.uid_of cols find_adni mr = EmptyString)) /\
     (forall r,
         PrepareCsvBuild.merge_row cols find_adni path_map format_age mr = Some r ->
         subject_id r = PrepareCsvBuild.subj_of cols find_adni mr /\
         image_uid r = PrepareCsvBuild.uid_of cols find_adni mr /\
         latent_path r = EmptyString /\
         (lookup path_map (PrepareCsvBuild.uid_of cols find_adni mr) = None ->
          image_path r = EmptyString /\ segm_path r = EmptyString))).
Proof.
  split.
  - exact (main_loop_counts exists_ resolve subj2warped meta rows_in).
  - split; [apply merge_flat_map|].
    intros mr. split; [apply merge_row_None | apply merge_row_Some].
Qed.

(** ** The latent path *)

Example latent_of_nii_gz :
  latent_of "/pre/S1/turboprep_Warped.nii.gz" = "/pre/S1/turboprep_Warped_latent.npz"
  /\ latent_of "/pre/S1/turboprep_Warped.nii" = "/pre/S1/turboprep_Warped_latent.npz".
Proof. split; reflexivity. Qed.

(** C8 at a preprocessed tree whose subject directory is named [sub01.nii]:
    [str.replace] rewrites every occurrence of the suffix text, so the
    directory part of the latent path changes as well, where the
    specification replaces the suffix of the base name only. *)
Theorem latent_path_in_nii_directory :
  out_rows (main_loop Examples.no_file Examples.resolved
                      Examples.index_nii_dir [] [Examples.source_row_nii_dir])
  = [mkRow "sub01.nii" "I1" "train" "" "" "" ""
           "/pre/sub01.nii/turboprep_Warped.nii.gz" ""
           "/pre/sub01_latent.npz/turboprep_Warped_latent.npz"] /\
  replace_suffix "/pre/sub01.nii/turboprep_Warped.nii.gz"
  = "/pre/sub01.nii/turboprep_Warped_latent.npz" /\
  latent_of "/pre/sub01.nii/turboprep_Warped.nii.gz"
  <> replace_suffix "/pre/sub01.nii/turboprep_Warped.nii.gz".
Proof.
  split; [vm_compute; reflexivity|].
  split; [vm_compute; reflexivity|].
  intros H. vm_compute in H. discriminate H.
Qed.

End RowBuilderFacts.

(* ================================================================== *)
(** * Header resolution ([ColFinder], prepare_csv_build.py) *)
(* ================================================================== *)

Module ColFinderFacts.
Import PyStr PyDict PyRe PrepareCsvBuild.
Local Open Scope list_scope.

(** ** The canonical dictionary *)

Local Abbreviation step :=
  (fun (canon : list (string * string)) (h : string) =>
     if nonempty (ColFinder.canon_key h) && negb (has_key canon (ColFinder.canon_key h))
     then canon ++ [(ColFinder.canon_key h, h)] else canon).

Lemma has_key_app (d1 d2 : dict) (k : string) :
  has_key (d1 ++ d2) k = has_key d1 k || has_key d2 k.
Proof. unfold has_key. apply existsb_app. Qed.

Lemma filter_filter {A : Type} (f g : A -> bool) (l : list A) :
  filter f (filter g l) = filter (fun x => g x && f x) l.
Proof.
  induction l as [|x l IH]; simpl; [reflexivity|].
  destruct (g x); simpl; [destruct (f x)|]; now rewrite IH.
Qed.

Lemma filter_all_true {A : Type} (f : A -> bool) (l : list A) :
  (forall x, f x = true) -> filter f l = l.
Proof.
  intros Hf. induction l as [|x l IH]; simpl; [reflexivity|].
  now rewrite Hf, IH.
Qed.

(** Starting from a dictionary [canon], the loop of [__init__] adds the
    entries it would add to the empty one, less the keys [canon] has. *)
Lemma init_from (headers : list string) :
  forall canon,
    fold_left step headers canon =
    canon ++ filter (fun kv => negb (has_key canon (fst kv)))
                    (fold_left step headers []).
Proof.
  induction headers as [|h rest IH]; intros canon; cbn [fold_left].
  - now rewrite app_nil_r.
  - rewrite (IH (step canon h)), (IH (step [] h)). cbn beta.
    cbn [has_key existsb negb andb app].
    destruct (nonempty (ColFinder.canon_key h)) eqn:Ek; cbn [andb].
    + rewrite filter_app, filter_filter. cbn [filter fst].
      destruct (has_key canon (ColFinder.canon_key h)) eqn:Eh; cbn [negb app].
      * f_equal. apply filter_ext. intros [k v]. cbn [fst has_key existsb].
        rewrite orb_false_r.
        destruct (String.eqb_spec (ColFinder.canon_key h) k) as [<- | _];
          cbn [negb andb]; [now rewrite Eh | reflexivity].
      * rewrite <- app_assoc. cbn [app]. do 2 f_equal.
        apply filter_ext. intros [k v]. cbn [fst].
        rewrite has_key_app. cbn [has_key existsb fst].
        rewrite orb_false_r, negb_orb. apply andb_comm.
    + cbn [app]. rewrite filter_filter. reflexivity.
Qed.

(** [canon] header by header: a header with a non-empty canonical key
    comes first and takes its key from the headers after it; a header whose
    canonical key is empty is left out. *)
Lemma init_cons (h : string) (rest : list string) :
  ColFinder.init (h :: rest) =
  if nonempty (ColFinder.canon_key h)
  then (ColFinder.canon_key h, h)
         :: filter (fun kv => negb (String.eqb (ColFinder.canon_key h) (fst kv)))
                   (ColFinder.init rest)
  else ColFinder.init rest.
Proof.
  unfold ColFinder.init. cbn [fold_left].
  rewrite init_from. cbn [has_key existsb negb andb app].
  destruct (nonempty (ColFinder.canon_key h)); cbn [andb app].
  - f_equal. apply filter_ext. intros [k v]. cbn [has_key existsb fst].
    now rewrite orb_false_r.
  - apply filter_all_true. reflexivity.
Qed.

(** ** [find] *)

Section Find.
Context {pattern : Type} `{Regex pattern}.

(** The test of line 85. *)
Local Abbreviation hit rx k := (re_fullmatch rx k || re_search rx k).

Lemma find_in_spec (rx : pattern) (canon : list (string * string)) :
  (ColFinder.find_in rx canon = None /\
   forall kv, In kv canon -> hit rx (fst kv) = false) \/
  (exists c1 k orig c2,
      canon = c1 ++ (k, orig) :: c2 /\
      ColFinder.find_in rx canon = Some orig /\
      (forall kv, In kv c1 -> hit rx (fst kv) = false) /\
      hit rx k = true).
Proof.
  induction canon as [|[k orig] rest IH]; cbn [ColFinder.find_in].
  - left. split; [reflexivity | intros kv []].
  - destruct (hit rx k) eqn:Ek.
    + right. exists [], k, orig, rest.
      split; [reflexivity|]. split; [reflexivity|]. split; [intros kv [] | exact Ek].
    + destruct IH as [[E Hall] | (c1 & k' & orig' & c2 & -> & E & Hc1 & Hk)].
      * left. split; [exact E|]. intros kv [<- | Hin]; [exact Ek | now apply Hall].
      * right. exists ((k, orig) :: c1), k', orig', c2.
        split; [reflexivity|]. split; [exact E|]. split; [|exact Hk].
        intros kv [<- | Hin]; [exact Ek | now apply Hc1].
Qed.

(** [find] returns the header of the first pattern, in the order given,
    that matches a canonical key, and for that pattern the first key in
    insertion order that it matches, in full or inside. *)
Lemma find_spec (canon : list (string * string)) (patterns : list pattern) :
  (ColFinder.find canon patterns = None /\
   forall pat, In pat patterns ->
     forall kv, In kv canon -> hit pat (fst kv) = false) \/
  (exists ps1 pat ps2 c1 k orig c2,
      patterns = ps1 ++ pat :: ps2 /\
      canon = c1 ++ (k, orig) :: c2 /\
      ColFinder.find canon patterns = Some orig /\
      (forall p, In p ps1 -> forall kv, In kv canon -> hit p (fst kv) = false) /\
      (forall kv, In kv c1 -> hit pat (fst kv) = false) /\
      hit pat k = true).
Proof.
  induction patterns as [|pat rest IH]; cbn [ColFinder.find].
  - left. split; [reflexivity | intros pat []].
  - destruct (find_in_spec pat canon) as [[E Hall] | (c1 & k & orig & c2 & Ec & E & Hc1 & Hk)];
      rewrite E.
    + destruct IH as [[E' Hall'] | (ps1 & pat' & ps2 & c1 & k & orig & c2 & -> & Ec & E' & Hps & Hc1 & Hk)].
      * left. split; [exact E'|].
        intros p [<- | Hin]; [exact Hall | now apply Hall'].
      * right. exists (pat :: ps1), pat', ps2, c1, k, orig, c2.
        split; [reflexivity|]. split; [exact Ec|]. split; [exact E'|].
        split; [|split; assumption].
        intros p [<- | Hin]; [exact Hall | now apply Hps].
    + right. exists [], pat, rest, c1, k, orig, c2.
      split; [reflexivity|]. split; [exact Ec|]. split; [reflexivity|].
      split; [intros p [] | split; assumption].
Qed.

End Find.

(** C9, as the specification states it, fails.  With the headers
    ["Patient Sex"] and ["Sex"] the pattern [sex$] matches the canonical key
    [sex] in full and the key [patientsex] only at its end; the column found
    is ["Patient Sex"], the first header the pattern matches at all, where a
    preference for the full match gives ["Sex"]. *)
Lemma find_does_not_prefer_full_match :
  ColFinder.init Examples.headers_two_sex
    = [("patientsex", "Patient Sex"); ("sex", "Sex")] /\
  fullmatch (cat [lit "sex"; Eol]) "sex" = true /\
  fullmatch (cat [lit "sex"; Eol]) "patientsex" = false /\
  search (cat [lit "sex"; Eol]) "patientsex" = true /\
  ColFinder.find (ColFinder.init Examples.headers_two_sex) sex_patterns
    = Some "Patient Sex" /\
  ColFinder.spec_find (ColFinder.init Examples.headers_two_sex) sex_patterns
    = Some "Sex" /\
  ColFinder.find (ColFinder.init Examples.headers_two_sex) sex_patterns
    <> ColFinder.spec_find (ColFinder.init Examples.headers_two_sex) sex_patterns.
Proof.
  do 6 (split; [vm_compute; reflexivity|]).
  intros H. vm_compute in H. discriminate H.
Qed.

(** C9, amended: the canonical name of a header is its lower-cased text
    with everything but [a-z0-9] removed; a header with an empty canonical
    name is ignored and of two headers with the same canonical name the
    first seen is kept; the patterns are tried in priority order, and for
    the first pattern that matches some canonical name the source column is
    the first header, in first-seen order, whose canonical name the pattern
    matches, in full or as a substring alike (a full match on a later header
    is not preferred). *)
Theorem find_first_pattern_first_header
        {pattern : Type} `{Regex pattern}
        (headers : list string) (patterns : list pattern) :
  (ColFinder.init [] = [] /\
   forall h rest,
     ColFinder.canon_key h =
       filter_str (fun c => islower c || isdigit c) (lower h) /\
     ColFinder.init (h :: rest) =
       if nonempty (ColFinder.canon_key h)
       then (ColFinder.canon_key h, h)
              :: filter (fun kv => negb (String.eqb (ColFinder.canon_key h) (fst kv)))
                        (ColFinder.init rest)
       else ColFinder.init rest) /\
  ((ColFinder.find (ColFinder.init headers) patterns = None /\
    forall pat, In pat patterns ->
      forall kv, In kv (ColFinder.init headers) ->
        re_fullmatch pat (fst kv) || re_search pat (fst kv) = false) \/
   (exists ps1 pat ps2 c1 k orig c2,
       patterns = ps1 ++ pat :: ps2 /\
       ColFinder.init headers = c1 ++ (k, orig) :: c2 /\
       ColFinder.find (ColFinder.init headers) patterns = Some orig /\
       (forall p, In p ps1 ->
          forall kv, In kv (ColFinder.init headers) ->
            re_fullmatch p (fst kv) || re_search p (fst kv) = false) /\
       (forall kv, In kv c1 ->
          re_fullmatch pat (fst kv) || re_search pat (fst kv) = false) /\
       re_fullmatch pat k || re_search pat k = true)).
Proof.
  split.
  - split; [reflexivity|]. intros h rest. split; [reflexivity | apply init_cons].
  - apply find_spec.
Qed.

End ColFinderFacts.

(* ================================================================== *)
(** * The automatic split (prepare_csv_build.py) *)
(* ================================================================== *)

Module AutoSplitFacts.
Import PyStr PyDict Row PrepareCsvBuild.
Local Open Scope list_scope.
Local Open Scope nat_scope.

(** ** Assignment by index *)

Lemma list_set_length {A : Type} (l : list A) :
  forall i x, List.length (list_set l i x) = List.length l.
Proof.
  induction l as [|y l IH]; intros [|i] x; simpl; try reflexivity.
  now rewrite IH.
Qed.

Lemma list_set_nth_eq {A : Type} (l : list A) :
  forall i x, i < List.length l -> nth_error (list_set l i x) i = Some x.
Proof.
  induction l as [|y l IH]; intros [|i] x Hi; simpl in *; try lia.
  - reflexivity.
  - apply IH. lia.
Qed.

Lemma list_set_nth_neq {A : Type} (l : list A) :
  forall i k x, i <> k -> nth_error (list_set l i x) k = nth_error l k.
Proof.
  induction l as [|y l IH]; intros [|i] [|k] x Hik; simpl; try reflexivity.
  - congruence.
  - apply IH. congruence.
Qed.

(** ** The labels *)

Lemma map_constant {A B : Type} (f : A -> B) (c : B) (l : list A) :
  (forall x, In x l -> f x = c) -> map f l = repeat c (List.length l).
Proof.
  induction l as [|x l IH]; intros H; simpl; [reflexivity|].
  rewrite (H x (or_introl eq_refl)), IH; [reflexivity|].
  intros y Hy. apply H. now right.
Qed.

Lemma n_train_valid_le (n : nat) : n_train n + n_valid n <= n.
Proof.
  unfold n_train, n_valid.
  pose proof (Nat.div_mod_eq (8 * n) 10). pose proof (Nat.div_mod_eq n 10).
  pose proof (Nat.mod_upper_bound (8 * n) 10). pose proof (Nat.mod_upper_bound n 10).
  lia.
Qed.

(** The labels of the positions [0 .. n-1] of a shuffled subject:
    [int(0.8 n)] times train, then [int(0.1 n)] times val, then test. *)
Lemma split_labels_80_10_10 (n : nat) :
  map (split_label (n_train n) (n_valid n)) (seq 0 n) =
  repeat "train"%string (n_train n) ++ repeat "val"%string (n_valid n)
  ++ repeat "test"%string (n - n_train n - n_valid n).
Proof.
  pose proof (n_train_valid_le n) as Hle.
  set (a := n_train n) in *. set (b := n_valid n) in *.
  replace n with (a + (b + (n - a - b))) at 1 by lia.
  rewrite !seq_app, !map_app. cbn [Nat.add].
  f_equal; [|f_equal].
  - rewrite (map_constant _ "train"%string); [now rewrite length_seq|].
    intros j Hj. apply in_seq in Hj. unfold split_label.
    now replace (j <? a) with true by (symmetry; apply Nat.ltb_lt; lia).
  - rewrite (map_constant _ "val"%string); [now rewrite length_seq|].
    intros j Hj. apply in_seq in Hj. unfold split_label.
    replace (j <? a) with false by (symmetry; apply Nat.ltb_ge; lia).
    now replace (j <? a + b) with true by (symmetry; apply Nat.ltb_lt; lia).
  - rewrite (map_constant _ "test"%string); [now rewrite length_seq|].
    intros j Hj. apply in_seq in Hj. unfold split_label.
    replace (j <? a) with false by (symmetry; apply Nat.ltb_ge; lia).
    now replace (j <? a + b) with false by (symmetry; apply Nat.ltb_ge; lia).
Qed.

Lemma split_label_cases (a b j : nat) :
  split_label a b j = "train"%string \/ split_label a b j = "val"%string
  \/ split_label a b j = "test"%string.
Proof.
  unfold split_label. destruct (j <? a); [auto|]. destruct (j <? a + b); auto.
Qed.

(** ** One subject *)

Lemma assign_splits_spec (n_tr n_val : nat) (idxs : list nat) :
  forall j rows,
    NoDup idxs ->
    (forall ii, In ii idxs -> ii < List.length rows) ->
    exists rows',
      assign_splits n_tr n_val idxs j rows = Some rows' /\
      List.length rows' = List.length rows /\
      (forall i, ~ In i idxs -> nth_error rows' i = nth_error rows i) /\
      (forall k ii r,
          nth_error idxs k = Some ii -> nth_error rows ii = Some r ->
          nth_error rows' ii = Some (fill_split r (split_label n_tr n_val (j + k)))).
Proof.
  induction idxs as [|ii rest IH]; intros j rows Hnd Hin; cbn [assign_splits].
  - exists rows. split; [reflexivity|]. split; [reflexivity|].
    split; [reflexivity|]. intros [|k] i r Hk; discriminate Hk.
  - inversion Hnd as [|x l Hx Hrest]; subst.
    assert (Hii : ii < List.length rows) by (apply Hin; now left).
    destruct (nth_error rows ii) as [r0|] eqn:Er;
      [|apply nth_error_None in Er; lia].
    set (rows1 := if negb (nonempty (split r0))
                  then list_set rows ii (set_split r0 (split_label n_tr n_val j))
                  else rows).
    assert (Hlen1 : List.length rows1 = List.length rows)
      by (subst rows1; destruct (negb _); [apply list_set_length | reflexivity]).
    assert (Hat : nth_error rows1 ii = Some (fill_split r0 (split_label n_tr n_val j))).
    { subst rows1. unfold fill_split.
      destruct (negb (nonempty (split r0))); [now apply list_set_nth_eq | exact Er]. }
    assert (Hoff : forall i, i <> ii -> nth_error rows1 i = nth_error rows i).
    { intros i Hi. subst rows1.
      destruct (negb _); [apply list_set_nth_neq; congruence | reflexivity]. }
    destruct (IH (S j) rows1 Hrest) as (rows' & E & Hlen & Hout & Hidx).
    { intros i Hi. rewrite Hlen1. apply Hin. now right. }
    exists rows'. split; [exact E|]. split; [congruence|]. split.
    + intros i Hi. rewrite Hout by (intros H; apply Hi; now right).
      apply Hoff. intros ->. apply Hi. now left.
    + intros [|k] i r Hk Hr.
      * injection Hk as <-. rewrite Hout by exact Hx.
        rewrite Hr in Er. injection Er as <-.
        now rewrite Nat.add_0_r.
      * cbn [nth_error] in Hk.
        assert (Hi : i <> ii) by (intros ->; apply Hx; eapply nth_error_In; exact Hk).
        rewrite <- (Hoff i Hi) in Hr.
        rewrite (Hidx k i r Hk Hr). now rewrite Nat.add_succ_comm.
Qed.

(** ** The index of the subjects *)

Lemma nth_error_snoc {A : Type} (l : list A) (x : A) (i : nat) (y : A) :
  nth_error (l ++ [x]) i = Some y <->
  (nth_error l i = Some y \/ (i = List.length l /\ y = x)).
Proof.
  destruct (Nat.lt_ge_cases i (List.length l)) as [Hlt | Hge].
  - rewrite nth_error_app1 by exact Hlt. split; [auto|].
    intros [H | [-> _]]; [exact H | lia].
  - rewrite nth_error_app2 by exact Hge.
    assert (Hnone : nth_error l i = None) by (now apply nth_error_None).
    rewrite Hnone. destruct (i - List.length l) as [|d] eqn:Ed; simpl.
    + split.
      * intros H. injection H as <-. right. split; [lia | reflexivity].
      * intros [H | [_ ->]]; [discriminate H | reflexivity].
    + split.
      * intros H. destruct d; discriminate H.
      * intros [H | [-> _]]; [discriminate H | lia].
Qed.

Lemma indexes_step (done : list DatasetRow) (by_subj : list (string * list nat))
      (r : DatasetRow) :
  indexes done by_subj ->
  indexes (done ++ [r]) (setdefault_append by_subj (subject_id r) (List.length done)).
Proof.
  intros (Hn & Hcov & Hgrp).
  split; [now apply PairingFacts.setdefault_append_NoDup|].
  split.
  - intros i r0 Hi. rewrite PairingFacts.setdefault_append_keys.
    apply nth_error_snoc in Hi. destruct Hi as [Hi | [_ ->]]; [left; eauto | now right].
  - intros k l Hl.
    destruct (PairingFacts.setdefault_append_In _ _ _ Hn _ _ Hl)
      as [[Hk Hold] | [(-> & l0 & Hold & ->) | (-> & Hnew & ->)]].
    + destruct (Hgrp _ _ Hold) as [Hnd Hiff]. split; [exact Hnd|].
      intros i. rewrite Hiff. split.
      * intros (r0 & Hr0 & Hs). exists r0. split; [|exact Hs].
        apply nth_error_snoc. now left.
      * intros (r0 & Hr0 & Hs). apply nth_error_snoc in Hr0.
        destruct Hr0 as [Hr0 | [_ ->]]; [eauto | congruence].
    + destruct (Hgrp _ _ Hold) as [Hnd Hiff]. split.
      * apply NoDup_app; [exact Hnd | constructor; [intros [] | constructor] |].
        intros i Hi [<- | []]. apply Hiff in Hi. destruct Hi as (r0 & Hr0 & _).
        assert (List.length done < List.length done)
          by (apply nth_error_Some; congruence).
        lia.
      * intros i. rewrite in_app_iff, Hiff. cbn [In]. split.
        -- intros [(r0 & Hr0 & Hs) | [<- | []]].
           ++ exists r0. split; [apply nth_error_snoc; now left | exact Hs].
           ++ exists r. split; [apply nth_error_snoc; now right | reflexivity].
        -- intros (r0 & Hr0 & Hs). apply nth_error_snoc in Hr0.
           destruct Hr0 as [Hr0 | [-> _]]; [left; eauto | right; now left].
    + split; [constructor; [intros [] | constructor]|].
      intros i. cbn [In]. split.
      * intros [<- | []]. exists r. split; [apply nth_error_snoc; now right | reflexivity].
      * intros (r0 & Hr0 & Hs). apply nth_error_snoc in Hr0.
        destruct Hr0 as [Hr0 | [-> _]]; [|now left].
        exfalso. apply Hnew. rewrite <- Hs. eapply Hcov; exact Hr0.
Qed.

Lemma index_by_subject_from (rest : list DatasetRow) :
  forall done by_subj,
    indexes done by_subj ->
    indexes (done ++ rest) (index_by_subject rest (List.length done) by_subj).
Proof.
  induction rest as [|r rest IH]; intros done by_subj Hinv; cbn [index_by_subject].
  - now rewrite app_nil_r.
  - replace (done ++ r :: rest) with ((done ++ [r]) ++ rest)
      by (now rewrite <- app_assoc).
    replace (S (List.length done)) with (List.length (done ++ [r]))
      by (rewrite length_app; simpl; lia).
    apply IH. now apply indexes_step.
Qed.

(** The index built by line 181. *)
Lemma index_by_subject_spec (rows : list DatasetRow) :
  indexes rows (index_by_subject rows 0 []).
Proof.
  apply (index_by_subject_from rows [] []).
  split; [constructor|]. split.
  - intros [|i] r H; discriminate H.
  - intros k l [].
Qed.

(** ** All subjects *)

Section AutoSplit.
Variable rng : Type.
Variable shuffle : rng -> list nat -> list nat * rng.

(** [random.shuffle] reorders the list it is given. *)
Hypothesis shuffle_perm : forall g l, Permutation (fst (shuffle g l)) l.

Local Abbreviation label_of l j :=
  (split_label (n_train (List.length l)) (n_valid (List.length l)) j).

Lemma split_groups_spec (rows0 : list DatasetRow) (gs : list (string * list nat)) :
  forall g rows,
    List.length rows = List.length rows0 ->
    NoDup (map fst gs) ->
    (forall k l, In (k, l) gs ->
       NoDup l /\
       forall i, In i l -> exists r, nth_error rows0 i = Some r /\ subject_id r = k) ->
    exists rows',
      split_groups rng shuffle gs g rows = Some rows' /\
      List.length rows' = List.length rows /\
      (forall i, (forall k l, In (k, l) gs -> ~ In i l) ->
                 nth_error rows' i = nth_error rows i) /\
      (forall k l, In (k, l) gs ->
         exists order,
           Permutation order l /\
           forall j i r,
             nth_error order j = Some i -> nth_error rows i = Some r ->
             nth_error rows' i = Some (fill_split r (label_of l j))).
Proof.
  induction gs as [|[k0 l0] rest IH]; intros g rows Hlen Hn Hgrp; cbn [split_groups].
  - exists rows. split; [reflexivity|]. split; [reflexivity|].
    split; [reflexivity | intros k l []].
  - pose proof (shuffle_perm g l0) as Hperm.
    destruct (shuffle g l0) as [order g'] eqn:Es. cbn [fst] in Hperm.
    inversion Hn as [|x l Hk0 Hrest]; subst.
    destruct (Hgrp k0 l0 (or_introl eq_refl)) as [Hnd0 Hsub0].
    assert (Hdisj : forall k l i, In (k, l) rest -> In i l -> ~ In i l0).
    { intros k l i Hl Hi Hi0.
      destruct (Hgrp k l (or_intror Hl)) as [_ Hsub].
      destruct (Hsub i Hi) as (r & Hr & Hs).
      destruct (Hsub0 i Hi0) as (r' & Hr' & Hs').
      apply Hk0. replace k0 with k by congruence.
      apply (in_map fst) in Hl. exact Hl. }
    destruct (assign_splits_spec (n_train (List.length order)) (n_valid (List.length order))
                                 order 0 rows)
      as (rows1 & E1 & Hlen1 & Hout1 & Hidx1).
    { eapply Permutation_NoDup; [apply Permutation_sym; exact Hperm | exact Hnd0]. }
    { intros i Hi. apply (Permutation_in _ Hperm) in Hi.
      destruct (Hsub0 i Hi) as (r & Hr & _).
      rewrite Hlen. apply nth_error_Some. congruence. }
    rewrite E1.
    destruct (IH g' rows1) as (rows' & E & Hlen' & Hout & Hidx).
    { congruence. }
    { exact Hrest. }
    { intros k l Hl. apply Hgrp. now right. }
    exists rows'. split; [exact E|]. split; [congruence|]. split.
    + intros i Hi. rewrite Hout.
      * apply Hout1. intros Hin. apply (Hi k0 l0 (or_introl eq_refl)).
        apply (Permutation_in _ Hperm). exact Hin.
      * intros k l Hl. apply (Hi k l). now right.
    + intros k l [Heq | Hl].
      * injection Heq as <- <-. exists order. split; [exact Hperm|].
        intros j i r Hj Hr.
        rewrite Hout.
        -- rewrite (Hidx1 j i r Hj Hr). cbn [Nat.add].
           now rewrite (Permutation_length Hperm).
        -- intros k l Hl Hi. apply (Hdisj k l i Hl Hi).
           apply (Permutation_in _ Hperm). eapply nth_error_In. exact Hj.
      * destruct (Hidx k l Hl) as (order' & Hperm' & Hfill).
        exists order'. split; [exact Hperm'|].
        intros j i r Hj Hr. apply Hfill; [exact Hj|].
        rewrite Hout1; [exact Hr|].
        intros Hin. apply (Permutation_in _ Hperm) in Hin.
        apply (Hdisj k l i Hl); [|exact Hin].
        apply (Permutation_in _ Hperm'). eapply nth_error_In. exact Hj.
Qed.

Lemma fill_split_frame (r : DatasetRow) (sp : string) :
  subject_id (fill_split r sp) = subject_id r /\
  image_uid (fill_split r sp) = image_uid r /\
  sex (fill_split r sp) = sex r /\
  age (fill_split r sp) = age r /\
  diagnosis (fill_split r sp) = diagnosis r /\
  last_diagnosis (fill_split r sp) = last_diagnosis r /\
  image_path (fill_split r sp) = image_path r /\
  segm_path (fill_split r sp) = segm_path r /\
  latent_path (fill_split r sp) = latent_path r.
Proof.
  unfold fill_split. destruct (negb (nonempty (split r))); repeat split; reflexivity.
Qed.

Lemma fill_split_split (r : DatasetRow) (sp : string) :
  (split r <> EmptyString -> fill_split r sp = r) /\
  (split r = EmptyString -> fill_split r sp = set_split r sp).
Proof.
  unfold fill_split. destruct (split r) as [|c s] eqn:E; simpl.
  - split; [congruence | reflexivity].
  - split; [reflexivity | discriminate].
Qed.

(** C10, amended: the automatic split returns a row list of the same
    length in which every row keeps its nine other fields; a row whose
    split was not empty is unchanged; an empty split is filled with train,
    val or test.  The labels go by position within the subject: the [n]
    rows of a subject, those with a split included, are put in shuffled
    order; the positions below [8n/10] (the value of [int(0.8*n)]) carry
    train, the next [n/10] (the value of [int(0.1*n)]) carry val, the others
    test, and a row with an empty split at position [j] receives the label
    of position [j].  The only row of a subject receives test. *)
Theorem auto_split_fills_only_empty_splits (g : rng) (out_rows : list DatasetRow) :
  exists rows',
    auto_split_rows rng shuffle g out_rows = Some rows' /\
    List.length rows' = List.length out_rows /\
    (forall i r,
        nth_error out_rows i = Some r ->
        exists r',
          nth_error rows' i = Some r' /\
          (subject_id r' = subject_id r /\ image_uid r' = image_uid r /\
           sex r' = sex r /\ age r' = age r /\ diagnosis r' = diagnosis r /\
           last_diagnosis r' = last_diagnosis r /\ image_path r' = image_path r /\
           segm_path r' = segm_path r /\ latent_path r' = latent_path r) /\
          (split r <> EmptyString -> r' = r) /\
          (split r = EmptyString ->
           split r' = "train"%string \/ split r' = "val"%string
           \/ split r' = "test"%string)) /\
    (forall subj idxs,
        In (subj, idxs) (index_by_subject out_rows 0 []) ->
        let n := List.length idxs in
        (forall i, In i idxs <->
                   exists r, nth_error out_rows i = Some r /\ subject_id r = subj) /\
        map (fun j => if j <? 8 * n / 10 then "train"%string
                      else if j <? 8 * n / 10 + n / 10 then "val"%string
                      else "test"%string) (seq 0 n) =
          repeat "train"%string (8 * n / 10)
          ++ repeat "val"%string (n / 10)
          ++ repeat "test"%string (n - 8 * n / 10 - n / 10) /\
        (exists order,
          Permutation order idxs /\
          forall j i r,
            nth_error order j = Some i -> nth_error out_rows i = Some r ->
            split r = EmptyString ->
            exists r',
              nth_error rows' i = Some r' /\
              split r' = (if j <? 8 * n / 10 then "train"%string
                          else if j <? 8 * n / 10 + n / 10 then "val"%string
                          else "test"%string)) /\
        (n = 1 ->
         forall i r,
           nth_error out_rows i = Some r -> subject_id r = subj ->
           split r = EmptyString ->
           exists r', nth_error rows' i = Some r' /\ split r' = "test"%string)).
Proof.
  destruct (index_by_subject_spec out_rows) as (Hn & Hcov & Hgrp).
  destruct (split_groups_spec out_rows (index_by_subject out_rows 0 []) g out_rows
              eq_refl Hn)
    as (rows' & E & Hlen & Hout & Hidx).
  { intros k l Hl. destruct (Hgrp k l Hl) as [Hnd Hiff].
    split; [exact Hnd|]. intros i Hi. now apply Hiff. }
  exists rows'. split; [exact E|]. split; [exact Hlen|]. split.
  - intros i r Hr.
    pose proof (Hcov i r Hr) as Hkey. apply in_map_iff in Hkey.
    destruct Hkey as ([k l] & Hk & Hl). cbn [fst] in Hk. subst k.
    destruct (Hgrp _ _ Hl) as [_ Hiff].
    destruct (Hidx _ _ Hl) as (order & Hperm & Hfill).
    assert (Hi : In i order).
    { apply (Permutation_in _ (Permutation_sym Hperm)). apply Hiff. eauto. }
    apply In_nth_error in Hi. destruct Hi as (j & Hj).
    exists (fill_split r (label_of l j)).
    split; [now apply (Hfill j i r)|].
    split; [apply fill_split_frame|].
    destruct (fill_split_split r (label_of l j)) as [Hkeep Hset].
    split; [exact Hkeep|].
    intros Hempty. rewrite (Hset Hempty). cbn [split set_split].
    apply split_label_cases.
  - intros subj idxs Hl n.
    destruct (Hgrp _ _ Hl) as [_ Hiff].
    destruct (Hidx _ _ Hl) as (order & Hperm & Hfill).
    assert (Hlabel : forall j i r,
               nth_error order j = Some i -> nth_error out_rows i = Some r ->
               split r = EmptyString ->
               exists r',
                 nth_error rows' i = Some r' /\
                 split r' = (if j <? 8 * n / 10 then "train"%string
                             else if j <? 8 * n / 10 + n / 10 then "val"%string
                             else "test"%string)).
    { intros j i r Hj Hr Hempty.
      exists (set_split r (label_of idxs j)). split; [|reflexivity].
      rewrite (Hfill j i r Hj Hr).
      now rewrite (proj2 (fill_split_split r _) Hempty). }
    split; [exact Hiff|]. split; [exact (split_labels_80_10_10 n)|].
    split; [exists order; split; [exact Hperm | exact Hlabel]|].
    intros Hone i r Hr Hs Hempty.
    assert (Hi : In i order).
    { apply (Permutation_in _ (Permutation_sym Hperm)). apply Hiff. eauto. }
    apply In_nth_error in Hi. destruct Hi as (j & Hj).
    assert (Hj0 : j = 0).
    { assert (Hlt : j < List.length order) by (apply nth_error_Some; congruence).
      rewrite (Permutation_length Hperm) in Hlt. fold n in Hlt. lia. }
    destruct (Hlabel j i r Hj Hr Hempty) as (r' & Hr' & Hsp).
    exists r'. split; [exact Hr'|]. rewrite Hsp, Hj0, Hone. reflexivity.
Qed.

End AutoSplit.

(** Ten unsplit rows of one subject under the reversing shuffle: eight
    train, one val, one test. *)
Example auto_split_ten_rows :
  option_map (map split)
             (auto_split_rows unit Examples.reverse_shuffle tt Examples.ten_unsplit_rows)
  = Some ["test"; "val"; "train"; "train"; "train"; "train"; "train"; "train";
          "train"; "train"]%string.
Proof. vm_compute. reflexivity. Qed.

(** C10, as the specification states it, fails in its last part.  The
    only row of a subject has no train and no val position
    ([int(0.8) = int(0.1) = 0]) and is labelled test; and of ten rows of a
    subject of which eight carry a split, the two unsplit ones take the
    labels of their shuffled positions, here val and test: in neither case
    are the labels given in an 80/10/10 proportion. *)
Lemma auto_split_labels_by_position :
  option_map (map split)
             (auto_split_rows unit Examples.reverse_shuffle tt Examples.single_unsplit_row)
  = Some ["test"%string] /\
  option_map (map split)
             (auto_split_rows unit Examples.reverse_shuffle tt Examples.two_unsplit_of_ten)
  = Some ["test"; "val"; "train"; "train"; "train"; "train"; "train"; "train";
          "train"; "train"]%string /\
  map split Examples.two_unsplit_of_ten
  = [""; ""; "train"; "train"; "train"; "train"; "train"; "train"; "train";
     "train"]%string.
Proof. repeat split; vm_compute; reflexivity. Qed.

(** The theorem at the reversing shuffle, which permutes its list, and ten
    unsplit rows. *)
Lemma auto_split_fills_only_empty_splits_witness :
  (forall g l, Permutation (fst (Examples.reverse_shuffle g l)) l) /\
  exists rows',
    auto_split_rows unit Examples.reverse_shuffle tt Examples.ten_unsplit_rows
      = Some rows' /\
    List.length rows' = 10.
Proof.
  assert (Hperm : forall g l, Permutation (fst (Examples.reverse_shuffle g l)) l)
    by (intros g l; simpl; apply Permutation_sym, Permutation_rev).
  split; [exact Hperm|].
  destruct (auto_split_fills_only_empty_splits unit Examples.reverse_shuffle Hperm tt
              Examples.ten_unsplit_rows) as (rows' & E & Hlen & _).
  exists rows'. split; [exact E | exact Hlen].
Defined.

End AutoSplitFacts.

(* ================================================================== *)
(** * What the timestamp extractor returns (prepare_csv.py) *)
(* ================================================================== *)

Module TimestampExtractorFacts.
Import PyStr Timestamp TimestampVocabulary TimestampFacts.

Lemma match_here_prefix_None (cls : list (ascii -> bool)) :
  Forall digit_class cls -> cls <> [] ->
  forall pre s before,
    ends_with_digit before pre = false ->
    match_here cls (pre ++ s) = None -> match_here cls pre = None.
Proof.
  intros Hcls. induction Hcls as [|p cls Hp Hcls IH]; intros Hne; [congruence|].
  intros pre s before Hend Hm.
  destruct pre as [|c pre]; [reflexivity|].
  cbn [match_here append] in *.
  destruct (p c) eqn:Epc; [|reflexivity].
  destruct cls as [|q cls'].
  - (* the look-ahead *)
    cbn [match_here] in *.
    destruct pre as [|d pre'].
    + cbn [ends_with_digit] in Hend. rewrite (Hp c Epc) in Hend. discriminate.
    + cbn [append] in Hm. destruct (isdigit d); [reflexivity | discriminate Hm].
  - cbn [ends_with_digit] in Hend.
    rewrite (IH ltac:(discriminate) pre s (isdigit c) Hend); [reflexivity|].
    destruct (match_here (q :: cls') (pre ++ s)); [discriminate Hm | reflexivity].
Qed.

Lemma search_from_leftmost (cls : list (ascii -> bool)) :
  Forall digit_class cls -> cls <> [] ->
  forall t before m,
    search_from cls before t = Some m ->
    exists pre post,
      t = (pre ++ m ++ post)%string /\
      fits cls m = true /\
      ends_with_digit before pre = false /\
      starts_with_digit post = false /\
      search_from cls before pre = None.
Proof.
  intros Hcls Hne.
  assert (Hempty : forall b, search_from cls b EmptyString = None).
  { intros b. cbn [search_from]. destruct b; [reflexivity|].
    destruct cls; [congruence | reflexivity]. }
  induction t as [|c r IH]; intros before m Hs.
  - rewrite Hempty in Hs. discriminate.
  - cbn [search_from] in Hs.
    destruct (if before then None else match_here cls (String c r)) as [m'|] eqn:Em.
    + injection Hs as <-. destruct before; [discriminate Em|].
      destruct (match_here_sound _ _ _ Em) as (post & E & Hf & Hp).
      exists EmptyString, post. cbn [append ends_with_digit].
      rewrite Hempty. auto.
    + destruct (IH _ _ Hs) as (pre & post & -> & Hf & He & Hp & Hnone).
      exists (String c pre), post. cbn [append ends_with_digit search_from].
      do 4 (split; [auto|]).
      rewrite Hnone.
      destruct before; [reflexivity|].
      change (String c (pre ++ m ++ post)) with (String c pre ++ m ++ post)%string in Em.
      now rewrite (match_here_prefix_None cls Hcls Hne (String c pre) _ false He Em).
Qed.


Lemma search_from_leftmost_iff (cls : list (ascii -> bool)) (t m : string) :
  Forall digit_class cls -> cls <> [] ->
  (search_from cls false t = Some m <-> leftmost_run cls t m).
Proof.
  intros Hcls Hne. split.
  - intros Hs.
    destruct (search_from_leftmost cls Hcls Hne _ _ _ Hs)
      as (pre & post & E & Hf & He & Hp & Hnone).
    exists pre, post. auto.
  - intros (pre & post & -> & Hf & He & Hp & Hnone).
    apply (search_from_app _ Hcls); [exact Hnone | exact He |].
    now apply match_here_fits.
Qed.

Lemma Y4_classes_digits : Forall digit_class Y4_classes.
Proof.
  repeat constructor; apply in_range_digit; vm_compute; congruence.
Qed.

Lemma TS8_classes_digits : Forall digit_class TS8_classes.
Proof.
  repeat constructor; apply in_range_digit; vm_compute; congruence.
Qed.

(** X1: each of the three patterns returns the leftmost run of the text
    that it fits and that no digit touches, and nothing else: [search]
    gives [m] exactly when [m] is such a run.  A run returned by the
    fourteen-digit (eight-digit, year) pattern is made of fourteen (eight,
    four) digits. *)
Theorem search_returns_leftmost_bounded_run (t m : string) :
  (TS14_search t = Some m <->
   leftmost_run TS14_classes t m /\ String.length m = 14%nat /\ all_digits m = true) /\
  (TS8_search t = Some m <->
   leftmost_run TS8_classes t m /\ String.length m = 8%nat /\ all_digits m = true) /\
  (Y4_search t = Some m <->
   leftmost_run Y4_classes t m /\ String.length m = 4%nat /\ all_digits m = true).
Proof.
  assert (Hgen : forall cls,
             Forall digit_class cls -> cls <> [] ->
             (search_from cls false t = Some m <->
              leftmost_run cls t m /\ String.length m = List.length cls
              /\ all_digits m = true)).
  { intros cls Hcls Hne. rewrite (search_from_leftmost_iff cls t m Hcls Hne).
    split; [|tauto].
    intros Hrun. split; [exact Hrun|].
    destruct Hrun as (pre & post & _ & Hf & _).
    split; [now apply fits_length | now apply (fits_all_digits cls Hcls)]. }
  split; [|split].
  - apply (Hgen TS14_classes TS14_classes_digits). discriminate.
  - apply (Hgen TS8_classes TS8_classes_digits). discriminate.
  - apply (Hgen Y4_classes Y4_classes_digits). discriminate.
Qed.

(** ** The value returned *)

Lemma class_bounds (lo hi c : ascii) :
  in_range lo hi c = true -> ord lo <= ord c <= ord hi.
Proof. unfold in_range. lia. Qed.

(** A year token spells a year between 1000 and 2999. *)
Lemma year_digits_range (a b c d : ascii) (r : string) :
  c12 a = true -> c09 b = true -> c09 c = true -> c09 d = true ->
  field (String a (String b (String c (String d r))) ) 0 4 =
    (ord a - 48) * 1000 + (ord b - 48) * 100 + (ord c - 48) * 10 + (ord d - 48) /\
  1000 <= field (String a (String b (String c (String d r)))) 0 4 <= 2999.
Proof.
  intros Ha Hb Hc Hd.
  apply class_bounds in Ha, Hb, Hc, Hd.
  change (ord "1") with 49 in Ha. change (ord "2") with 50 in Ha.
  change (ord "0") with 48 in Hb, Hc, Hd. change (ord "9") with 57 in Hb, Hc, Hd.
  unfold field, int_of_digits. cbn [String.substring int_of_digits_acc].
  replace (String.substring 0 0 r) with EmptyString by (now destruct r).
  cbn [int_of_digits_acc]. split; lia.
Qed.

Lemma fits_year_prefix (cls : list (ascii -> bool)) (raw : string) :
  fits (Y4_classes ++ cls) raw = true ->
  1000 <= field raw 0 4 <= 2999.
Proof.
  unfold Y4_classes. intros H.
  destruct raw as [|a [|b [|c [|d r]]]]; cbn [app fits] in H;
    repeat (apply andb_prop in H; destruct H as [? H]); try discriminate.
  now apply year_digits_range.
Qed.

Lemma strptime14_year (t raw : string) (d : datetime) :
  TS14_search t = Some raw -> strptime14 raw = Some d -> 1000 <= year d <= 2999.
Proof.
  intros Hs Hp.
  destruct (search_from_sound _ _ _ _ Hs) as (pre & post & _ & Hf & _).
  unfold strptime14 in Hp.
  destruct ((String.length raw =? 14)%nat && all_digits raw); [|discriminate].
  destruct (valid_datetime _); [|discriminate]. injection Hp as <-. cbn [year].
  unfold TS14_classes, TS8_classes in Hf. rewrite <- !app_assoc in Hf.
  exact (fits_year_prefix _ _ Hf).
Qed.

Lemma strptime8_shape (t raw : string) (d : datetime) :
  TS8_search t = Some raw -> strptime8 raw = Some d ->
  1000 <= year d <= 2999 /\ hour d = 0 /\ minute d = 0 /\ second d = 0.
Proof.
  intros Hs Hp.
  destruct (search_from_sound _ _ _ _ Hs) as (pre & post & _ & Hf & _).
  unfold strptime8 in Hp.
  destruct ((String.length raw =? 8)%nat && all_digits raw); [|discriminate].
  destruct (valid_datetime _); [|discriminate]. injection Hp as <-.
  cbn [year hour minute second].
  split; [|auto]. unfold TS8_classes in Hf. exact (fits_year_prefix _ _ Hf).
Qed.

(** The parse of line 79 succeeds on every year token. *)
Lemma year_token_parses (y : string) :
  fits Y4_classes y = true ->
  strptime14 (y ++ "0101000000") = Some (new_year (int_of_digits y)) /\
  1000 <= int_of_digits y <= 2999.
Proof.
  intros Hf.
  assert (Hy : 1000 <= field y 0 4 <= 2999).
  { apply (fits_year_prefix []). now rewrite app_nil_r. }
  pose proof (fits_all_digits _ Y4_classes_digits _ Hf) as Hd.
  unfold Y4_classes in Hf.
  destruct y as [|a [|b [|c [|d [|e r]]]]]; cbn [fits] in Hf;
    repeat (apply andb_prop in Hf; destruct Hf as [? Hf]); try discriminate.
  assert (Hint : field (String a (String b (String c (String d "")))) 0 4 =
                 int_of_digits (String a (String b (String c (String d ""))))) by reflexivity.
  rewrite Hint in Hy. split; [|exact Hy].
  unfold strptime14. cbn [append String.length Nat.eqb andb].
  cbn [all_digits] in Hd |- *.
  repeat (apply andb_prop in Hd; destruct Hd as [? Hd]).
  repeat match goal with H : isdigit _ = true |- _ => rewrite H; clear H end.
  cbn [andb]. change (isdigit "0") with true. change (isdigit "1") with true.
  cbn [andb].
  set (yr := String a (String b (String c (String d "")))) in *.
  change (field (String a (String b (String c (String d "0101000000")))) 0 4)
    with (int_of_digits yr).
  change (field (String a (String b (String c (String d "0101000000")))) 4 2) with 1.
  change (field (String a (String b (String c (String d "0101000000")))) 6 2) with 1.
  change (field (String a (String b (String c (String d "0101000000")))) 8 2) with 0.
  change (field (String a (String b (String c (String d "0101000000")))) 10 2) with 0.
  change (field (String a (String b (String c (String d "0101000000")))) 12 2) with 0.
  fold (new_year (int_of_digits yr)).
  assert (Hv : valid_datetime (new_year (int_of_digits yr)) = true).
  { unfold valid_datetime, new_year. cbn [year month day hour minute second].
    change (days_in_month (int_of_digits yr) 1) with 31.
    clearbody yr.
    destruct Hy as [Hy1 Hy2].
    apply Z.leb_le in Hy2.
    assert (Hy3 : (1 <=? int_of_digits yr) = true) by (apply Z.leb_le; lia).
    assert (Hy4 : (int_of_digits yr <=? 9999) = true) by (apply Z.leb_le; apply Z.leb_le in Hy2; lia).
    rewrite Hy3, Hy4. reflexivity. }
  now rewrite Hv.
Qed.

Lemma loop14_year (texts : list string) (d : datetime) :
  loop14 texts = Some d -> 1000 <= year d <= 2999.
Proof.
  induction texts as [|t l IH]; cbn [loop14]; [discriminate|].
  destruct (nonempty t); [|exact IH].
  destruct (TS14_search t) as [raw|] eqn:Es; [|exact IH].
  destruct (strptime14 raw) as [d'|] eqn:E; [|exact IH].
  intros H. injection H as ->. eapply strptime14_year; eassumption.
Qed.

Lemma loop8_shape (texts : list string) (d : datetime) :
  loop8 texts = Some d ->
  1000 <= year d <= 2999 /\ hour d = 0 /\ minute d = 0 /\ second d = 0.
Proof.
  induction texts as [|t l IH]; cbn [loop8]; [discriminate|].
  destruct (nonempty t); [|exact IH].
  destruct (TS8_search t) as [raw|] eqn:Es; [|exact IH].
  destruct (strptime8 raw) as [d'|] eqn:E; [|exact IH].
  intros H. injection H as ->. eapply strptime8_shape; eassumption.
Qed.

Lemma Y4_search_fits (t y : string) : Y4_search t = Some y -> fits Y4_classes y = true.
Proof.
  intros Hs. destruct (search_from_sound _ _ _ _ Hs) as (pre & post & _ & Hf & _).
  exact Hf.
Qed.

Lemma Y4_search_nonempty (t y : string) : Y4_search t = Some y -> nonempty t = true.
Proof. destruct t; [discriminate | reflexivity]. Qed.

(** The third loop: the first text with a year token decides. *)
Lemma loop4_first_token (before : list string) (t y : string) (rest : list string) :
  Forall (fun s => Y4_search s = None) before ->
  Y4_search t = Some y ->
  loop4 (before ++ t :: rest) = Some (new_year (int_of_digits y)).
Proof.
  intros Hb Ht. induction Hb as [|s before Hs Hb IH]; cbn [app loop4].
  - rewrite (Y4_search_nonempty _ _ Ht), Ht.
    now rewrite (proj1 (year_token_parses y (Y4_search_fits _ _ Ht))).
  - rewrite Hs. now destruct (nonempty s).
Qed.

Lemma loop4_None (texts : list string) :
  loop4 texts = None -> forall t, In t texts -> Y4_search t = None.
Proof.
  induction texts as [|s l IH]; cbn [loop4]; intros H t Hin; [destruct Hin|].
  destruct (nonempty s) eqn:En.
  - destruct (Y4_search s) as [y|] eqn:Es.
    + rewrite (proj1 (year_token_parses y (Y4_search_fits _ _ Es))) in H. discriminate.
    + destruct Hin as [<- | Hin]; [exact Es | now apply IH].
  - destruct Hin as [<- | Hin]; [|now apply IH].
    destruct s; [reflexivity | discriminate].
Qed.

Lemma loop4_shape (texts : list string) (d : datetime) :
  loop4 texts = Some d ->
  exists y, d = new_year y /\ 1000 <= y <= 2999.
Proof.
  induction texts as [|s l IH]; cbn [loop4]; [discriminate|].
  destruct (nonempty s); [|exact IH].
  destruct (Y4_search s) as [y|] eqn:Es; [|exact IH].
  destruct (year_token_parses y (Y4_search_fits _ _ Es)) as [E Hy].
  rewrite E. intros H. injection H as <-. eauto.
Qed.

(** X2: a timestamp that the extractor returns is a valid date-time of a
    year between 1000 and 2999; when no fourteen-digit run gave it, its time
    is midnight; when no eight-digit run gave it either, it is the first of
    January.  When the extractor returns nothing, no fragment holds a
    year token. *)
Theorem extracted_timestamp_shape (texts : list string) :
  match parse_timestamp_from_texts texts with
  | Some d =>
      valid_datetime d = true /\ 1000 <= year d <= 2999 /\
      (loop14 texts = None -> hour d = 0 /\ minute d = 0 /\ second d = 0) /\
      (loop14 texts = None -> loop8 texts = None -> month d = 1 /\ day d = 1)
  | None => forall t, In t texts -> Y4_search t = None
  end.
Proof.
  destruct (parse_timestamp_from_texts texts) as [d|] eqn:E.
  - split; [now apply (parse_timestamp_valid texts)|].
    unfold parse_timestamp_from_texts in E.
    destruct (loop14 texts) as [d14|] eqn:E14.
    + injection E as ->. split; [now apply (loop14_year texts)|].
      split; discriminate.
    + destruct (loop8 texts) as [d8|] eqn:E8.
      * injection E as ->. destruct (loop8_shape _ _ E8) as (Hy & Hh & Hm & Hs).
        split; [exact Hy|]. split; [auto | discriminate].
      * destruct (loop4_shape _ _ E) as (y & -> & Hy).
        cbn [new_year year month day hour minute second]. auto.
  - unfold parse_timestamp_from_texts in E.
    destruct (loop14 texts); [discriminate|].
    destruct (loop8 texts); [discriminate|].
    now apply loop4_None.
Qed.

Lemma loop14_app (a b : list string) :
  loop14 (a ++ b) = match loop14 a with Some d => Some d | None => loop14 b end.
Proof.
  induction a as [|t a IH]; cbn [app loop14]; [reflexivity|].
  destruct (nonempty t); [|exact IH].
  destruct (TS14_search t) as [raw|]; [|exact IH].
  now destruct (strptime14 raw).
Qed.

(** X3: the pattern decides before the fragment does.  A valid
    fourteen-digit run, the leftmost of its fragment, is returned although
    earlier fragments hold eight-digit dates or year tokens, as long as no
    earlier fragment gives a fourteen-digit timestamp itself. *)
Theorem ts14_in_later_fragment_wins
        (before : list string) (pre run post : string) (rest : list string) :
  loop14 before = None ->
  TS14_search pre = None ->
  ends_with_digit false pre = false ->
  fits TS14_classes run = true ->
  starts_with_digit post = false ->
  valid_datetime (datetime_of_digits run) = true ->
  parse_timestamp_from_texts (before ++ (pre ++ run ++ post) :: rest)
    = Some (datetime_of_digits run).
Proof.
  intros Hbefore Hpre Hend Hfit Hpost Hvalid.
  unfold parse_timestamp_from_texts. rewrite loop14_app, Hbefore. cbn [loop14].
  rewrite (nonempty_app_run _ _ _ Hfit).
  replace (TS14_search (pre ++ run ++ post)) with (Some run).
  - unfold strptime14.
    rewrite (fits_length _ _ Hfit), (fits_all_digits _ TS14_classes_digits _ Hfit).
    cbn [List.length TS14_classes TS8_classes Y4_classes app Nat.eqb andb].
    fold (datetime_of_digits run). now rewrite Hvalid.
  - symmetry. unfold TS14_search.
    apply (search_from_app _ TS14_classes_digits); try assumption.
    now apply match_here_fits.
Qed.

(** The theorem at an image path with an eight-digit date followed by an
    image identifier with a fourteen-digit timestamp. *)
Lemma ts14_in_later_fragment_wins_witness :
  parse_timestamp_from_texts
    (["/pre/S1/20190101/turboprep_Warped.nii.gz"]
     ++ ("I7_" ++ "20180315120000" ++ "_raw")%string :: [])
  = Some (mkDatetime 2018 3 15 12 0 0).
Proof.
  exact (ts14_in_later_fragment_wins
           ["/pre/S1/20190101/turboprep_Warped.nii.gz"] "I7_" "20180315120000" "_raw" []
           eq_refl eq_refl eq_refl eq_refl eq_refl eq_refl).
Defined.

(** X4: a year token is never lost.  When a fragment holds a year token,
    the extractor returns a timestamp; when neither a fourteen-digit nor an
    eight-digit run gives one, it is midnight of the first of January of the
    year of the first fragment that holds a token. *)
Theorem year_token_guarantees_timestamp
        (before : list string) (t y : string) (rest : list string) :
  Forall (fun s => Y4_search s = None) before ->
  Y4_search t = Some y ->
  exists d,
    parse_timestamp_from_texts (before ++ t :: rest) = Some d /\
    (loop14 (before ++ t :: rest) = None ->
     loop8 (before ++ t :: rest) = None ->
     d = new_year (int_of_digits y) /\ 1000 <= int_of_digits y <= 2999).
Proof.
  intros Hb Ht. unfold parse_timestamp_from_texts.
  destruct (loop14 (before ++ t :: rest)) as [d14|].
  - exists d14. split; [reflexivity | discriminate].
  - destruct (loop8 (before ++ t :: rest)) as [d8|].
    + exists d8. split; [reflexivity | discriminate].
    + exists (new_year (int_of_digits y)).
      split; [now apply loop4_first_token|].
      intros _ _. split; [reflexivity|].
      exact (proj2 (year_token_parses y (Y4_search_fits _ _ Ht))).
Qed.

(** The theorem at a fragment without digits followed by one with the
    year token [2018]. *)
Lemma year_token_guarantees_timestamp_witness :
  exists d,
    parse_timestamp_from_texts (["scan"] ++ "visit_2018_a" :: []) = Some d /\
    (loop14 (["scan"] ++ "visit_2018_a" :: []) = None ->
     loop8 (["scan"] ++ "visit_2018_a" :: []) = None ->
     d = new_year (int_of_digits "2018") /\ 1000 <= int_of_digits "2018" <= 2999).
Proof.
  apply (year_token_guarantees_timestamp ["scan"] "visit_2018_a" "2018" []).
  - repeat constructor.
  - reflexivity.
Defined.

End TimestampExtractorFacts.

(* ================================================================== *)
(** * The fourteen-digit rule, fragment by fragment *)
(* ================================================================== *)

Module TimestampRuleFacts.
Import PyStr Timestamp TimestampVocabulary TimestampFacts TimestampExtractorFacts.
Local Open Scope list_scope.

(** The date-time that [strptime] reads from a run that fits the
    pattern. *)
Lemma strptime14_of_run (run : string) :
  fits TS14_classes run = true ->
  strptime14 run =
  if valid_datetime (datetime_of_digits run) then Some (datetime_of_digits run)
  else None.
Proof.
  intros Hfit. unfold strptime14.
  rewrite (fits_length _ _ Hfit), (fits_all_digits _ TS14_classes_digits _ Hfit).
  cbn [List.length TS14_classes TS8_classes Y4_classes app Nat.eqb andb].
  reflexivity.
Qed.

Lemma TS14_search_leftmost (t run : string) :
  TS14_search t = Some run <-> leftmost_run TS14_classes t run.
Proof.
  apply search_from_leftmost_iff; [exact TS14_classes_digits | discriminate].
Qed.

(** What the first loop makes of one fragment. *)
Lemma loop14_cons (t : string) (rest : list string) :
  loop14 (t :: rest) =
  match TS14_search t with
  | Some run =>
      if valid_datetime (datetime_of_digits run) then Some (datetime_of_digits run)
      else loop14 rest
  | None => loop14 rest
  end.
Proof.
  cbn [loop14]. destruct (TS14_search t) as [run|] eqn:Es.
  - pose proof (proj1 (TS14_search_leftmost t run) Es) as Hrun.
    destruct Hrun as (pre & post & -> & Hfit & _).
    rewrite (nonempty_app_run _ _ _ Hfit), (strptime14_of_run _ Hfit).
    now destruct (valid_datetime (datetime_of_digits run)).
  - now destruct (nonempty t).
Qed.

(** Three fragments: an identifier of fourteen digits that does not fit
    the pattern is passed over and the run after it is returned; a run that
    fits the pattern but is no date (month 13) ends the fourteen-digit rule
    for its fragment, although the run after it is a date; the year token
    of the third fragment is then all that is left. *)
Example ts14_rule_examples :
  parse_timestamp_from_texts ["98765432101234_20180315120000_20190101"]
    = Some (mkDatetime 2018 3 15 12 0 0) /\
  parse_timestamp_from_texts ["scan_20181332120000_20180315120000"] = None /\
  parse_timestamp_from_texts ["scan_20181332120000_20180315120000_2019"]
    = Some (mkDatetime 2019 1 1 0 0 0).
Proof. repeat split; vm_compute; reflexivity. Qed.

(** C4, amended: the fourteen-digit rule looks at one run per fragment,
    the leftmost run of fourteen digits between non-digits (or the ends of
    the string) that fits the pattern
    [[12]ddd [01]d [0-3]d [0-2]d [0-5]d [0-5]d].  When that run spells an
    existing date and time and no earlier fragment has given a timestamp
    by the rule, the extractor returns exactly that date-time.  When the
    run spells no existing date and time, or when the fragment has no such
    run, the rule gives nothing for the fragment, whatever else the
    fragment holds, and goes on with the fragments after it.  The
    eight-digit and four-digit rules are tried only when the fourteen-digit
    rule has given nothing for any fragment. *)
Theorem ts14_rule_on_fragment (before : list string) (t : string) (rest : list string) :
  (forall run,
      leftmost_run TS14_classes t run ->
      (valid_datetime (datetime_of_digits run) = true ->
       loop14 before = None ->
       loop14 (before ++ t :: rest) = Some (datetime_of_digits run) /\
       parse_timestamp_from_texts (before ++ t :: rest)
         = Some (datetime_of_digits run)) /\
      (valid_datetime (datetime_of_digits run) = false ->
       loop14 (before ++ t :: rest)
       = match loop14 before with Some d => Some d | None => loop14 rest end)) /\
  ((forall run, ~ leftmost_run TS14_classes t run) ->
   loop14 (before ++ t :: rest)
   = match loop14 before with Some d => Some d | None => loop14 rest end) /\
  parse_timestamp_from_texts (before ++ t :: rest) =
    match loop14 (before ++ t :: rest) with
    | Some d => Some d
    | None =>
        match loop8 (before ++ t :: rest) with
        | Some d => Some d
        | None => loop4 (before ++ t :: rest)
        end
    end.
Proof.
  split; [|split; [|reflexivity]].
  - intros run Hrun. apply TS14_search_leftmost in Hrun. split.
    + intros Hvalid Hbefore.
      assert (E : loop14 (before ++ t :: rest) = Some (datetime_of_digits run)).
      { rewrite loop14_app, Hbefore, loop14_cons, Hrun. now rewrite Hvalid. }
      split; [exact E|]. unfold parse_timestamp_from_texts. now rewrite E.
    + intros Hvalid. rewrite loop14_app, loop14_cons, Hrun. now rewrite Hvalid.
  - intros Hnone. rewrite loop14_app, loop14_cons.
    destruct (TS14_search t) as [run|] eqn:Es; [|reflexivity].
    apply TS14_search_leftmost in Es. destruct (Hnone run Es).
Qed.

End TimestampRuleFacts.

(* ================================================================== *)
(** * The grouping key and the outputs of [main] (prepare_csv.py) *)
(* ================================================================== *)

Module PairingEngineFacts.
Import PyStr PyStrFacts PyDict Row Timestamp PrepareCsv PrepareCsvMain PairingFacts.
Local Open Scope list_scope.

(** ** The grouping key *)

Lemma split_first_prefix (s : string) :
  exists rest,
    s = (split_first "_" s ++ rest)%string /\
    (rest = EmptyString \/ startswith rest "_" = true) /\
    contains (split_first "_" s) "_" = false.
Proof.
  induction s as [|c r (rest & E & Hrest & Hno)]; cbn [split_first].
  - exists EmptyString. auto.
  - destruct (Ascii.eqb_spec c "_") as [-> | Hc].
    + exists (String "_" r). split; [reflexivity|]. split; [|reflexivity].
      right. now destruct r.
    + exists rest. cbn [append]. split; [now rewrite <- E|]. split; [exact Hrest|].
      cbn [contains startswith]. rewrite Hno.
      destruct (Ascii.eqb_spec "_" c) as [E' | _]; [congruence | reflexivity].
Qed.

(** X5: the grouping key of a subject id depends on the stripped id only.
    In mode [exact] it is the stripped id; in mode [first_token] it is the
    part of the stripped id before its first underscore, so it holds no
    underscore; and mode [regex] without a pattern, like any unknown mode,
    falls back to the stripped id. *)
Theorem subject_group_key_of_stripped_id
        (subject_id mode : string) (regex_pat : option (string -> option string)) :
  subject_group_key (strip subject_id) mode regex_pat
    = subject_group_key subject_id mode regex_pat /\
  subject_group_key subject_id "exact" regex_pat = strip subject_id /\
  (exists rest,
      strip subject_id
        = (subject_group_key subject_id "first_token" regex_pat ++ rest)%string /\
      (rest = EmptyString \/ startswith rest "_" = true) /\
      contains (subject_group_key subject_id "first_token" regex_pat) "_" = false) /\
  subject_group_key subject_id "regex" None = strip subject_id /\
  (String.eqb mode "first_token" || String.eqb mode "regex" = false ->
   subject_group_key subject_id mode regex_pat = strip subject_id).
Proof.
  unfold subject_group_key. rewrite strip_idem.
  split; [reflexivity|].
  destruct (strip subject_id) as [|c r] eqn:E; cbn [nonempty negb].
  - split; [reflexivity|]. split; [exists EmptyString; auto|].
    split; [reflexivity|]. intros _. reflexivity.
  - split; [reflexivity|]. split; [|split; [reflexivity|]].
    + cbn [String.eqb Ascii.eqb Bool.eqb andb].
      change (String.eqb "first_token" "exact") with false.
      change (String.eqb "first_token" "first_token") with true.
      cbv iota. apply split_first_prefix.
    + intros Hmode. apply orb_false_elim in Hmode. destruct Hmode as [-> ->].
      now destruct (String.eqb mode "exact").
Qed.

(** ** Where the rows of B.csv come from *)

Lemma enrich_In (rows : list dict) (e : erow) :
  In e (enrich rows) ->
  exists r, In r rows /\ row e = project r /\
            parse_timestamp_from_texts [get r "image_path" ""; get r "image_uid" ""]
              = Some (dt e).
Proof.
  induction rows as [|r rows IH]; cbn [enrich]; [intros []|].
  destruct (parse_timestamp_from_texts _) as [d|] eqn:E.
  - intros [<- | Hin].
    + exists r. cbn [row dt]. split; [now left | auto].
    + destruct (IH Hin) as (r0 & H0 & H1). exists r0. split; [now right | exact H1].
  - intros Hin. destruct (IH Hin) as (r0 & H0 & H1). exists r0. split; [now right | exact H1].
Qed.

Lemma enrich_filter (rows : list dict) :
  enrich (filter has_timestamp rows) = enrich rows.
Proof.
  induction rows as [|r rows IH]; [reflexivity|].
  cbn [filter enrich]. unfold has_timestamp at 1.
  destruct (parse_timestamp_from_texts _) as [d|] eqn:E; [|exact IH].
  cbn [enrich]. now rewrite E, IH.
Qed.

Lemma enrich_none (rows : list dict) :
  (forall r, In r rows -> has_timestamp r = false) -> enrich rows = [].
Proof.
  induction rows as [|r rows IH]; intros H; [reflexivity|].
  cbn [enrich]. pose proof (H r (or_introl eq_refl)) as Hr. unfold has_timestamp in Hr.
  destruct (parse_timestamp_from_texts _); [discriminate|].
  apply IH. intros r0 H0. apply H. now right.
Qed.

(** ** The number of pairs of a group *)

Section Counts.
Variable pairing : string.
Variable td_thresh : timedelta.
Variable same_split : bool.
Variable cap : Z.

Local Open Scope nat_scope.

Lemma filter_length_le {A : Type} (f : A -> bool) (l : list A) :
  List.length (filter f l) <= List.length l.
Proof.
  induction l as [|x l IH]; cbn [filter List.length]; [lia|].
  destruct (f x); cbn [List.length]; lia.
Qed.

Lemma ordered_pairs_length {A : Type} (l : list A) :
  2 * List.length (ordered_pairs l) = List.length l * (List.length l - 1).
Proof.
  induction l as [|x l IH]; [reflexivity|].
  cbn [ordered_pairs]. rewrite length_app, length_map. cbn [List.length].
  replace (S (List.length l) - 1) with (List.length l) by lia.
  destruct l as [|y l]; [reflexivity|].
  cbn [List.length] in *. nia.
Qed.

Lemma qualifying_pairs_length (lst : list erow) :
  2 * List.length (qualifying_pairs td_thresh same_split lst)
  <= List.length lst * (List.length lst - 1).
Proof.
  induction lst as [|x l IH]; [cbn; lia|].
  cbn [qualifying_pairs]. rewrite length_app, length_map. cbn [List.length].
  pose proof (filter_length_le (qualifies td_thresh same_split x) l) as Hf.
  replace (S (List.length l) - 1) with (List.length l) by lia.
  destruct l as [|y l]; [cbn in *; lia|].
  cbn [List.length] in *. nia.
Qed.

Lemma filter_all_In {A : Type} (f : A -> bool) (l : list A) :
  (forall x, In x l -> f x = true) -> filter f l = l.
Proof.
  induction l as [|x l IH]; intros H; [reflexivity|].
  cbn [filter]. rewrite (H x (or_introl eq_refl)). f_equal.
  apply IH. intros y Hy. apply H. now right.
Qed.

(** Without a threshold and without the split test, every later row of a
    sorted group qualifies. *)
Lemma qualifying_pairs_all (lst : list erow) :
  (td_thresh <= 0)%Z -> same_split = false ->
  StronglySorted not_later lst ->
  qualifying_pairs td_thresh same_split lst = ordered_pairs lst.
Proof.
  intros Htd Hss Hs. induction Hs as [|x l Hs IH Hall]; [reflexivity|].
  cbn [qualifying_pairs ordered_pairs]. rewrite IH. f_equal. f_equal.
  apply filter_all_In. intros y Hy.
  rewrite Forall_forall in Hall. specialize (Hall y Hy).
  unfold qualifies, split_differs, gap_too_small, dt_sub, not_later in *.
  rewrite Hss. cbn [andb negb]. apply negb_true_iff. apply Z.ltb_ge. nia.
Qed.

Lemma sort_by_dt_length (lst : list erow) :
  List.length (sort_by_dt lst) = List.length lst.
Proof. apply Permutation_length, sort_by_dt_perm. Qed.

Lemma group_pairs_all_mode (lst : list erow) :
  String.eqb pairing "edge" = false ->
  group_pairs pairing td_thresh same_split cap lst =
  if List.length lst <? 2 then []
  else capped cap 0 (qualifying_pairs td_thresh same_split (sort_by_dt lst)).
Proof.
  intros Hmode. unfold group_pairs. rewrite Hmode.
  destruct (List.length lst <? 2); [reflexivity|].
  apply outer_pairs_take. apply cap_reached_false. lia.
Qed.

(** X6: the number of pairs that a group of [n] timestamped rows
    contributes is at most [n (n - 1) / 2]; in mode [edge] it is at most one;
    in mode [all] with a positive cap it is at most the cap. *)
Theorem group_pair_count_bounds (lst : list erow) :
  2 * List.length (group_pairs pairing td_thresh same_split cap lst)
    <= List.length lst * (List.length lst - 1) /\
  List.length (group_pairs pairing td_thresh same_split cap lst)
    <= (if String.eqb pairing "edge" then 1
        else if (0 <? cap)%Z then Z.to_nat cap
        else List.length lst * (List.length lst - 1) / 2).
Proof.
  destruct (String.eqb pairing "edge") eqn:Hmode.
  - unfold group_pairs. rewrite Hmode.
    destruct (List.length lst <? 2) eqn:Hn; [cbn [List.length]; lia|].
    apply Nat.ltb_ge in Hn.
    assert (Hbig : 2 <= List.length lst * (List.length lst - 1)) by nia.
    destruct (sort_by_dt lst) as [|A_ t]; [cbn [List.length]; lia|].
    cbv beta iota zeta.
    destruct (split_differs same_split A_ (last (A_ :: t) A_)); [cbn [List.length]; lia|].
    destruct (gap_too_small td_thresh A_ (last (A_ :: t) A_)); cbn [List.length]; lia.
  - rewrite (group_pairs_all_mode lst Hmode).
    destruct (List.length lst <? 2) eqn:Hn; [cbn [List.length]; destruct (0 <? cap)%Z; lia|].
    pose proof (qualifying_pairs_length (sort_by_dt lst)) as Hq.
    rewrite sort_by_dt_length in Hq.
    unfold capped. destruct (0 <? cap)%Z.
    + rewrite length_firstn. replace (cap - 0)%Z with cap by lia. split; lia.
    + split; [exact Hq|]. apply Nat.div_le_lower_bound; lia.
Qed.

(** X7: in mode [all] without a cap, without a threshold and without the
    split test, a group contributes every pair of two of its rows, the
    earlier row first: with the group sorted by timestamp, the pairs
    [(row i, row j)] for all [i < j], which are [n (n - 1) / 2] pairs for
    [n] rows. *)
Theorem unconstrained_all_mode_pairs_every_two_rows (lst : list erow) :
  String.eqb pairing "edge" = false ->
  (td_thresh <= 0)%Z -> (cap <= 0)%Z -> same_split = false ->
  group_pairs pairing td_thresh same_split cap lst = ordered_pairs (sort_by_dt lst) /\
  2 * List.length (group_pairs pairing td_thresh same_split cap lst)
    = List.length lst * (List.length lst - 1).
Proof.
  intros Hmode Htd Hcap Hss.
  assert (E : group_pairs pairing td_thresh same_split cap lst
              = ordered_pairs (sort_by_dt lst)).
  { rewrite (group_pairs_all_mode lst Hmode).
    destruct (List.length lst <? 2) eqn:Hn.
    - apply Nat.ltb_lt in Hn.
      destruct lst as [|x [|y l]]; [reflexivity | reflexivity | cbn [List.length] in Hn; lia].
    - unfold capped. replace (0 <? cap)%Z with false by (symmetry; apply Z.ltb_ge; lia).
      apply qualifying_pairs_all; [exact Htd | exact Hss | apply sort_by_dt_sorted]. }
  split; [exact E|].
  rewrite E, ordered_pairs_length. now rewrite sort_by_dt_length.
Qed.

End Counts.

(** The theorem at the three yearly visits of the examples. *)
Lemma unconstrained_all_mode_pairs_every_two_rows_witness :
  group_pairs "all" 0 false 0 (enrich Examples.three_visits)
    = ordered_pairs (sort_by_dt (enrich Examples.three_visits)) /\
  (2 * List.length (group_pairs "all" 0%Z false 0%Z (enrich Examples.three_visits))
   = List.length (enrich Examples.three_visits)
     * (List.length (enrich Examples.three_visits) - 1))%nat.
Proof.
  exact (unconstrained_all_mode_pairs_every_two_rows
           "all" 0 false 0 (enrich Examples.three_visits)
           eq_refl (Z.le_refl 0) (Z.le_refl 0) eq_refl).
Defined.

(** ** The groups *)

Lemma setdefault_append_concat {A : Type} (gs : list (string * list A))
      (k : string) (v : A) :
  Permutation (List.concat (map snd (setdefault_append gs k v)))
              (List.concat (map snd gs) ++ [v]).
Proof.
  induction gs as [|[k0 l] gs IH]; cbn [setdefault_append map snd List.concat].
  - reflexivity.
  - destruct (String.eqb k0 k); cbn [map snd List.concat].
    + rewrite <- !app_assoc. apply Permutation_app_head. apply Permutation_app_comm.
    + rewrite <- app_assoc. now apply Permutation_app_head.
Qed.

Lemma enrich_length (rows : list dict) :
  List.length (enrich rows) = List.length (filter has_timestamp rows).
Proof.
  induction rows as [|r rows IH]; [reflexivity|].
  cbn [enrich filter]. unfold has_timestamp at 1.
  destruct (parse_timestamp_from_texts _); cbn [List.length]; now rewrite ?IH.
Qed.

Section Partition.
Variable subject_group : string.
Variable subject_regex : option (string -> option string).

Local Abbreviation groups := (group_rows subject_group subject_regex).

Lemma group_rows_concat (enriched : list erow) :
  Permutation (List.concat (map snd (groups enriched))) enriched.
Proof.
  induction enriched as [|r e IH] using rev_ind; [reflexivity|].
  rewrite group_rows_snoc, setdefault_append_concat.
  now apply Permutation_app_tail.
Qed.

(** X8: the groups of [build_B] partition the rows for which a timestamp
    is found: the grouping keys are pairwise distinct, no group is empty,
    and the groups put end to end are a rearrangement of those rows, none
    lost and none repeated, so the group sizes add up to their number. *)
Theorem groups_partition_timestamped_rows (rows : list dict) :
  NoDup (map fst (groups (enrich rows))) /\
  Forall (fun kl => snd kl <> []) (groups (enrich rows)) /\
  Permutation (List.concat (map snd (groups (enrich rows)))) (enrich rows) /\
  list_sum (map (fun kl => List.length (snd kl)) (groups (enrich rows)))
    = List.length (filter has_timestamp rows).
Proof.
  destruct (group_rows_spec subject_group subject_regex (enrich rows))
    as (Hn & _ & Hgrp).
  split; [exact Hn|]. split; [|split].
  - apply Forall_forall. intros [k l] Hl. exact (proj1 (Hgrp _ _ Hl)).
  - apply group_rows_concat.
  - rewrite <- enrich_length, <- (Permutation_length (group_rows_concat (enrich rows))).
    clear Hn Hgrp.
    induction (groups (enrich rows)) as [|[k l] gs IH]; [reflexivity|].
    cbn [map snd List.concat list_sum fold_right]. rewrite length_app.
    unfold list_sum in IH. now rewrite IH.
Qed.

End Partition.

Section Outputs.
Context {F : PyFloat}.
Variable pairing : string.
Variable min_days : Z.
Variable min_years : float.
Variable same_split : bool.
Variable cap : Z.
Variable subject_group : string.
Variable subject_regex : option (string -> option string).

Local Abbreviation B :=
  (build_B pairing min_days min_years same_split cap subject_group subject_regex).
Local Abbreviation accepted :=
  (accepted_pairs pairing min_days min_years same_split cap subject_group subject_regex).
Local Abbreviation key r :=
  (subject_group_key (subject_id (row r)) subject_group
                     (regex_pat subject_group subject_regex)).
(** The two rows of an accepted pair are enriched rows of one grouping key. *)
Lemma accepted_pairs_group (rows : list dict) (p : erow * erow) :
  In p (accepted rows) ->
  In (fst p) (enrich rows) /\ In (snd p) (enrich rows) /\ key (fst p) = key (snd p) /\
  not_later (fst p) (snd p) /\
  qualifies (td_thresh min_days min_years) same_split (fst p) (snd p) = true.
Proof.
  intros Hp.
  destruct (accepted_pairs_In pairing min_days min_years same_split cap
              subject_group subject_regex rows p Hp)
    as (lst & Hl & Ha & Hb & Hle & Hq).
  apply in_map_iff in Hl. destruct Hl as ([k l] & E & Hl). cbn [snd] in E. subst l.
  destruct (group_rows_spec subject_group subject_regex (enrich rows)) as (_ & _ & Hgrp).
  destruct (Hgrp _ _ Hl) as [_ Hfilter].
  rewrite Hfilter in Ha, Hb. apply filter_In in Ha, Hb.
  destruct Ha as [Ha Hka], Hb as [Hb Hkb].
  apply String.eqb_eq in Hka, Hkb.
  split; [exact Ha|]. split; [exact Hb|]. split; [congruence|]. auto.
Qed.

Lemma B_rows_In (rows : list dict) (b : DatasetRow) :
  In b (B rows) ->
  exists r, In r rows /\ b = project r /\ has_timestamp r = true.
Proof.
  rewrite build_B_pairs. rewrite in_flat_map. intros (p & Hp & Hb).
  destruct (accepted_pairs_group rows p Hp) as (Ha & Hb' & _).
  assert (He : exists e, In e (enrich rows) /\ b = row e).
  { destruct Hb as [<- | [<- | []]]; eauto. }
  destruct He as (e & He & ->).
  destruct (enrich_In rows e He) as (r & Hr & Hrow & Hts).
  exists r. split; [exact Hr|]. split; [exact Hrow|].
  unfold has_timestamp. now rewrite Hts.
Qed.

(** X9: every accepted pair, whatever the pairing mode, is made of two
    timestamped rows with the same grouping key, the first not later than
    the second, at least [td_thresh] apart, and of equal split when
    [same_split] is set; the rows of B.csv are these pairs, two rows each. *)
Theorem accepted_pairs_meet_constraints (rows : list dict) :
  B rows = flat_map pair_rows (accepted rows) /\
  Forall
    (fun p =>
       In (fst p) (enrich rows) /\ In (snd p) (enrich rows) /\
       key (fst p) = key (snd p) /\
       seconds_of (dt (fst p)) <= seconds_of (dt (snd p)) /\
       td_thresh min_days min_years <= dt_sub (dt (snd p)) (dt (fst p)) /\
       (same_split = true -> split (row (fst p)) = split (row (snd p))))
    (accepted rows).
Proof.
  split; [apply build_B_pairs|].
  apply Forall_forall. intros p Hp.
  destruct (accepted_pairs_group rows p Hp) as (Ha & Hb & Hk & Hle & Hq).
  unfold qualifies in Hq. apply andb_prop in Hq. destruct Hq as [Hs Hg].
  apply negb_true_iff in Hs, Hg.
  destruct (proj1 (edge_tests min_days min_years same_split (fst p) (snd p))
                  (conj Hs Hg)) as [Hsplit Hgap].
  auto 7.
Qed.

(** X10: B.csv depends on the timestamped rows only: removing from the
    input the rows for which no timestamp is found changes neither the pairs
    nor the rows written, and an input without timestamped rows gives an
    empty B.csv. *)
Theorem rows_without_timestamp_are_ignored (rows : list dict) :
  B (filter has_timestamp rows) = B rows /\
  accepted (filter has_timestamp rows) = accepted rows /\
  ((forall r, In r rows -> has_timestamp r = false) -> B rows = []).
Proof.
  unfold build_B, accepted_pairs. rewrite enrich_filter.
  split; [reflexivity|]. split; [reflexivity|].
  intros Hnone. now rewrite (enrich_none rows Hnone).
Qed.

End Outputs.

Section MainOutputs.
Context {F : PyFloat}.
Variable split_filter : string.
Variable pairing : string.
Variable min_days : Z.
Variable min_years : float.
Variable same_split : bool.
Variable cap : Z.
Variable subject_group : string.
Variable subject_regex : option (string -> option string).

Local Abbreviation run :=
  (main split_filter pairing min_days min_years same_split cap subject_group
        subject_regex).

(** X11: A.csv holds one row per row in scope, in the input order, and
    every row of B.csv is a row of A.csv, built from an input row for which
    a timestamp is found.  With a split filter, the rows in scope are the
    rows whose split is one of the names of the filter, so every row of
    A.csv and of B.csv has such a split. *)
Theorem main_outputs_in_scope (rows : list dict) :
  fst (run rows) = map project (rows_in_scope split_filter rows) /\
  List.length (fst (run rows)) = List.length (rows_in_scope split_filter rows) /\
  (forall b, In b (snd (run rows)) ->
     In b (fst (run rows)) /\
     exists r, In r rows /\ b = project r /\ has_timestamp r = true) /\
  (nonempty split_filter = true ->
   forall a, In a (fst (run rows)) ->
     In (split a) (allow split_filter) /\ split a <> EmptyString) /\
  (nonempty split_filter = false -> rows_in_scope split_filter rows = rows).
Proof.
  unfold main. cbn [fst snd]. unfold build_A.
  assert (Hscope : forall r, In r (rows_in_scope split_filter rows) -> In r rows).
  { unfold rows_in_scope. destruct (nonempty split_filter); [|auto].
    intros r Hr. apply filter_In in Hr. tauto. }
  split; [reflexivity|]. split; [apply length_map|]. split; [|split].
  - intros b Hb.
    destruct (B_rows_In pairing min_days min_years same_split cap subject_group
                        subject_regex _ b Hb) as (r & Hr & -> & Hts).
    split; [now apply in_map|]. exists r. auto.
  - intros Hne a Ha. apply in_map_iff in Ha. destruct Ha as (r & <- & Hr).
    unfold rows_in_scope in Hr. rewrite Hne in Hr. apply filter_In in Hr.
    destruct Hr as [_ Hr]. apply in_set_spec in Hr.
    change (split (project r)) with (get r "split" "").
    split; [exact Hr|].
    unfold allow in Hr. apply filter_In in Hr. destruct Hr as [_ Hr].
    intros E. rewrite E in Hr. discriminate.
  - intros Hne. unfold rows_in_scope. now rewrite Hne.
Qed.

End MainOutputs.

End PairingEngineFacts.

(* ================================================================== *)
(** * Diagnosis codes, header lookup and the merged rows
      (prepare_csv_build.py) *)
(* ================================================================== *)

Module BuildDatasetFacts.
Import PyStr PyStrFacts PyDict Row PyRe PrepareCsvBuild HeaderVocabulary.
Import NormalizeSexFacts RowBuilderFacts ColFinderFacts AutoSplitFacts.
Local Open Scope list_scope.

(** ** [normalize_dx] *)

Lemma normalize_dx_cases (v : string) :
  (In (upper (strip v)) ["CN"; "CONTROL"; "NORMAL"] /\ normalize_dx v = "0") \/
  (~ In (upper (strip v)) ["CN"; "CONTROL"; "NORMAL"] /\
   In (upper (strip v)) ["MCI"; "EMCI"; "LMCI"] /\ normalize_dx v = "0.5") \/
  (~ In (upper (strip v)) ["CN"; "CONTROL"; "NORMAL"] /\
   ~ In (upper (strip v)) ["MCI"; "EMCI"; "LMCI"] /\
   In (upper (strip v)) ["AD"; "DEMENTIA"; "ALZHEIMERS"] /\ normalize_dx v = "1") \/
  (~ In (upper (strip v)) ["CN"; "CONTROL"; "NORMAL"] /\
   ~ In (upper (strip v)) ["MCI"; "EMCI"; "LMCI"] /\
   ~ In (upper (strip v)) ["AD"; "DEMENTIA"; "ALZHEIMERS"] /\ normalize_dx v = "").
Proof.
  unfold normalize_dx.
  destruct (in_set (upper (strip v)) ["CN"; "CONTROL"; "NORMAL"]) eqn:E0.
  { left. split; [now apply in_set_spec | reflexivity]. }
  assert (H0 : ~ In (upper (strip v)) ["CN"; "CONTROL"; "NORMAL"])
    by (rewrite <- in_set_spec; congruence).
  destruct (in_set (upper (strip v)) ["MCI"; "EMCI"; "LMCI"]) eqn:E1.
  { right; left. split; [exact H0|]. split; [now apply in_set_spec | reflexivity]. }
  assert (H1 : ~ In (upper (strip v)) ["MCI"; "EMCI"; "LMCI"])
    by (rewrite <- in_set_spec; congruence).
  destruct (in_set (upper (strip v)) ["AD"; "DEMENTIA"; "ALZHEIMERS"]) eqn:E2.
  { right; right; left. split; [exact H0|]. split; [exact H1|].
    split; [now apply in_set_spec | reflexivity]. }
  right; right; right. split; [exact H0|]. split; [exact H1|].
  split; [rewrite <- in_set_spec; congruence | reflexivity].
Qed.

Lemma normalize_dx_range (v : string) : In (normalize_dx v) ["0"; "0.5"; "1"; ""].
Proof.
  cbn [In].
  destruct (normalize_dx_cases v)
    as [[_ ->] | [(_ & _ & ->) | [(_ & _ & _ & ->) | (_ & _ & _ & ->)]]]; auto.
Qed.

(** X12: [normalize_dx] maps every cell to one of the codes [0], [0.5],
    [1] or to the empty string, by the upper-cased stripped cell alone: the
    code is [0] exactly for CN, CONTROL and NORMAL, [0.5] exactly for MCI,
    EMCI and LMCI, [1] exactly for AD, DEMENTIA and ALZHEIMERS.  The codes
    are not labels themselves: normalising a result again gives the empty
    string. *)
Theorem normalize_dx_codes (v : string) :
  In (normalize_dx v) ["0"; "0.5"; "1"; ""] /\
  normalize_dx (upper (strip v)) = normalize_dx v /\
  (normalize_dx v = "0" <-> In (upper (strip v)) ["CN"; "CONTROL"; "NORMAL"]) /\
  (normalize_dx v = "0.5" <-> In (upper (strip v)) ["MCI"; "EMCI"; "LMCI"]) /\
  (normalize_dx v = "1" <-> In (upper (strip v)) ["AD"; "DEMENTIA"; "ALZHEIMERS"]) /\
  normalize_dx (normalize_dx v) = "".
Proof.
  split; [apply normalize_dx_range|].
  split; [unfold normalize_dx; now rewrite cleaned_idem|].
  assert (Hdisj : forall x,
             In x ["CN"; "CONTROL"; "NORMAL"] ->
             ~ In x ["MCI"; "EMCI"; "LMCI"] /\ ~ In x ["AD"; "DEMENTIA"; "ALZHEIMERS"]).
  { intros x Hx. cbn [In] in *.
    split; intros H; repeat (destruct Hx as [<- | Hx]; [intuition discriminate|]);
      exact Hx. }
  assert (Hdisj' : forall x,
             In x ["MCI"; "EMCI"; "LMCI"] -> ~ In x ["AD"; "DEMENTIA"; "ALZHEIMERS"]).
  { intros x Hx. cbn [In] in *.
    intros H; repeat (destruct Hx as [<- | Hx]; [intuition discriminate|]); exact Hx. }
  destruct (normalize_dx_cases v)
    as [[H0 E] | [(H0 & H1 & E) | [(H0 & H1 & H2 & E) | (H0 & H1 & H2 & E)]]];
    rewrite E.
  - pose proof (Hdisj _ H0) as [H1 H2].
    split; [tauto|]. split; [split; [discriminate | tauto]|].
    split; [split; [discriminate | tauto] | reflexivity].
  - pose proof (Hdisj' _ H1) as H2.
    split; [split; [discriminate | tauto]|]. split; [tauto|].
    split; [split; [discriminate | tauto] | reflexivity].
  - split; [split; [discriminate | tauto]|].
    split; [split; [discriminate | tauto]|]. split; [tauto | reflexivity].
  - split; [split; [discriminate | tauto]|].
    split; [split; [discriminate | tauto]|].
    split; [split; [discriminate | tauto] | reflexivity].
Qed.

(** ** The canonical dictionary of [ColFinder] *)

Lemma lower_char_kept (c : ascii) :
  islower c || isdigit c = true -> lower_char c = c.
Proof.
  unfold lower_char, islower, isdigit, isupper. intros H.
  replace ((65 <=? ord c) && (ord c <=? 90)) with false; [reflexivity|].
  symmetry. apply andb_false_iff.
  apply orb_prop in H. destruct H as [H | H]; apply andb_prop in H; lia.
Qed.

Lemma canon_key_idem (h : string) :
  ColFinder.canon_key (ColFinder.canon_key h) = ColFinder.canon_key h.
Proof.
  unfold ColFinder.canon_key. generalize (lower h). intros s.
  induction s as [|c s IH]; [reflexivity|].
  cbn [filter_str]. destruct (islower c || isdigit c) eqn:E; [|exact IH].
  unfold lower in *. cbn [map_str filter_str].
  rewrite (lower_char_kept c E), E. now rewrite IH.
Qed.

Lemma NoDup_map_fst_filter {A B : Type} (f : A * B -> bool) (l : list (A * B)) :
  NoDup (map fst l) -> NoDup (map fst (filter f l)).
Proof.
  induction l as [|x l IH]; intros H; [constructor|].
  inversion H as [|y m Hnot Hnd]; subst. cbn [filter].
  destruct (f x); [|now apply IH].
  cbn [map]. constructor; [|now apply IH].
  intros Hin. apply Hnot. apply in_map_iff in Hin. destruct Hin as (z & Ez & Hz).
  apply filter_In in Hz. rewrite <- Ez. apply in_map. tauto.
Qed.

Lemma init_invariants (headers : list string) :
  NoDup (map fst (ColFinder.init headers)) /\
  (forall kv, In kv (ColFinder.init headers) ->
     fst kv = ColFinder.canon_key (snd kv) /\ fst kv <> EmptyString /\
     first_with_key headers kv) /\
  (forall h, In h headers -> ColFinder.canon_key h <> EmptyString ->
     In (ColFinder.canon_key h) (map fst (ColFinder.init headers))).
Proof.
  induction headers as [|h rest (Hn & Hent & Hcov)].
  - split; [constructor|]. split; [intros kv [] | intros h []].
  - rewrite init_cons.
    destruct (nonempty (ColFinder.canon_key h)) eqn:Ek.
    + assert (Hk : ColFinder.canon_key h <> EmptyString)
        by (intros E; rewrite E in Ek; discriminate).
      split; [|split].
      * cbn [map fst]. constructor; [|now apply NoDup_map_fst_filter].
        intros Hin. apply in_map_iff in Hin. destruct Hin as ([k v] & Ez & Hz).
        apply filter_In in Hz. destruct Hz as [_ Hz]. cbn [fst] in *.
        rewrite Ez, String.eqb_refl in Hz. discriminate.
      * intros kv [<- | Hin].
        -- cbn [fst snd]. split; [reflexivity|]. split; [exact Hk|].
           exists [], rest. split; [reflexivity | constructor].
        -- apply filter_In in Hin. destruct Hin as [Hin Hneq].
           destruct (Hent kv Hin) as (E & Hne & pre & post & -> & Hpre).
           split; [exact E|]. split; [exact Hne|].
           exists (h :: pre), post. split; [reflexivity|].
           constructor; [|exact Hpre].
           intros E'. rewrite E', String.eqb_refl in Hneq. discriminate.
      * intros h0 [<- | Hin] Hne; [now left|].
        destruct (String.eqb_spec (ColFinder.canon_key h) (ColFinder.canon_key h0))
          as [E | Hneq]; [left; exact E|].
        right. specialize (Hcov h0 Hin Hne).
        apply in_map_iff in Hcov. destruct Hcov as ([k v] & Ez & Hz). cbn [fst] in Ez.
        subst k. apply in_map_iff. exists (ColFinder.canon_key h0, v).
        split; [reflexivity|]. apply filter_In. split; [exact Hz|]. cbn [fst].
        now apply negb_true_iff, String.eqb_neq.
    + assert (Hk : ColFinder.canon_key h = EmptyString)
        by (destruct (ColFinder.canon_key h); [reflexivity | discriminate]).
      split; [exact Hn|]. split.
      * intros kv Hin. destruct (Hent kv Hin) as (E & Hne & pre & post & -> & Hpre).
        split; [exact E|]. split; [exact Hne|].
        exists (h :: pre), post. split; [reflexivity|].
        constructor; [congruence | exact Hpre].
      * intros h0 [<- | Hin] Hne; [congruence | now apply Hcov].
Qed.

(** X13: the dictionary [canon] of a [ColFinder] has pairwise distinct
    keys; each key is the canonical form of its header, is not empty and is
    canonical itself (made of [a-z0-9] only); its header is the first of the
    header list with that canonical form; and every header whose canonical
    form is not empty has that form among the keys. *)
Theorem canon_dictionary_invariants (headers : list string) :
  NoDup (map fst (ColFinder.init headers)) /\
  Forall
    (fun kv =>
       fst kv = ColFinder.canon_key (snd kv) /\ fst kv <> EmptyString /\
       ColFinder.canon_key (fst kv) = fst kv /\
       first_with_key headers kv)
    (ColFinder.init headers) /\
  Forall
    (fun h =>
       ColFinder.canon_key h = EmptyString \/
       In (ColFinder.canon_key h) (map fst (ColFinder.init headers)))
    headers.
Proof.
  destruct (init_invariants headers) as (Hn & Hent & Hcov).
  split; [exact Hn|]. split.
  - apply Forall_forall. intros kv Hin.
    destruct (Hent kv Hin) as (E & Hne & Hfirst).
    split; [exact E|]. split; [exact Hne|]. split; [|exact Hfirst].
    rewrite E. apply canon_key_idem.
  - apply Forall_forall. intros h Hin.
    destruct (ColFinder.canon_key h) as [|c r] eqn:E; [now left|].
    right. rewrite <- E. apply Hcov; [exact Hin|]. rewrite E. discriminate.
Qed.

(** ** What [find] returns *)

Section FindHeader.
Context {pattern : Type} `{Regex pattern}.

Local Abbreviation hit rx k := (re_fullmatch rx k || re_search rx k).

(** X14: [find] on the headers of a sheet returns one of these headers,
    with a non-empty canonical form that one of the patterns matches; and it
    returns nothing only when no pattern matches the canonical form of any
    header. *)
Theorem find_returns_a_given_header (headers : list string) (patterns : list pattern) :
  match ColFinder.find (ColFinder.init headers) patterns with
  | Some h =>
      In h headers /\ ColFinder.canon_key h <> EmptyString /\
      exists pat, In pat patterns /\ hit pat (ColFinder.canon_key h) = true
  | None =>
      forall pat h, In pat patterns -> In h headers ->
        ColFinder.canon_key h <> EmptyString ->
        hit pat (ColFinder.canon_key h) = false
  end.
Proof.
  destruct (init_invariants headers) as (Hn & Hent & Hcov).
  destruct (find_spec (ColFinder.init headers) patterns)
    as [[E Hall] | (ps1 & pat & ps2 & c1 & k & orig & c2 & Ep & Ec & E & _ & _ & Hk)];
    rewrite E.
  - intros pat h Hpat Hh Hne.
    specialize (Hcov h Hh Hne). apply in_map_iff in Hcov.
    destruct Hcov as (kv & Ekv & Hkv). rewrite <- Ekv. now apply Hall.
  - assert (Hin : In (k, orig) (ColFinder.init headers))
      by (rewrite Ec; apply in_elt).
    destruct (Hent _ Hin) as (Ek & Hne & pre & post & Eh & _). cbn [fst snd] in *.
    split; [rewrite Eh; apply in_elt|]. split; [congruence|].
    exists pat. split; [rewrite Ep; apply in_elt | congruence].
Qed.

End FindHeader.

(** ** The test of line 85 on the patterns of [build_dataset] *)

Lemma matches_mono (r : regex) :
  forall at0 s (k k' : bool -> string -> bool),
    (forall b t, k b t = true -> k' b t = true) ->
    matches r at0 s k = true -> matches r at0 s k' = true.
Proof.
  induction r as [|c|a IHa b IHb|a IHa| |]; intros at0 s k k' Hk; cbn [matches].
  - apply Hk.
  - destruct s as [|d s']; [auto|]. destruct (Ascii.eqb c d); [apply Hk | auto].
  - apply IHa. intros b0 t. now apply IHb.
  - intros Hm. apply orb_prop in Hm. apply orb_true_iff.
    destruct Hm as [Hm | Hm]; [left; now apply (IHa _ _ k) | right; now apply Hk].
  - destruct at0; [apply Hk | auto].
  - destruct s as [|c [|d s']]; [apply Hk | | auto].
    destruct (Ascii.eqb c "010"); [apply Hk | auto].
Qed.

(** X15: for a pattern written with literals, optional groups and the two
    anchors, as all header patterns of [build_dataset] are, a full match is
    also a match somewhere in the key; so the test [rx.fullmatch(k) or
    rx.search(k)] of line 85 is [rx.search(k)], and the loop over [canon]
    returns the first header whose key the pattern matches somewhere. *)
Theorem fullmatch_test_is_search (rx : regex) (canon : list (string * string)) :
  (forall k, fullmatch rx k = true -> search rx k = true) /\
  (forall k, re_fullmatch rx k || re_search rx k = re_search rx k) /\
  ColFinder.find_in rx canon = ColFinder.find_sub rx canon.
Proof.
  assert (Himp : forall k, fullmatch rx k = true -> search rx k = true).
  { intros k Hf. unfold search. destruct k as [|c k]; cbn [search_at];
      apply orb_true_iff; left;
      apply (matches_mono rx _ _ _ (fun _ _ => true) (fun _ _ _ => eq_refl) Hf). }
  assert (Hor : forall k, re_fullmatch rx k || re_search rx k = re_search rx k).
  { intros k. cbn [re_fullmatch re_search regex_Regex].
    destruct (fullmatch rx k) eqn:E; [|reflexivity].
    now rewrite (Himp k E). }
  split; [exact Himp|]. split; [exact Hor|].
  induction canon as [|[k orig] rest IH]; [reflexivity|].
  cbn [ColFinder.find_in ColFinder.find_sub]. now rewrite Hor, IH.
Qed.

(** ** The merged rows *)

Section MergedRows.
Variable cols : Columns.
Variable find_adni : dict -> option dict.
Variable path_map : list (string * dict).
Variable format_age : string -> string.

Local Abbreviation merged := (merge cols find_adni path_map format_age).

Lemma sex_code_range (v : string) : In (sex_code v) ["0"; "1"; ""].
Proof.
  unfold sex_code. cbn [In].
  destruct (String.eqb v "M"); [auto|]. destruct (String.eqb v "F"); auto.
Qed.

(** X16: the merge emits at most one row per manifest row, in the
    manifest order, and every row it emits has a subject id or an image id;
    its sex is [0], [1] or empty, its diagnosis is [0], [0.5], [1] or empty
    and is repeated as last diagnosis, and its latent path is empty. *)
Theorem merged_rows_invariants (manifest_rows : list dict) :
  (List.length (merged manifest_rows) <= List.length manifest_rows)%nat /\
  Forall
    (fun r =>
       (subject_id r <> EmptyString \/ image_uid r <> EmptyString) /\
       In (sex r) ["0"; "1"; ""] /\
       In (diagnosis r) ["0"; "0.5"; "1"; ""] /\
       last_diagnosis r = diagnosis r /\
       latent_path r = EmptyString)
    (merged manifest_rows).
Proof.
  induction manifest_rows as [|mr rest [IHlen IHall]]; cbn [merge List.length].
  - split; [lia | constructor].
  - destruct (merge_row cols find_adni path_map format_age mr) as [r|] eqn:E.
    + split; [cbn [List.length]; lia|]. constructor; [|exact IHall].
      unfold merge_row in E.
      destruct (negb (nonempty (subj_of cols find_adni mr))
                && negb (nonempty (uid_of cols find_adni mr))) eqn:Eskip;
        [discriminate|].
      injection E as <-.
      cbn [subject_id image_uid sex diagnosis last_diagnosis latent_path].
      split; [|split; [apply sex_code_range|]].
      * apply andb_false_iff in Eskip.
        destruct Eskip as [Hs | Hu]; apply negb_false_iff in Hs || apply negb_false_iff in Hu.
        -- left. intros E. rewrite E in Hs. discriminate.
        -- right. intros E. rewrite E in Hu. discriminate.
      * split; [apply normalize_dx_range | auto].
    + split; [lia | exact IHall].
Qed.

End MergedRows.

(** ** After the automatic split *)

Section SplitAll.
Variable rng : Type.
Variable shuffle : rng -> list nat -> list nat * rng.
Hypothesis shuffle_perm : forall g l, Permutation (fst (shuffle g l)) l.

(** What the automatic split does to each row. *)
Lemma auto_split_pointwise (g : rng) (out_rows : list DatasetRow) :
  exists rows',
    auto_split_rows rng shuffle g out_rows = Some rows' /\
    List.length rows' = List.length out_rows /\
    forall i r,
      nth_error out_rows i = Some r ->
      exists sp,
        nth_error rows' i = Some (fill_split r sp) /\
        (sp = "train" \/ sp = "val" \/ sp = "test").
Proof.
  destruct (index_by_subject_spec out_rows) as (Hn & Hcov & Hgrp).
  destruct (split_groups_spec rng shuffle shuffle_perm out_rows
              (index_by_subject out_rows 0 []) g out_rows eq_refl Hn)
    as (rows' & E & Hlen & Hout & Hidx).
  { intros k l Hl. destruct (Hgrp k l Hl) as [Hnd Hiff].
    split; [exact Hnd|]. intros i Hi. now apply Hiff. }
  exists rows'. split; [exact E|]. split; [exact Hlen|].
  intros i r Hr.
  pose proof (Hcov i r Hr) as Hkey. apply in_map_iff in Hkey.
  destruct Hkey as ([k l] & Hk & Hl). cbn [fst] in Hk. subst k.
  destruct (Hgrp _ _ Hl) as [_ Hiff].
  destruct (Hidx _ _ Hl) as (order & Hperm & Hfill).
  assert (Hi : In i order).
  { apply (Permutation_in _ (Permutation_sym Hperm)). apply Hiff. eauto. }
  apply In_nth_error in Hi. destruct Hi as (j & Hj).
  eexists. split; [now apply (Hfill j i r)|]. apply split_label_cases.
Qed.

(** X17: after the automatic split no row is left without a split, and
    the split is stable: running it again, from any state of the random
    generator, returns the same rows. *)
Theorem auto_split_is_complete_and_stable (g : rng) (out_rows : list DatasetRow) :
  exists rows',
    auto_split_rows rng shuffle g out_rows = Some rows' /\
    List.length rows' = List.length out_rows /\
    Forall (fun r => split r <> EmptyString) rows' /\
    forall g', auto_split_rows rng shuffle g' rows' = Some rows'.
Proof.
  destruct (auto_split_pointwise g out_rows) as (rows' & E & Hlen & Hpt).
  exists rows'. split; [exact E|]. split; [exact Hlen|].
  assert (Hfull : Forall (fun r => split r <> EmptyString) rows').
  { apply Forall_forall. intros r' Hin.
    apply In_nth_error in Hin. destruct Hin as (i & Hi).
    assert (Hlt : (i < List.length out_rows)%nat)
      by (rewrite <- Hlen; apply nth_error_Some; congruence).
    destruct (nth_error out_rows i) as [r|] eqn:Er;
      [|apply nth_error_None in Er; lia].
    destruct (Hpt i r Er) as (sp & Hi' & Hsp).
    rewrite Hi in Hi'. injection Hi' as ->.
    destruct (fill_split_split r sp) as [Hkeep Hset].
    destruct (split r) as [|c s] eqn:Es.
    - rewrite (Hset eq_refl). cbn [split set_split].
      destruct Hsp as [-> | [-> | ->]]; discriminate.
    - rewrite Hkeep; [rewrite Es|]; discriminate. }
  split; [exact Hfull|].
  intros g'.
  destruct (auto_split_pointwise g' rows') as (rows'' & E' & Hlen' & Hpt').
  rewrite E'. f_equal. apply nth_error_ext. intros i.
  destruct (nth_error rows' i) as [r|] eqn:Er.
  - destruct (Hpt' i r Er) as (sp & Hi' & _). rewrite Hi'. f_equal.
    apply (proj1 (fill_split_split r sp)).
    rewrite Forall_forall in Hfull. apply Hfull. eapply nth_error_In; exact Er.
  - apply nth_error_None. rewrite Hlen'. now apply nth_error_None.
Qed.

End SplitAll.

(** The theorem at the reversing shuffle and the ten unsplit rows of the
    examples. *)
Lemma auto_split_is_complete_and_stable_witness :
  (forall g l, Permutation (fst (Examples.reverse_shuffle g l)) l) /\
  exists rows',
    auto_split_rows unit Examples.reverse_shuffle tt Examples.ten_unsplit_rows
      = Some rows' /\
    Forall (fun r => split r <> EmptyString) rows'.
Proof.
  assert (Hperm : forall g l, Permutation (fst (Examples.reverse_shuffle g l)) l)
    by (intros g l; simpl; apply Permutation_sym, Permutation_rev).
  split; [exact Hperm|].
  destruct (auto_split_is_complete_and_stable unit Examples.reverse_shuffle Hperm tt
              Examples.ten_unsplit_rows) as (rows' & E & _ & Hfull & _).
  exists rows'. split; [exact E | exact Hfull].
Defined.

End BuildDatasetFacts.

(* ================================================================== *)
(** * The ADNI look-up and the directory index (prepare_csv_build.py) *)
(* ================================================================== *)

Module AdniIndexFacts.
Import PyStr PyStrFacts PyDict Row Timestamp PyPath PrepareCsvBuild AdniIndex.
Import PairingFacts RowBuilderFacts.
Local Open Scope list_scope.

(** ** Dictionaries *)

Lemma lookup_dict_set {A : Type} (d : list (string * A)) (k k' : string) (v : A) :
  lookup (dict_set d k v) k' = if String.eqb k k' then Some v else lookup d k'.
Proof.
  induction d as [|[k0 v0] d IH]; cbn [dict_set lookup].
  - destruct (String.eqb k k'); reflexivity.
  - destruct (String.eqb_spec k0 k) as [-> | Hne]; cbn [lookup].
    + destruct (String.eqb k k'); reflexivity.
    + rewrite IH. destruct (String.eqb_spec k0 k') as [-> | Hne'];
        [|reflexivity].
      destruct (String.eqb_spec k k') as [E | _]; [congruence | reflexivity].
Qed.

Lemma get_dict_set (d : dict) (k k' v : string) :
  get (dict_set d k v) k' "" = if String.eqb k k' then v else get d k' "".
Proof.
  induction d as [|[k0 v0] d IH]; cbn [dict_set get].
  - destruct (String.eqb k k'); reflexivity.
  - destruct (String.eqb_spec k0 k) as [-> | Hne]; cbn [get].
    + destruct (String.eqb k k'); reflexivity.
    + rewrite IH. destruct (String.eqb_spec k0 k') as [-> | Hne'];
        [|reflexivity].
      destruct (String.eqb_spec k k') as [E | _]; [congruence | reflexivity].
Qed.

Lemma lookup_setdefault_append {A : Type} (gs : list (string * list A))
      (k k' : string) (v : A) :
  lookup (setdefault_append gs k v) k' =
  if String.eqb k k'
  then Some ((match lookup gs k with Some l => l | None => [] end) ++ [v])
  else lookup gs k'.
Proof.
  induction gs as [|[k0 l0] gs IH]; cbn [setdefault_append lookup].
  - destruct (String.eqb k k'); reflexivity.
  - destruct (String.eqb_spec k0 k) as [-> | Hne]; cbn [lookup].
    + destruct (String.eqb k k'); reflexivity.
    + rewrite IH. destruct (String.eqb_spec k0 k') as [-> | Hne'];
        [|reflexivity].
      destruct (String.eqb_spec k k') as [E | _]; [congruence | reflexivity].
Qed.

Lemma lookup_map_values {A B : Type} (f : A -> B) (gs : list (string * A)) (k : string) :
  lookup (map (fun kl => (fst kl, f (snd kl))) gs) k = option_map f (lookup gs k).
Proof.
  induction gs as [|[k0 l0] gs IH]; [reflexivity|].
  cbn [map lookup fst snd]. destruct (String.eqb k0 k); [reflexivity | exact IH].
Qed.

(** The last element of a list with a property, if there is one. *)
Lemma last_occurrence {A : Type} (P : A -> Prop) (dec : forall x, {P x} + {~ P x})
      (l : list A) :
  Forall (fun x => ~ P x) l \/
  exists pre x post, l = pre ++ x :: post /\ P x /\ Forall (fun y => ~ P y) post.
Proof.
  induction l as [|a l [IH | (pre & x & post & -> & Hx & Hpost)]].
  - left. constructor.
  - destruct (dec a) as [Ha | Ha].
    + right. exists [], a, l. auto.
    + left. now constructor.
  - right. exists (a :: pre), x, post. auto.
Qed.

(** ** The two indexes *)

Section Index.
Variable parse_date : string -> option datetime.
Variable cols : Columns.
Variable adni_date_col : option string.
Variable man_date_col : option string.

Local Abbreviation uid_of_row := (adni_uid_of cols).
Local Abbreviation subj_of_row := (adni_subj_of cols).
Local Abbreviation date_of_row := (adni_date_of parse_date adni_date_col).
Local Abbreviation entry_of_row := (entry_of parse_date adni_date_col).
Local Abbreviation by_uid := (idx_uid cols).
Local Abbreviation by_subj := (idx_subj parse_date cols adni_date_col).
Local Abbreviation lookup_adni := (find_adni parse_date cols adni_date_col man_date_col).
Local Abbreviation candidates := (candidates_of parse_date cols adni_date_col).

Local Abbreviation uid_step :=
  (fun (idx : list (string * dict)) (r : dict) =>
     if nonempty (uid_of_row r) then dict_set idx (uid_of_row r) r else idx).

Lemma idx_uid_others (u : string) (post : list dict) :
  Forall (fun r => uid_of_row r <> u) post ->
  forall idx, lookup (fold_left uid_step post idx) u = lookup idx u.
Proof.
  induction 1 as [|r post Hr _ IH]; intros idx; cbn [fold_left]; [reflexivity|].
  rewrite IH. destruct (nonempty (uid_of_row r)); [|reflexivity].
  rewrite lookup_dict_set.
  destruct (String.eqb_spec (uid_of_row r) u) as [E | _]; [congruence | reflexivity].
Qed.

(** [idx_uid] keeps, for every image id, the last ADNI row with it. *)
Lemma idx_uid_last (pre post : list dict) (r : dict) :
  uid_of_row r <> EmptyString ->
  Forall (fun r' => uid_of_row r' <> uid_of_row r) post ->
  lookup (by_uid (pre ++ r :: post)) (uid_of_row r) = Some r.
Proof.
  intros Hne Hpost. unfold idx_uid. rewrite fold_left_app. cbn [fold_left].
  rewrite (idx_uid_others _ _ Hpost).
  destruct (uid_of_row r) eqn:E; [congruence|]. cbn [nonempty].
  now rewrite lookup_dict_set, String.eqb_refl.
Qed.

Lemma idx_uid_spec (adni_rows : list dict) (u : string) :
  u <> EmptyString ->
  match lookup (by_uid adni_rows) u with
  | Some r =>
      exists pre post,
        adni_rows = pre ++ r :: post /\ uid_of_row r = u /\
        Forall (fun r' => uid_of_row r' <> u) post
  | None => Forall (fun r => uid_of_row r <> u) adni_rows
  end.
Proof.
  intros Hu.
  destruct (last_occurrence (fun r => uid_of_row r = u)
                            (fun r => string_dec (uid_of_row r) u) adni_rows)
    as [Hall | (pre & r & post & -> & Hr & Hpost)].
  - unfold idx_uid. rewrite (idx_uid_others u adni_rows Hall []). exact Hall.
  - subst u. rewrite (idx_uid_last pre post r Hu Hpost).
    exists pre, post. auto.
Qed.

Local Abbreviation subj_step :=
  (fun (idx : list (string * list entry)) (r : dict) =>
     if nonempty (subj_of_row r)
     then setdefault_append idx (subj_of_row r) (entry_of_row r)
     else idx).

Lemma idx_subj_unsorted_spec (adni_rows : list dict) (s : string) :
  s <> EmptyString ->
  match lookup (idx_subj_unsorted parse_date cols adni_date_col adni_rows) s with
  | Some l => l
  | None => []
  end
  = map entry_of_row (filter (fun r => String.eqb (subj_of_row r) s) adni_rows).
Proof.
  intros Hs. unfold idx_subj_unsorted.
  induction adni_rows as [|r rows IH] using rev_ind; [reflexivity|].
  rewrite fold_left_app, filter_app, map_app. cbn [fold_left filter].
  destruct (nonempty (subj_of_row r)) eqn:En.
  - rewrite lookup_setdefault_append.
    destruct (String.eqb_spec (subj_of_row r) s) as [E | Hne].
    + rewrite E, IH. reflexivity.
    + rewrite IH. cbn [map]. now rewrite app_nil_r.
  - rewrite IH.
    destruct (String.eqb_spec (subj_of_row r) s) as [E | Hne].
    + rewrite E in En. destruct s; [congruence | discriminate].
    + cbn [map]. now rewrite app_nil_r.
Qed.

(** The candidates of a subject: its ADNI rows, sorted by date. *)
Lemma candidates_spec (adni_rows : list dict) (s : string) :
  s <> EmptyString ->
  candidates adni_rows s =
  sort_entries
    (map entry_of_row (filter (fun r => String.eqb (subj_of_row r) s) adni_rows)).
Proof.
  intros Hs. unfold candidates_of, idx_subj. rewrite lookup_map_values.
  rewrite <- (idx_subj_unsorted_spec adni_rows s Hs).
  now destruct (lookup _ s).
Qed.

(** ** The sort of line 113 *)

Lemma insert_entry_perm (x : entry) (l : list entry) :
  Permutation (insert_entry x l) (x :: l).
Proof.
  induction l as [|y l IH]; cbn [insert_entry]; [reflexivity|].
  destruct (key_le x y); [reflexivity|].
  rewrite IH. apply perm_swap.
Qed.

Lemma sort_entries_perm (l : list entry) : Permutation (sort_entries l) l.
Proof.
  induction l as [|x l IH]; cbn [sort_entries]; [reflexivity|].
  rewrite insert_entry_perm. now constructor.
Qed.

Lemma key_le_total (a b : entry) : key_le a b = false -> key_le b a = true.
Proof.
  unfold key_le. destruct (fst a), (fst b); try discriminate; try reflexivity.
  intros H. apply Z.leb_le. apply Z.leb_gt in H. lia.
Qed.

Lemma key_le_trans (a b c : entry) :
  key_le a b = true -> key_le b c = true -> key_le a c = true.
Proof.
  unfold key_le. destruct (fst a), (fst b), (fst c); try discriminate; try reflexivity.
  intros H1 H2. apply Z.leb_le. apply Z.leb_le in H1, H2. lia.
Qed.

Lemma insert_entry_sorted (x : entry) (l : list entry) :
  StronglySorted (fun a b => key_le a b = true) l ->
  StronglySorted (fun a b => key_le a b = true) (insert_entry x l).
Proof.
  induction 1 as [|y l Hs IH Hall]; cbn [insert_entry].
  - constructor; constructor.
  - destruct (key_le x y) eqn:E.
    + constructor; [now constructor|]. constructor; [exact E|].
      rewrite Forall_forall in *. intros z Hz. eapply key_le_trans; eauto.
    + constructor; [exact IH|].
      apply Forall_forall. intros z Hz.
      apply (Permutation_in _ (insert_entry_perm x l)) in Hz.
      destruct Hz as [<- | Hz]; [now apply key_le_total|].
      rewrite Forall_forall in Hall. now apply Hall.
Qed.

Lemma sort_entries_sorted (l : list entry) :
  StronglySorted (fun a b => key_le a b = true) (sort_entries l).
Proof.
  induction l as [|x l IH]; cbn [sort_entries]; [constructor|].
  now apply insert_entry_sorted.
Qed.

Lemma key_le_refl (a : entry) : key_le a a = true.
Proof. unfold key_le. destruct (fst a); [apply Z.leb_refl | reflexivity]. Qed.

Lemma sorted_entries_last (l : list entry) (d : entry) :
  StronglySorted (fun a b => key_le a b = true) l ->
  forall c, In c l -> key_le c (last l d) = true.
Proof.
  induction 1 as [|y l Hs IH Hall]; intros c Hc; [destruct Hc|].
  destruct l as [|z l'].
  - destruct Hc as [<- | []]. apply key_le_refl.
  - change (last (y :: z :: l') d) with (last (z :: l') d).
    destruct Hc as [<- | Hc]; [|now apply IH].
    rewrite Forall_forall in Hall. apply Hall. apply last_In.
Qed.

(** ** The nearest date *)

Lemma closest_fold (m : datetime) (cands : list entry) :
  forall seen st,
    closest_inv m seen st ->
    closest_inv m (seen ++ cands) (fold_left (closest_step m) cands st).
Proof.
  induction cands as [|[dt r0] cands IH]; intros seen st Hst; cbn [fold_left].
  - now rewrite app_nil_r.
  - change (closest_inv m (seen ++ [(dt, r0)] ++ cands)
              (fold_left (closest_step m) cands (closest_step m st (dt, r0)))).
    rewrite app_assoc. apply IH. clear IH.
    destruct st as [[r|] [a|]]; cbn [closest_inv] in Hst; try contradiction;
      unfold closest_step; cbn [fst snd]; destruct dt as [d0|].
    + destruct Hst as [(d & Hd & Ea) Hmin].
      destruct (seconds_apart d0 m <? a) eqn:Elt; cbn [closest_inv].
      * apply Z.ltb_lt in Elt. split.
        -- exists d0. split; [apply in_or_app; right; now left | reflexivity].
        -- intros d' r' Hin. apply in_app_or in Hin.
           destruct Hin as [Hin | [Heq | []]].
           ++ specialize (Hmin d' r' Hin). lia.
           ++ injection Heq as <- <-. lia.
      * apply Z.ltb_ge in Elt. split.
        -- exists d. split; [apply in_or_app; now left | exact Ea].
        -- intros d' r' Hin. apply in_app_or in Hin.
           destruct Hin as [Hin | [Heq | []]].
           ++ exact (Hmin d' r' Hin).
           ++ injection Heq as <- <-. exact Elt.
    + destruct Hst as [(d & Hd & Ea) Hmin]. cbn [closest_inv]. split.
      * exists d. split; [apply in_or_app; now left | exact Ea].
      * intros d' r' Hin. apply in_app_or in Hin.
        destruct Hin as [Hin | [Heq | []]]; [exact (Hmin d' r' Hin) | discriminate].
    + cbn [closest_inv]. split.
      * exists d0. split; [apply in_or_app; right; now left | reflexivity].
      * intros d' r' Hin. apply in_app_or in Hin.
        destruct Hin as [Hin | [Heq | []]].
        -- specialize (Hst _ Hin). discriminate.
        -- injection Heq as <- <-. lia.
    + cbn [closest_inv]. intros c Hin. apply in_app_or in Hin.
      destruct Hin as [Hin | [<- | []]]; [now apply Hst | reflexivity].
Qed.

(** ** [find_adni] *)

Lemma candidates_In (adni_rows : list dict) (s : string) (c : entry) :
  s <> EmptyString ->
  (In c (candidates adni_rows s) <->
   exists r, c = entry_of_row r /\ In r adni_rows /\ subj_of_row r = s).
Proof.
  intros Hs. rewrite (candidates_spec adni_rows s Hs). split.
  - intros Hin. apply (Permutation_in _ (sort_entries_perm _)) in Hin.
    apply in_map_iff in Hin. destruct Hin as (r & <- & Hr).
    apply filter_In in Hr. destruct Hr as [Hr E]. apply String.eqb_eq in E. eauto.
  - intros (r & -> & Hr & E).
    apply (Permutation_in _ (Permutation_sym (sort_entries_perm _))).
    apply in_map. apply filter_In. split; [exact Hr | now apply String.eqb_eq].
Qed.

Lemma candidates_none (adni_rows : list dict) (s : string) :
  s <> EmptyString ->
  candidates adni_rows s = [] ->
  Forall (fun r => subj_of_row r <> s) adni_rows.
Proof.
  intros Hs E. apply Forall_forall. intros r Hr Hsubj.
  assert (Hin : In (entry_of_row r) (candidates adni_rows s))
    by (apply candidates_In; eauto).
  rewrite E in Hin. destruct Hin.
Qed.

(** A dated row is not an empty dictionary. *)
Lemma dated_row_nonempty (r : dict) (d : datetime) :
  date_of_row r = Some d -> nonempty_dict r = true.
Proof.
  destruct r as [|kv r]; [|reflexivity].
  unfold adni_date_of, parse_date_from_values, get_if. cbn [get].
  destruct adni_date_col as [c|]; [destruct (nonempty c)|]; discriminate.
Qed.

Lemma choose_candidate_spec (mdt : option datetime) (c0 : entry) (cs : list entry) :
  (forall d r, In (Some d, r) (c0 :: cs) -> nonempty_dict r = true) ->
  StronglySorted (fun a b => key_le a b = true) (c0 :: cs) ->
  exists c,
    In c (c0 :: cs) /\ snd c = choose_candidate mdt c0 cs /\
    match mdt with
    | None => forall c', In c' (c0 :: cs) -> key_le c' c = true
    | Some m =>
        forall d' r', In (Some d', r') (c0 :: cs) ->
          exists d, fst c = Some d /\ seconds_apart d m <= seconds_apart d' m
    end.
Proof.
  intros Hne Hsorted. unfold choose_candidate.
  pose proof (last_In c0 c0 cs) as Hlast.
  destruct mdt as [m|].
  - pose proof (closest_fold m (c0 :: cs) [] (None, None)) as Hinv.
    cbn [app] in Hinv. specialize (Hinv (fun c H => match H with end)).
    destruct (fold_left (closest_step m) (c0 :: cs) (None, None)) as [[best|] [a|]];
      cbn [closest_inv fst] in Hinv |- *; try contradiction.
    + destruct Hinv as [(d & Hd & ->) Hmin].
      rewrite (Hne d best Hd).
      exists (Some d, best). split; [exact Hd|]. split; [reflexivity|].
      intros d' r' Hin. exists d. split; [reflexivity | exact (Hmin d' r' Hin)].
    + exists (last (c0 :: cs) c0). split; [exact Hlast|]. split; [reflexivity|].
      intros d' r' Hin. specialize (Hinv _ Hin). discriminate.
  - exists (last (c0 :: cs) c0). split; [exact Hlast|]. split; [reflexivity|].
    now apply sorted_entries_last.
Qed.

(** What [find_adni] returns when no ADNI row has the image id of the
    manifest row. *)
Lemma find_adni_by_subject (adni_rows : list dict) (mr : dict) :
  (man_uid_of cols mr = EmptyString \/
   Forall (fun r => uid_of_row r <> man_uid_of cols mr) adni_rows) ->
  match lookup_adni adni_rows mr with
  | Some r =>
      man_subj_of cols mr <> EmptyString /\
      In r adni_rows /\ subj_of_row r = man_subj_of cols mr /\
      match man_date_of parse_date man_date_col mr with
      | None =>
          forall r', In r' adni_rows -> subj_of_row r' = man_subj_of cols mr ->
            key_le (entry_of_row r') (entry_of_row r) = true
      | Some m =>
          forall r' d', In r' adni_rows -> subj_of_row r' = man_subj_of cols mr ->
            date_of_row r' = Some d' ->
            exists d, date_of_row r = Some d /\
                      seconds_apart d m <= seconds_apart d' m
      end
  | None =>
      man_subj_of cols mr = EmptyString \/
      Forall (fun r => subj_of_row r <> man_subj_of cols mr) adni_rows
  end.
Proof.
  intros Hmiss. unfold find_adni.
  assert (E : (if nonempty (man_uid_of cols mr)
               then lookup (by_uid adni_rows) (man_uid_of cols mr) else None) = None).
  { destruct (man_uid_of cols mr) as [|c u] eqn:Eu; [reflexivity|]. cbn [nonempty].
    destruct Hmiss as [Hm | Hm]; [discriminate|].
    pose proof (idx_uid_spec adni_rows (String c u) ltac:(discriminate)) as Hspec.
    destruct (lookup (by_uid adni_rows) (String c u)) as [r|]; [|reflexivity].
    destruct Hspec as (pre & post & -> & Hr & _).
    rewrite Forall_forall in Hm. exfalso. apply (Hm r); [apply in_elt | exact Hr]. }
  rewrite E. clear E.
  destruct (man_subj_of cols mr) as [|c s] eqn:Es; cbn [nonempty negb]; [now left|].
  rewrite <- Es in *.
  assert (Hs : man_subj_of cols mr <> EmptyString) by (rewrite Es; discriminate).
  destruct (candidates adni_rows (man_subj_of cols mr)) as [|c0 cs] eqn:Ec.
  - right. now apply candidates_none.
  - assert (Hfrom : forall c1, In c1 (c0 :: cs) ->
               exists r, c1 = entry_of_row r /\ In r adni_rows /\
                         subj_of_row r = man_subj_of cols mr).
    { intros c1 Hc1. rewrite <- Ec in Hc1. now apply candidates_In in Hc1. }
    assert (Hto : forall r, In r adni_rows -> subj_of_row r = man_subj_of cols mr ->
               In (entry_of_row r) (c0 :: cs)).
    { intros r Hr Hsubj. rewrite <- Ec. apply candidates_In; eauto. }
    destruct (choose_candidate_spec (man_date_of parse_date man_date_col mr) c0 cs)
      as (c1 & Hc1 & Hsnd & Hbest).
    { intros d r Hin. destruct (Hfrom _ Hin) as (r1 & E1 & _).
      injection E1 as E1 ->. now apply (dated_row_nonempty r1 d). }
    { rewrite <- Ec, (candidates_spec adni_rows _ Hs). apply sort_entries_sorted. }
    destruct (Hfrom _ Hc1) as (r1 & -> & Hr1 & Hsubj1). cbn [snd entry_of] in Hsnd.
    rewrite <- Hsnd.
    split; [exact Hs|]. split; [exact Hr1|]. split; [exact Hsubj1|].
    destruct (man_date_of parse_date man_date_col mr) as [m|].
    + intros r' d' Hr' Hsubj' Hd'.
      destruct (Hbest d' r') as (d & Hd & Hle).
      { specialize (Hto r' Hr' Hsubj'). unfold entry_of in Hto. now rewrite Hd' in Hto. }
      exists d. split; [exact Hd | exact Hle].
    + intros r' Hr' Hsubj'. apply Hbest. now apply Hto.
Qed.

(** X18: [find_adni] returns a row of the ADNI sheet that goes with the
    manifest row: a row with the image id of the manifest row, or else a row
    of its subject.  It returns nothing only when no ADNI row has that
    image id and none has that subject.  The image id of an ADNI row is
    compared without its leading [I], that of the manifest row as it
    is written. *)
Theorem find_adni_returns_matching_row (adni_rows : list dict) (mr : dict) :
  match lookup_adni adni_rows mr with
  | Some r =>
      In r adni_rows /\
      ((man_uid_of cols mr <> EmptyString /\
        strip_leading_i (strip (get_if r (adni_uid_col cols))) = man_uid_of cols mr) \/
       (man_subj_of cols mr <> EmptyString /\
        strip (get_if r (adni_subj_col cols)) = man_subj_of cols mr))
  | None =>
      (man_uid_of cols mr = EmptyString \/
       Forall (fun r => uid_of_row r <> man_uid_of cols mr) adni_rows) /\
      (man_subj_of cols mr = EmptyString \/
       Forall (fun r => subj_of_row r <> man_subj_of cols mr) adni_rows)
  end.
Proof.
  assert (Hcases :
            (exists r, lookup_adni adni_rows mr = Some r /\ In r adni_rows /\
                       man_uid_of cols mr <> EmptyString /\
                       uid_of_row r = man_uid_of cols mr) \/
            (man_uid_of cols mr = EmptyString \/
             Forall (fun r => uid_of_row r <> man_uid_of cols mr) adni_rows)).
  { destruct (man_uid_of cols mr) as [|c u] eqn:Eu; [right; now left|].
    pose proof (idx_uid_spec adni_rows (String c u) ltac:(discriminate)) as Hspec.
    destruct (lookup (by_uid adni_rows) (String c u)) as [r|] eqn:El.
    - left. exists r. destruct Hspec as (pre & post & -> & Hr & _).
      split; [|split; [apply in_elt | split; [discriminate | exact Hr]]].
      unfold find_adni. rewrite Eu. cbn [nonempty]. now rewrite El.
    - right. now right. }
  destruct Hcases as [(r & -> & Hin & Hne & Hr) | Hmiss].
  - split; [exact Hin|]. left. split; [exact Hne | exact Hr].
  - pose proof (find_adni_by_subject adni_rows mr Hmiss) as Hsubj.
    destruct (lookup_adni adni_rows mr) as [r|].
    + destruct Hsubj as (Hs & Hin & Hr & _). split; [exact Hin|]. right. auto.
    + split; [exact Hmiss | exact Hsubj].
Qed.

(** X19: the image id decides first, and the last row wins.  When the
    image id of the manifest row is not empty, [find_adni] returns the last
    ADNI row whose image id, without its leading [I], equals it, whatever
    the subject and the dates of the rows. *)
Theorem find_adni_by_image_id_takes_last_row
        (pre post : list dict) (r mr : dict) :
  man_uid_of cols mr <> EmptyString ->
  uid_of_row r = man_uid_of cols mr ->
  Forall (fun r' => uid_of_row r' <> man_uid_of cols mr) post ->
  lookup_adni (pre ++ r :: post) mr = Some r.
Proof.
  intros Hne Hr Hpost. unfold find_adni.
  destruct (man_uid_of cols mr) as [|c u] eqn:Eu; [congruence|]. cbn [nonempty].
  rewrite <- Hr in Hpost |- *. rewrite idx_uid_last; [reflexivity | congruence | exact Hpost].
Qed.

(** X20: without a match by image id, [find_adni] takes a row of the
    subject of the manifest row by date.  When the manifest row has a date,
    the row returned is a dated row of the subject nearest to that date, if
    the subject has a dated row at all; when it has none, the row returned
    is last in the order of line 113: an undated row if the subject has one,
    and else the row of the latest date. *)
Theorem find_adni_by_subject_takes_nearest_date
        (adni_rows : list dict) (mr r : dict) :
  (man_uid_of cols mr = EmptyString \/
   Forall (fun r' => uid_of_row r' <> man_uid_of cols mr) adni_rows) ->
  lookup_adni adni_rows mr = Some r ->
  In r adni_rows /\ subj_of_row r = man_subj_of cols mr /\
  match man_date_of parse_date man_date_col mr with
  | None =>
      forall r', In r' adni_rows -> subj_of_row r' = man_subj_of cols mr ->
        key_le (entry_of_row r') (entry_of_row r) = true
  | Some m =>
      forall r' d', In r' adni_rows -> subj_of_row r' = man_subj_of cols mr ->
        date_of_row r' = Some d' ->
        exists d, date_of_row r = Some d /\
                  seconds_apart d m <= seconds_apart d' m
  end.
Proof.
  intros Hmiss E.
  pose proof (find_adni_by_subject adni_rows mr Hmiss) as Hsubj.
  rewrite E in Hsubj. destruct Hsubj as (_ & Hin & Hr & Hdate).
  split; [exact Hin|]. split; [exact Hr | exact Hdate].
Qed.

End Index.

(** The theorem at the sample sheet: the manifest image id [11] finds
    the ADNI row of image id [I11], the second of three. *)
Lemma find_adni_by_image_id_takes_last_row_witness :
  find_adni SheetExamples.compact_date SheetExamples.sheet_cols
            SheetExamples.sheet_adni_date_col SheetExamples.sheet_man_date_col
            ([SheetExamples.adni_2018] ++ SheetExamples.adni_2019
               :: [SheetExamples.adni_2020])
            SheetExamples.manifest_plain_id
  = Some SheetExamples.adni_2019.
Proof.
  apply (find_adni_by_image_id_takes_last_row
           SheetExamples.compact_date SheetExamples.sheet_cols
           SheetExamples.sheet_adni_date_col SheetExamples.sheet_man_date_col
           [SheetExamples.adni_2018] [SheetExamples.adni_2020]
           SheetExamples.adni_2019 SheetExamples.manifest_plain_id).
  - vm_compute. discriminate.
  - vm_compute. reflexivity.
  - repeat constructor. vm_compute. discriminate.
Defined.

(** The theorem at the sample sheet: the manifest image id [I11] finds no
    ADNI row, since the ADNI ids are compared without their [I]; of the
    rows of the subject, that of 2019 is nearest to the first of March
    2019. *)
Lemma find_adni_by_subject_takes_nearest_date_witness :
  find_adni SheetExamples.compact_date SheetExamples.sheet_cols
            SheetExamples.sheet_adni_date_col SheetExamples.sheet_man_date_col
            SheetExamples.adni_sheet SheetExamples.manifest_prefixed_id
    = Some SheetExamples.adni_2019 /\
  In SheetExamples.adni_2019 SheetExamples.adni_sheet /\
  adni_subj_of SheetExamples.sheet_cols SheetExamples.adni_2019
    = man_subj_of SheetExamples.sheet_cols SheetExamples.manifest_prefixed_id.
Proof.
  assert (E : find_adni SheetExamples.compact_date SheetExamples.sheet_cols
                SheetExamples.sheet_adni_date_col SheetExamples.sheet_man_date_col
                SheetExamples.adni_sheet SheetExamples.manifest_prefixed_id
              = Some SheetExamples.adni_2019) by (vm_compute; reflexivity).
  split; [exact E|].
  destruct (find_adni_by_subject_takes_nearest_date
              SheetExamples.compact_date SheetExamples.sheet_cols
              SheetExamples.sheet_adni_date_col SheetExamples.sheet_man_date_col
              SheetExamples.adni_sheet SheetExamples.manifest_prefixed_id
              SheetExamples.adni_2019) as (Hin & Hsubj & _).
  - right. repeat constructor; vm_compute; discriminate.
  - exact E.
  - split; [exact Hin | exact Hsubj].
Defined.

(** ** The image id of a directory name *)

Lemma take_digits_spec (s : string) :
  s = (fst (take_digits s) ++ snd (take_digits s))%string /\
  Timestamp.all_digits (fst (take_digits s)) = true /\
  starts_with_digit (snd (take_digits s)) = false.
Proof.
  induction s as [|c s (E & Hd & Hn)]; cbn [take_digits]; [auto|].
  destruct (isdigit c) eqn:Ec.
  - destruct (take_digits s) as [ds rest]. cbn [fst snd append all_digits] in *.
    rewrite Ec. split; [now rewrite <- E | auto].
  - cbn [fst snd append all_digits starts_with_digit]. auto.
Qed.

Lemma take_digits_run (ds rest : string) :
  Timestamp.all_digits ds = true -> starts_with_digit rest = false ->
  take_digits (ds ++ rest) = (ds, rest).
Proof.
  intros Hd Hr. induction ds as [|c ds IH]; cbn [append].
  - destruct rest as [|c r]; [reflexivity|]. cbn [take_digits].
    cbn [starts_with_digit] in Hr. now rewrite Hr.
  - cbn [all_digits] in Hd. apply andb_prop in Hd. destruct Hd as [Hc Hd].
    cbn [take_digits]. now rewrite Hc, (IH Hd).
Qed.

Lemma startswith_underscore (s : string) :
  startswith s "_" = true -> exists post, s = String "_" post.
Proof.
  destruct s as [|c s]; [discriminate|]. cbn [startswith].
  destruct (Ascii.eqb_spec "_" c) as [<- | _]; [eauto | discriminate].
Qed.

Lemma uid_here_sound (s u : string) :
  uid_here s = Some u ->
  u <> EmptyString /\ Timestamp.all_digits u = true /\
  exists post, s = (u ++ "_" ++ post)%string.
Proof.
  unfold uid_here. destruct (take_digits_spec s) as (E & Hd & _).
  destruct (take_digits s) as [ds rest]. cbn [fst snd] in *.
  destruct (nonempty ds) eqn:En; [|discriminate]. cbn [andb].
  destruct (startswith rest "_") eqn:Er; [|discriminate].
  intros H. injection H as <-.
  split; [intros E0; rewrite E0 in En; discriminate|]. split; [exact Hd|].
  destruct (startswith_underscore rest Er) as (post & ->). now exists post.
Qed.

Lemma uid_here_run (ds post : string) :
  ds <> EmptyString -> Timestamp.all_digits ds = true ->
  uid_here (ds ++ "_" ++ post) = Some ds.
Proof.
  intros Hne Hd. unfold uid_here.
  rewrite (take_digits_run ds ("_" ++ post) Hd eq_refl).
  destruct ds; [congruence|]. cbn [nonempty andb append startswith Ascii.eqb Bool.eqb].
  now destruct post.
Qed.

Lemma uid_match_sound (s u : string) :
  uid_match s = Some u ->
  u <> EmptyString /\ Timestamp.all_digits u = true /\
  exists pre post, s = (pre ++ u ++ "_" ++ post)%string.
Proof.
  assert (Hplain : uid_here s = Some u ->
            u <> EmptyString /\ Timestamp.all_digits u = true /\
            exists pre post, s = (pre ++ u ++ "_" ++ post)%string).
  { intros H. destruct (uid_here_sound s u H) as (Hne & Hd & post & ->).
    split; [exact Hne|]. split; [exact Hd|]. now exists EmptyString, post. }
  unfold uid_match. destruct s as [|c r]; [exact Hplain|].
  destruct (Ascii.eqb_spec c "I") as [-> | Hc].
  - destruct (uid_here r) as [u'|] eqn:E; [|exact Hplain].
    intros H. injection H as <-.
    destruct (uid_here_sound r u' E) as (Hne & Hd & post & ->).
    split; [exact Hne|]. split; [exact Hd|]. now exists "I", post.
  - replace (match c with "I"%char => _ | _ => uid_here (String c r) end)
      with (uid_here (String c r)); [exact Hplain|].
    destruct c as [[] [] [] [] [] [] [] []]; try reflexivity. congruence.
Qed.

Lemma search_uid_sound (s u : string) :
  search_uid s = Some u ->
  u <> EmptyString /\ Timestamp.all_digits u = true /\
  exists pre post, s = (pre ++ u ++ "_" ++ post)%string.
Proof.
  induction s as [|c s IH]; cbn [search_uid].
  - destruct (uid_match "") as [u'|] eqn:E; [|discriminate].
    intros H. injection H as <-. now apply uid_match_sound.
  - destruct (uid_match (String c s)) as [u'|] eqn:E.
    + intros H. injection H as <-. now apply uid_match_sound.
    + intros H. destruct (IH H) as (Hne & Hd & pre & post & ->).
      split; [exact Hne|]. split; [exact Hd|]. now exists (String c pre), post.
Qed.

(** X21: the image id read from a directory name by line 135 is a
    non-empty run of digits of the name, followed by an underscore.  For a
    name of the shape [I<digits>_<rest>] or [<digits>_<rest>] it is
    [<digits>], which is also what the merge loop makes of a manifest image
    id [I<digits>] or [<digits>] (line 146). *)
Theorem directory_image_id (name : string) :
  match search_uid name with
  | Some u =>
      u <> EmptyString /\ Timestamp.all_digits u = true /\
      exists pre post, name = (pre ++ u ++ "_" ++ post)%string
  | None =>
      forall ds post,
        ds <> EmptyString -> Timestamp.all_digits ds = true ->
        name <> (ds ++ "_" ++ post)%string /\ name <> ("I" ++ ds ++ "_" ++ post)%string
  end /\
  forall ds post,
    match ds with
    | EmptyString => True
    | String _ _ =>
        if Timestamp.all_digits ds
        then search_uid (ds ++ "_" ++ post) = Some ds /\
             search_uid ("I" ++ ds ++ "_" ++ post) = Some ds /\
             strip_leading_i ("I" ++ ds) = ds /\ strip_leading_i ds = ds
        else True
    end.
Proof.
  assert (Hrun : forall ds post,
             ds <> EmptyString -> Timestamp.all_digits ds = true ->
             search_uid (ds ++ "_" ++ post) = Some ds /\
             search_uid ("I" ++ ds ++ "_" ++ post) = Some ds).
  { intros ds post Hne Hd.
    pose proof (uid_here_run ds post Hne Hd) as Hhere.
    assert (Hm : uid_match (ds ++ "_" ++ post) = Some ds).
    { unfold uid_match. destruct ds as [|c ds]; [congruence|].
      cbn [append] in *.
      destruct (Ascii.eqb_spec c "I") as [-> | Hc];
        [cbn [all_digits] in Hd; discriminate|].
      replace (match c with "I"%char => _ | _ => uid_here (String c (ds ++ "_" ++ post)) end)
        with (uid_here (String c (ds ++ "_" ++ post))); [exact Hhere|].
      destruct c as [[] [] [] [] [] [] [] []]; try reflexivity. congruence. }
    split.
    - destruct ds as [|c ds]; [congruence|]. cbn [append] in *. cbn [search_uid].
      now rewrite Hm.
    - change ("I" ++ ds ++ "_" ++ post)%string with (String "I" (ds ++ "_" ++ post)).
      cbn [search_uid]. unfold uid_match. now rewrite Hhere. }
  split.
  - destruct (search_uid name) as [u|] eqn:E; [now apply search_uid_sound|].
    intros ds post Hne Hd. destruct (Hrun ds post Hne Hd) as [H1 H2].
    split; intros ->; congruence.
  - intros ds post. destruct ds as [|c ds]; [exact I|].
    destruct (Timestamp.all_digits (String c ds)) eqn:Hd; [|exact I].
    destruct (Hrun (String c ds) post ltac:(discriminate) Hd) as [H1 H2].
    split; [exact H1|]. split; [exact H2|]. split; [reflexivity|].
    cbn [all_digits] in Hd. apply andb_prop in Hd. destruct Hd as [Hc _].
    cbn [strip_leading_i].
    destruct (Ascii.eqb_spec c "i") as [-> | _]; [discriminate|].
    destruct (Ascii.eqb_spec c "I") as [-> | _]; [discriminate | reflexivity].
Qed.

(** ** The paths of the merged rows *)

Lemma lookup_set_field (pm : list (string * dict)) (uid field v uid' : string) :
  lookup (set_field pm uid field v) uid' =
  if String.eqb uid uid'
  then Some (dict_set (match lookup pm uid with Some d => d | None => [] end) field v)
  else lookup pm uid'.
Proof.
  induction pm as [|[k0 d0] pm IH]; cbn [set_field lookup].
  - destruct (String.eqb uid uid'); reflexivity.
  - destruct (String.eqb_spec k0 uid) as [-> | Hne]; cbn [lookup].
    + destruct (String.eqb uid uid'); reflexivity.
    + rewrite IH. destruct (String.eqb_spec k0 uid') as [-> | Hne'];
        [|reflexivity].
      destruct (String.eqb_spec uid uid') as [E | _]; [congruence | reflexivity].
Qed.

Section PathMap.
Variable img_files : list Path.
Variable segm_files : list Path.

(** Every path of the index comes from a file listed, under the image id
    of the directory of that file. *)
Local Abbreviation sound pm :=
  (forall uid d, lookup pm uid = Some d ->
     (get d "img" "" = EmptyString \/ indexed_path img_files uid (get d "img" "")) /\
     (get d "segm" "" = EmptyString \/ indexed_path segm_files uid (get d "segm" ""))).

Lemma path_step_img (pm : list (string * dict)) (p : Path) :
  In p img_files -> sound pm -> sound (path_step "img" pm p).
Proof.
  intros Hp Hpm uid d. unfold path_step.
  destruct (search_uid (name (parent p))) as [u|] eqn:Eu; [|apply Hpm].
  rewrite lookup_set_field.
  destruct (String.eqb_spec u uid) as [-> | _]; [|apply Hpm].
  intros H. injection H as <-. rewrite !get_dict_set. cbn [String.eqb Ascii.eqb Bool.eqb andb].
  split; [right; exists p; auto|].
  destruct (lookup pm uid) as [d0|] eqn:E0; [exact (proj2 (Hpm uid d0 E0)) | now left].
Qed.

Lemma path_step_segm (pm : list (string * dict)) (p : Path) :
  In p segm_files -> sound pm -> sound (path_step "segm" pm p).
Proof.
  intros Hp Hpm uid d. unfold path_step.
  destruct (search_uid (name (parent p))) as [u|] eqn:Eu; [|apply Hpm].
  rewrite lookup_set_field.
  destruct (String.eqb_spec u uid) as [-> | _]; [|apply Hpm].
  intros H. injection H as <-. rewrite !get_dict_set. cbn [String.eqb Ascii.eqb Bool.eqb andb].
  split; [|right; exists p; auto].
  destruct (lookup pm uid) as [d0|] eqn:E0; [exact (proj1 (Hpm uid d0 E0)) | now left].
Qed.

Lemma build_path_map_sound : sound (build_path_map img_files segm_files).
Proof.
  unfold build_path_map.
  assert (Himg : forall l pm, (forall p, In p l -> In p img_files) -> sound pm ->
                   sound (fold_left (path_step "img") l pm)).
  { induction l as [|p l IH]; intros pm Hl Hpm; [exact Hpm|].
    cbn [fold_left]. apply IH; [intros q Hq; apply Hl; now right|].
    apply path_step_img; [apply Hl; now left | exact Hpm]. }
  assert (Hsegm : forall l pm, (forall p, In p l -> In p segm_files) -> sound pm ->
                    sound (fold_left (path_step "segm") l pm)).
  { induction l as [|p l IH]; intros pm Hl Hpm; [exact Hpm|].
    cbn [fold_left]. apply IH; [intros q Hq; apply Hl; now right|].
    apply path_step_segm; [apply Hl; now left | exact Hpm]. }
  apply Hsegm; [auto|]. apply Himg; [auto|].
  intros uid d H. discriminate H.
Qed.

Variable cols : Columns.
Variable find_adni : dict -> option dict.
Variable format_age : string -> string.

(** X22: the paths of a merged row come from the directory index.  An
    image path that is not empty is the path of a file listed by the first
    scan, in a directory whose name gives the image id of the row; likewise
    the segmentation path and the second scan.  So a row whose image id is
    not a run of digits has no paths. *)
Theorem merged_paths_come_from_index (manifest_rows : list dict) :
  Forall
    (fun r =>
       (image_path r = EmptyString \/
        indexed_path img_files (image_uid r) (image_path r)) /\
       (segm_path r = EmptyString \/
        indexed_path segm_files (image_uid r) (segm_path r)) /\
       ((image_path r = EmptyString /\ segm_path r = EmptyString) \/
        (image_uid r <> EmptyString /\ Timestamp.all_digits (image_uid r) = true)))
    (merge cols find_adni (build_path_map img_files segm_files) format_age
           manifest_rows).
Proof.
  assert (Hdigits : forall files uid v,
             indexed_path files uid v ->
             uid <> EmptyString /\ Timestamp.all_digits uid = true).
  { intros files uid v (p & _ & _ & Hs).
    destruct (search_uid_sound _ _ Hs) as (Hne & Hd & _). auto. }
  induction manifest_rows as [|mr rest IH]; cbn [merge]; [constructor|].
  destruct (merge_row cols find_adni (build_path_map img_files segm_files)
                      format_age mr) as [r|] eqn:E; [|exact IH].
  constructor; [|exact IH]. clear IH.
  unfold merge_row in E.
  destruct (negb (nonempty (subj_of cols find_adni mr))
            && negb (nonempty (uid_of cols find_adni mr))); [discriminate|].
  injection E as <-. cbn [image_path segm_path image_uid].
  destruct (lookup (build_path_map img_files segm_files) (uid_of cols find_adni mr))
    as [d|] eqn:El.
  - destruct (build_path_map_sound _ _ El) as [Hi Hs].
    split; [exact Hi|]. split; [exact Hs|].
    destruct Hi as [Hi | Hi]; [|right; now apply (Hdigits _ _ _ Hi)].
    destruct Hs as [Hs | Hs]; [now left | right; now apply (Hdigits _ _ _ Hs)].
  - cbn [get]. auto.
Qed.

End PathMap.

End AdniIndexFacts.

(* ================================================================== *)
(** * The scan, the score and the rows of convert_to_dataset_csv.py *)
(* ================================================================== *)

Module ConvertIndexFacts.
Import PyStr PyStrFacts PyDict PyPath Row ConvertToDataset ConvertIndex.
Import ChooseBestFacts RowBuilderFacts.
Local Open Scope list_scope.

(** ** Substrings *)

Lemma startswith_iff (s p : string) :
  startswith s p = true <-> exists post, s = (p ++ post)%string.
Proof.
  revert s. induction p as [|a p IH]; intros s.
  - split; [intros _; now exists s | intros _; now destruct s].
  - destruct s as [|b s]; cbn [startswith].
    + split; [discriminate | intros (post & H); discriminate H].
    + rewrite andb_true_iff, IH. split.
      * intros [Hab (post & ->)]. apply Ascii.eqb_eq in Hab. subst b. now exists post.
      * intros (post & H). injection H as -> ->.
        split; [apply Ascii.eqb_refl | now exists post].
Qed.

Lemma contains_iff (s p : string) :
  contains s p = true <-> exists pre post, s = (pre ++ p ++ post)%string.
Proof.
  induction s as [|c s IH]; cbn [contains]; rewrite orb_true_iff, startswith_iff.
  - split.
    + intros [(post & H) | H]; [now exists EmptyString, post | discriminate].
    + intros ([|c pre] & post & H); [left; now exists post | discriminate H].
  - rewrite IH. split.
    + intros [(post & H) | (pre & post & ->)].
      * now exists EmptyString, post.
      * now exists (String c pre), post.
    + intros ([|c' pre] & post & H).
      * left. now exists post.
      * right. injection H as -> ->. now exists pre, post.
Qed.

Lemma string_app_assoc (a b c : string) : ((a ++ b) ++ c = a ++ b ++ c)%string.
Proof. induction a as [|x a IH]; cbn [append]; [reflexivity | now rewrite IH]. Qed.

Lemma contains_app_l (s t p : string) : contains s p = true -> contains (s ++ t) p = true.
Proof.
  rewrite !contains_iff. intros (pre & post & ->).
  exists pre, (post ++ t)%string. now rewrite !string_app_assoc.
Qed.

Lemma contains_app_r (s t p : string) : contains t p = true -> contains (s ++ t) p = true.
Proof.
  rewrite !contains_iff. intros (pre & post & ->).
  exists (s ++ pre)%string, post. now rewrite !string_app_assoc.
Qed.

Lemma startswith_contains (s p : string) : startswith s p = true -> contains s p = true.
Proof.
  rewrite startswith_iff, contains_iff. intros (post & ->). now exists EmptyString, post.
Qed.

Lemma contains_join (sep : string) (l : list string) (x p : string) :
  In x l -> contains x p = true -> contains (join sep l) p = true.
Proof.
  induction l as [|y l IH]; intros Hin Hx; [destruct Hin|].
  destruct l as [|z l'].
  - destruct Hin as [<- | []]. exact Hx.
  - change (join sep (y :: z :: l')) with (y ++ sep ++ join sep (z :: l'))%string.
    destruct Hin as [<- | Hin]; [now apply contains_app_l|].
    apply contains_app_r, contains_app_r. now apply IH.
Qed.

(** A text that starts a part of a path occurs in the path. *)
Lemma part_prefix_in_path (path : Path) (part img : string) :
  img <> EmptyString ->
  In part (parts path) -> startswith part img = true ->
  contains (as_posix path) img = true.
Proof.
  intros Himg Hin Hstart. apply startswith_contains in Hstart.
  assert (Hc : contains (anchor path ++ join "/" (tail path)) img = true).
  { unfold parts in Hin. destruct (nonempty (anchor path)).
    - destruct Hin as [<- | Hin]; [now apply contains_app_l|].
      apply contains_app_r. now apply (contains_join "/" _ part).
    - apply contains_app_r. now apply (contains_join "/" _ part). }
  unfold as_posix. cbv zeta.
  destruct (anchor path ++ join "/" (tail path))%string as [|c s] eqn:E;
    cbn [nonempty]; [|exact Hc].
  apply contains_iff in Hc. destruct Hc as ([|c pre] & post & H); [|discriminate H].
  destruct img; [congruence | discriminate H].
Qed.

(** ** The score *)

Section Score.
Variable path : Path.
Variables subject_id image_id series_id image_visit : string.

Local Abbreviation subj := (normalize subject_id).
Local Abbreviation img := (normalize image_id).
Local Abbreviation ser := (normalize series_id).
Local Abbreviation vis := (normalize image_visit).
Local Abbreviation score :=
  (score_candidate path subject_id image_id series_id image_visit).

Local Abbreviation subject_hit :=
  (nonempty subj && existsb (fun part => String.eqb part subj) (parts path)).
Local Abbreviation image_hit :=
  (nonempty img && existsb (fun part => String.eqb part img) (parts path)).
Local Abbreviation prefix_hit :=
  (nonempty img && existsb (fun part => startswith part img) (parts path)).
Local Abbreviation inside_hit := (nonempty img && contains (as_posix path) img).
Local Abbreviation series_hit := (nonempty ser && contains (as_posix path) ser).
Local Abbreviation visit_hit := (nonempty vis && contains (as_posix path) vis).

Lemma score_candidate_sum :
  score =
  ((if subject_hit then 100 else 0) + (if image_hit then 80 else 0)
   + (if prefix_hit then 60 else 0) + (if inside_hit then 40 else 0)
   + (if series_hit then 10 else 0) + (if visit_hit then 10 else 0),
   if prefix_hit then len img else 0).
Proof.
  unfold score_candidate. cbv zeta.
  assert (Hlen : Z.max 0 (len img) = len img) by (unfold len; lia).
  destruct subject_hit, image_hit, prefix_hit, inside_hit, series_hit, visit_hit;
    cbv beta iota; rewrite ?Hlen; reflexivity.
Qed.

Lemma image_hit_prefix_hit : image_hit = true -> prefix_hit = true.
Proof.
  rewrite !andb_true_iff. intros [Hne Hex]. split; [exact Hne|].
  apply existsb_exists in Hex. destruct Hex as (part & Hin & E).
  apply String.eqb_eq in E. subst part.
  apply existsb_exists. exists img. split; [exact Hin | apply startswith_refl].
Qed.

Lemma prefix_hit_inside_hit : prefix_hit = true -> inside_hit = true.
Proof.
  rewrite !andb_true_iff. intros [Hne Hex]. split; [exact Hne|].
  apply existsb_exists in Hex. destruct Hex as (part & Hin & Hstart).
  apply (part_prefix_in_path path part img); [|exact Hin | exact Hstart].
  intros E. rewrite E in Hne. discriminate.
Qed.

(** X23: the primary score of a candidate is the sum of a subject part
    (0 or 100), an image part, a series part and a visit part (0 or 10
    each).  A path segment equal to the image id also starts with it, and a
    segment that starts with it puts it inside the path; so the image part
    is 0, 40 (inside the path only), 100 (start of a segment) or 180 (a
    whole segment), and the secondary score is the length of the image id
    when the image part is 100 or more, and 0 otherwise. *)
Theorem score_candidate_parts :
  exists subject_part image_part series_part visit_part,
    score_parts subject_part image_part series_part visit_part /\
    fst score = subject_part + image_part + series_part + visit_part /\
    snd score = (if 100 <=? image_part then len img else 0) /\
    (subject_part = 100 <-> subj <> EmptyString /\ In subj (parts path)) /\
    (image_part = 180 <-> img <> EmptyString /\ In img (parts path)) /\
    (100 <= image_part <->
     img <> EmptyString /\ exists part, In part (parts path) /\ startswith part img = true) /\
    (40 <= image_part <-> img <> EmptyString /\ contains (as_posix path) img = true).
Proof.
  exists (if subject_hit then 100 else 0),
         ((if image_hit then 80 else 0) + (if prefix_hit then 60 else 0)
          + (if inside_hit then 40 else 0)),
         (if series_hit then 10 else 0), (if visit_hit then 10 else 0).
  rewrite score_candidate_sum. cbn [fst snd].
  pose proof image_hit_prefix_hit as H23.
  pose proof prefix_hit_inside_hit as H34.
  assert (Hne : forall s, nonempty s = true <-> s <> EmptyString).
  { intros s. destruct s; cbn [nonempty]; split; congruence. }
  assert (Hsubj : subject_hit = true <-> subj <> EmptyString /\ In subj (parts path)).
  { rewrite andb_true_iff, Hne, existsb_exists. split.
    - intros [H (part & Hin & E)]. apply String.eqb_eq in E. subst part. auto.
    - intros [H Hin]. split; [exact H|]. exists subj. split; [exact Hin | apply String.eqb_refl]. }
  assert (Himg : image_hit = true <-> img <> EmptyString /\ In img (parts path)).
  { rewrite andb_true_iff, Hne, existsb_exists. split.
    - intros [H (part & Hin & E)]. apply String.eqb_eq in E. subst part. auto.
    - intros [H Hin]. split; [exact H|]. exists img. split; [exact Hin | apply String.eqb_refl]. }
  assert (Hpre : prefix_hit = true <->
                 img <> EmptyString /\
                 exists part, In part (parts path) /\ startswith part img = true).
  { now rewrite andb_true_iff, Hne, existsb_exists. }
  assert (Hin : inside_hit = true <->
                img <> EmptyString /\ contains (as_posix path) img = true).
  { now rewrite andb_true_iff, Hne. }
  rewrite <- Hsubj, <- Himg, <- Hpre, <- Hin.
  assert (Hser : (if series_hit then 10 else 0) = 0 \/ (if series_hit then 10 else 0) = 10)
    by (destruct series_hit; auto).
  assert (Hvis : (if visit_hit then 10 else 0) = 0 \/ (if visit_hit then 10 else 0) = 10)
    by (destruct visit_hit; auto).
  unfold score_parts.
  set (sr := if series_hit then 10 else 0) in *. clearbody sr.
  set (vr := if visit_hit then 10 else 0) in *. clearbody vr.
  destruct subject_hit, image_hit, prefix_hit, inside_hit;
    try (specialize (H23 eq_refl); discriminate H23);
    try (specialize (H34 eq_refl); discriminate H34);
    (split; [split; [auto | split; [cbn; auto 6 | split; assumption]]|]);
    (split; [lia|]); (split; [reflexivity|]);
    intuition (try lia; try discriminate).
Qed.

End Score.

(** ** Paths *)

Lemma name_joinpath (p : Path) (n : string) : name (joinpath p n) = n.
Proof. unfold name, joinpath. cbn [tail]. apply last_last. Qed.

Lemma parent_joinpath (p : Path) (n : string) : parent (joinpath p n) = p.
Proof.
  destruct p as [a t]. unfold parent, joinpath. cbn [anchor tail].
  now rewrite removelast_last.
Qed.

Lemma parts_joinpath (p : Path) (n : string) : parts (joinpath p n) = parts p ++ [n].
Proof.
  unfold parts, joinpath. cbn [anchor tail]. now destruct (nonempty (anchor p)).
Qed.

(** ** The scan of the preprocessed directory *)

Section Scan.
Variable exists_ : Path -> bool.
Variable subdirs : Path -> list string.

Local Abbreviation under := (list_warped_under exists_ subdirs).
Local Abbreviation index := (index_of exists_ subdirs).

Lemma warped_in_spec (d w : Path) :
  In w (warped_in exists_ d) <->
  exists_ w = true /\ exists n, In n warped_names /\ w = joinpath d n.
Proof.
  unfold warped_in. rewrite filter_In, in_map_iff. split.
  - intros [(n & <- & Hn) He]. eauto.
  - intros (He & n & Hn & ->). eauto.
Qed.

Lemma list_warped_under_spec (d w : Path) :
  In w (under d) ->
  exists_ w = true /\ In (name w) warped_names /\
  (parent w = d \/ exists sub, In sub (subdirs d) /\ parent w = joinpath d sub).
Proof.
  unfold list_warped_under. rewrite in_app_iff, in_flat_map.
  intros [H | (sub & Hsub & H)]; apply warped_in_spec in H;
    destruct H as (He & n & Hn & ->); rewrite name_joinpath, parent_joinpath;
    (split; [exact He | split; [exact Hn|]]).
  - now left.
  - right. now exists sub.
Qed.

Lemma index_of_spec (pre_root : Path) (dname : string) (l : list Path) :
  In (dname, l) (index pre_root) ->
  In dname (subdirs pre_root) /\ dname <> "_ALL" /\
  l = under (joinpath pre_root dname).
Proof.
  unfold index_of, list_subject_dirs. rewrite map_map, in_map_iff.
  intros (n & E & Hn). rewrite name_joinpath in E. injection E as -> <-.
  apply filter_In in Hn. destruct Hn as [Hn Hall].
  split; [exact Hn|]. split; [|reflexivity].
  intros ->. discriminate Hall.
Qed.

Lemma index_of_lookup (pre_root : Path) (dname : string) :
  In dname (subdirs pre_root) -> dname <> "_ALL" ->
  lookup (index pre_root) dname = Some (under (joinpath pre_root dname)).
Proof.
  intros Hin Hne. unfold index_of, list_subject_dirs. rewrite map_map.
  induction (subdirs pre_root) as [|n ns IH]; [destruct Hin|].
  cbn [filter]. destruct (String.eqb_spec n "_ALL") as [-> | Hn]; cbn [negb].
  - destruct Hin as [<- | Hin]; [congruence | now apply IH].
  - cbn [map lookup]. rewrite name_joinpath.
    destruct (String.eqb_spec n dname) as [-> | Hd]; [reflexivity|].
    destruct Hin as [<- | Hin]; [congruence | now apply IH].
Qed.

(** The artifacts listed for a directory lie in it or one level below, so
    its name is a part of their paths. *)
Lemma under_parts (d w : Path) (n : string) :
  In w (under (joinpath d n)) -> In n (parts w).
Proof.
  intros H. destruct (list_warped_under_spec _ _ H) as (_ & Hname & Hparent).
  assert (Hw : w = joinpath (parent w) (name w)).
  { unfold list_warped_under in H. rewrite in_app_iff, in_flat_map in H.
    destruct H as [H | (sub & _ & H)]; apply warped_in_spec in H;
      destruct H as (_ & m & _ & ->); now rewrite name_joinpath, parent_joinpath. }
  rewrite Hw, parts_joinpath.
  destruct Hparent as [-> | (sub & _ & ->)]; rewrite !parts_joinpath, !in_app_iff;
    cbn [In]; auto.
Qed.

(** X24: the index of the preprocessed directory has one entry per
    sub-directory other than [_ALL]; the artifacts of an entry exist, are
    named [turboprep_Warped.nii.gz] or [turboprep_Warped.nii], and lie in
    the directory of the entry or in one of its sub-directories, so that the
    name of the directory is a part of each of their paths. *)
Theorem index_lists_warped_artifacts (pre_root : Path) :
  map fst (index pre_root)
    = filter (fun n => negb (String.eqb n "_ALL")) (subdirs pre_root) /\
  Forall
    (fun kl =>
       fst kl <> "_ALL" /\
       Forall
         (fun w =>
            exists_ w = true /\ In (name w) warped_names /\ In (fst kl) (parts w) /\
            (parent w = joinpath pre_root (fst kl) \/
             exists sub,
               In sub (subdirs (joinpath pre_root (fst kl))) /\
               parent w = joinpath (joinpath pre_root (fst kl)) sub))
         (snd kl))
    (index pre_root).
Proof.
  split.
  - unfold index_of, list_subject_dirs. rewrite !map_map.
    induction (filter _ (subdirs pre_root)) as [|n ns IH]; [reflexivity|].
    cbn [map fst] in *. now rewrite name_joinpath, IH.
  - apply Forall_forall. intros [dname l] Hin. cbn [fst snd].
    destruct (index_of_spec _ _ _ Hin) as (_ & Hne & ->).
    split; [exact Hne|]. apply Forall_forall. intros w Hw.
    destruct (list_warped_under_spec _ _ Hw) as (He & Hn & Hp).
    split; [exact He|]. split; [exact Hn|]. split; [|exact Hp].
    now apply (under_parts pre_root w dname).
Qed.

End Scan.

(** ** The candidate pool and the match *)

Section Pool.
Variable subj2warped : list (string * list Path).

Lemma fold_append_In {A : Type} (f : string * list A -> bool)
      (idx : list (string * list A)) :
  forall acc x,
    In x (fold_left (fun acc kv => if f kv then acc ++ snd kv else acc) idx acc) <->
    In x acc \/ exists kv, In kv idx /\ f kv = true /\ In x (snd kv).
Proof.
  induction idx as [|kv idx IH]; intros acc x; cbn [fold_left].
  - split; [auto | intros [H | (kv & [] & _)]; exact H].
  - rewrite IH. split.
    + intros [H | (kv' & Hin & Hf & Hx)].
      * destruct (f kv) eqn:Ef; [|now left].
        apply in_app_or in H. destruct H as [H | H]; [now left|].
        right. exists kv. split; [now left | auto].
      * right. exists kv'. split; [now right | auto].
    + intros [H | (kv' & [<- | Hin] & Hf & Hx)].
      * left. destruct (f kv); [apply in_or_app; now left | exact H].
      * left. rewrite Hf. apply in_or_app. now right.
      * right. exists kv'. auto.
Qed.

Lemma lookup_In {A : Type} (idx : list (string * A)) (k : string) (v : A) :
  lookup idx k = Some v -> In (k, v) idx.
Proof.
  induction idx as [|[k0 v0] idx IH]; cbn [lookup]; [discriminate|].
  destruct (String.eqb_spec k0 k) as [-> | _].
  - intros H. injection H as ->. now left.
  - intros H. right. now apply IH.
Qed.

(** Every candidate of the pool is an artifact of the index. *)
Lemma collect_cands_indexed (subject_id image_id : string) (w : Path) :
  In w (collect_cands subj2warped subject_id image_id) ->
  exists dname l, In (dname, l) subj2warped /\ In w l.
Proof.
  unfold collect_cands.
  set (c0 := if nonempty subject_id
             then match lookup subj2warped subject_id with Some l => l | None => [] end
             else []).
  assert (H0 : forall x, In x c0 -> exists dname l, In (dname, l) subj2warped /\ In x l).
  { intros x Hx. unfold c0 in Hx. destruct (nonempty subject_id); [|destruct Hx].
    destruct (lookup subj2warped subject_id) as [l|] eqn:E; [|destruct Hx].
    exists subject_id, l. split; [now apply lookup_In | exact Hx]. }
  set (c1 := if nonempty image_id
             then fold_left
                    (fun acc kv =>
                       if startswith (fst kv) image_id || contains (fst kv) image_id
                       then acc ++ snd kv else acc) subj2warped c0
             else c0).
  assert (H1 : forall x, In x c1 -> exists dname l, In (dname, l) subj2warped /\ In x l).
  { intros x Hx. unfold c1 in Hx. destruct (nonempty image_id); [|now apply H0].
    apply (fold_append_In
             (fun kv => startswith (fst kv) image_id || contains (fst kv) image_id))
      in Hx.
    destruct Hx as [Hx | ([k l] & Hin & _ & Hx)]; [now apply H0 | eauto]. }
  destruct c1 as [|x c1'] eqn:E1.
  - intros Hw.
    apply (fold_append_In (fun _ => true) subj2warped [] w) in Hw.
    destruct Hw as [[] | ([k l] & Hin & _ & Hx)]. eauto.
  - apply H1.
Qed.

(** The artifacts of the directory named by the subject id are in the
    pool. *)
Lemma collect_cands_subject (subject_id image_id : string) (l : list Path) (w : Path) :
  nonempty subject_id = true ->
  lookup subj2warped subject_id = Some l -> In w l ->
  In w (collect_cands subj2warped subject_id image_id).
Proof.
  intros Hne El Hw. unfold collect_cands. rewrite Hne, El.
  set (c1 := if nonempty image_id
             then fold_left
                    (fun acc kv =>
                       if startswith (fst kv) image_id || contains (fst kv) image_id
                       then acc ++ snd kv else acc) subj2warped l
             else l).
  assert (H1 : In w c1).
  { unfold c1. destruct (nonempty image_id); [|exact Hw].
    apply (fold_append_In
             (fun kv => startswith (fst kv) image_id || contains (fst kv) image_id)).
    now left. }
  destruct c1 as [|x c1']; [destruct H1 | exact H1].
Qed.

Section Choice.
Variables subject_id image_id series_id image_visit : string.

Local Abbreviation score c :=
  (score_candidate c subject_id image_id series_id image_visit).
Local Abbreviation best_of :=
  (choose_best subject_id image_id series_id image_visit).

Lemma choose_best_In (cands : list Path) (w : Path) :
  best_of cands = Some w -> In w cands.
Proof.
  unfold choose_best. destruct cands as [|c0 rest]; [discriminate|].
  destruct (choose_loop_nonempty subject_id image_id series_id image_visit c0 rest)
    as (c & E & Hb).
  rewrite E. destruct ((1 <? List.length (c0 :: rest))%nat && (fst (score c) <=? 0));
    [discriminate|].
  intros H. injection H as <-. now apply (first_best_In subject_id image_id series_id image_visit).
Qed.

(** A pool with a candidate of positive score gives a match, of a score
    at least as high. *)
Lemma choose_best_scored (cands : list Path) (c : Path) :
  In c cands -> 0 < fst (score c) ->
  exists w, best_of cands = Some w /\ In w cands /\ fst (score c) <= fst (score w).
Proof.
  intros Hin Hpos. unfold choose_best. destruct cands as [|c0 rest]; [destruct Hin|].
  destruct (choose_loop_nonempty subject_id image_id series_id image_visit c0 rest)
    as (b & E & Hb).
  rewrite E.
  pose proof (first_best_max subject_id image_id series_id image_visit _ _ Hb) as Hmax.
  rewrite Forall_forall in Hmax. specialize (Hmax c Hin). cbv beta in Hmax.
  replace (fst (score b) <=? 0) with false by (symmetry; apply Z.leb_gt; lia).
  rewrite andb_false_r. exists b. split; [reflexivity|].
  split; [now apply (first_best_In subject_id image_id series_id image_visit) | exact Hmax].
Qed.

End Choice.

End Pool.

(** ** The rows of [main] *)

Lemma score_subject_segment (path : Path) (subject_id image_id series_id image_visit : string) :
  normalize subject_id <> EmptyString -> In (normalize subject_id) (parts path) ->
  100 <= fst (score_candidate path subject_id image_id series_id image_visit).
Proof.
  intros Hne Hin. rewrite score_candidate_sum. cbn [fst].
  replace (nonempty (normalize subject_id)
           && existsb (fun part => String.eqb part (normalize subject_id)) (parts path))
    with true.
  - repeat match goal with
           | |- context [if ?b then _ else _] => destruct b
           end; lia.
  - symmetry. apply andb_true_iff. split.
    + destruct (normalize subject_id); [congruence | reflexivity].
    + apply existsb_exists. exists (normalize subject_id).
      split; [exact Hin | apply String.eqb_refl].
Qed.

Lemma derived_image_uid (w : Path) :
  In (name w) warped_names ->
  (if endswith (name w) ".nii.gz" then drop_last7 (name w) else stem w)
  = "turboprep_Warped".
Proof.
  unfold stem. intros [E | [E | []]]; rewrite <- E; reflexivity.
Qed.

Lemma find_segm_near_spec (exists_ : Path -> bool) (w : Path) :
  match find_segm_near exists_ w with
  | Some s =>
      exists n, In n ["segm.nii.gz"; "segm.nii"] /\ s = joinpath (parent w) n /\
                exists_ s = true
  | None =>
      exists_ (joinpath (parent w) "segm.nii.gz") = false /\
      exists_ (joinpath (parent w) "segm.nii") = false
  end.
Proof.
  unfold find_segm_near. cbv zeta.
  destruct (exists_ (joinpath (parent w) "segm.nii.gz")) eqn:E1.
  - exists "segm.nii.gz". cbn [In]. auto.
  - destruct (exists_ (joinpath (parent w) "segm.nii")) eqn:E2.
    + exists "segm.nii". cbn [In]. auto.
    + auto.
Qed.

Lemma matched_path_indexed (exists_ : Path -> bool) (subdirs : Path -> list string)
      (pre_root : Path) (r : dict) (w : Path) :
  matched_path (index_of exists_ subdirs pre_root) r = Some w ->
  exists_ w = true /\ In (name w) warped_names.
Proof.
  unfold matched_path. intros H. apply choose_best_In in H.
  apply collect_cands_indexed in H. destruct H as (dname & l & Hl & Hw).
  apply index_of_spec in Hl. destruct Hl as (_ & _ & ->).
  apply list_warped_under_spec in Hw. tauto.
Qed.

Section Rows.
Variable exists_ : Path -> bool.
Variable subdirs : Path -> list string.
Variable resolve : Path -> Path.
Variable meta : list (string * Meta).
Variable pre_root : Path.

Local Abbreviation index := (index_of exists_ subdirs pre_root).
Local Abbreviation run := (main exists_ subdirs resolve meta pre_root).
Local Abbreviation row_of := (build_row exists_ resolve meta).

(** X25: a source row whose subject id names a scanned directory that
    holds an artifact is never skipped: it is matched to an artifact of
    primary score 100 or more, and the loop appends the row built for it. *)
Theorem indexed_subject_is_matched (r : dict) (w0 : Path) (st : LoopState) :
  subject_id_of r <> EmptyString ->
  subject_id_of r <> "_ALL" ->
  In (subject_id_of r) (subdirs pre_root) ->
  In w0 (list_warped_under exists_ subdirs (joinpath pre_root (subject_id_of r))) ->
  exists w,
    matched_path index r = Some w /\
    100 <= fst (score_candidate w (subject_id_of r) (image_id_of r)
                                (series_id_of r) (image_visit_of r)) /\
    process_row exists_ resolve index meta st r =
      mkState (out_rows st ++ [row_of r w]) (skipped st) (matched st + 1).
Proof.
  intros Hne Hall Hdir Hw0.
  assert (Hnorm : normalize (subject_id_of r) = subject_id_of r)
    by (unfold subject_id_of, normalize; apply strip_idem).
  assert (Hpool : In w0 (collect_cands index (subject_id_of r) (image_id_of r))).
  { assert (Hb : nonempty (subject_id_of r) = true)
      by (destruct (subject_id_of r); [congruence | reflexivity]).
    exact (collect_cands_subject index _ _ _ w0 Hb
             (index_of_lookup exists_ subdirs pre_root _ Hdir Hall) Hw0). }
  assert (Hscore : 100 <= fst (score_candidate w0 (subject_id_of r) (image_id_of r)
                                               (series_id_of r) (image_visit_of r))).
  { apply score_subject_segment; rewrite Hnorm; [exact Hne|].
    now apply (under_parts exists_ subdirs pre_root). }
  destruct (choose_best_scored (subject_id_of r) (image_id_of r) (series_id_of r)
                               (image_visit_of r) _ w0 Hpool ltac:(lia))
    as (w & E & _ & Hle).
  exists w. unfold process_row, matched_path. rewrite E.
  split; [reflexivity|]. split; [lia | reflexivity].
Qed.

End Rows.

(** The theorem at the sample directory and a source row of subject
    [S1]. *)
Lemma indexed_subject_is_matched_witness :
  exists w,
    matched_path (index_of TreeExamples.tree_exists TreeExamples.tree_subdirs
                           TreeExamples.pre_root) TreeExamples.source_row_S1 = Some w /\
    100 <= fst (score_candidate w (subject_id_of TreeExamples.source_row_S1)
                                (image_id_of TreeExamples.source_row_S1)
                                (series_id_of TreeExamples.source_row_S1)
                                (image_visit_of TreeExamples.source_row_S1)) /\
    process_row TreeExamples.tree_exists Examples.resolved
                (index_of TreeExamples.tree_exists TreeExamples.tree_subdirs
                          TreeExamples.pre_root) [] (mkState [] 0 0)
                TreeExamples.source_row_S1 =
      mkState (out_rows (mkState [] 0 0)
               ++ [build_row TreeExamples.tree_exists Examples.resolved []
                             TreeExamples.source_row_S1 w])
              (skipped (mkState [] 0 0)) (matched (mkState [] 0 0) + 1).
Proof.
  apply (indexed_subject_is_matched
           TreeExamples.tree_exists TreeExamples.tree_subdirs Examples.resolved []
           TreeExamples.pre_root TreeExamples.source_row_S1 TreeExamples.artifact_S1
           (mkState [] 0 0)).
  - vm_compute. discriminate.
  - vm_compute. discriminate.
  - vm_compute. left. reflexivity.
  - vm_compute. left. reflexivity.
Defined.

Section WrittenRows.
Variable exists_ : Path -> bool.
Variable subdirs : Path -> list string.
Variable resolve : Path -> Path.
Variable meta : list (string * Meta).
Variable pre_root : Path.

Local Abbreviation index := (index_of exists_ subdirs pre_root).
Local Abbreviation run := (main exists_ subdirs resolve meta pre_root).

(** X26: every row that [main] writes is built from a source row among
    those processed and an existing artifact of the index matched to it:
    its subject id and split are those of the source row, the split being
    [train] when the source row has none; its image id is that of the source
    row, or [turboprep_Warped] when the source row has none; its image path
    is the resolved path of the artifact, its latent path is derived from
    the image path, and its segmentation path is empty or the resolved path
    of an existing [segm.nii.gz] or [segm.nii] next to the artifact.  The
    rows skipped and the rows written add up to the rows processed, which
    are all source rows or, with a positive limit, the first [limit]. *)
Theorem main_rows_are_well_formed (limit : Z) (rows_in : list dict) :
  Forall
    (fun row =>
       exists r w,
         In r (rows_to_process limit rows_in) /\
         matched_path index r = Some w /\
         exists_ w = true /\ In (name w) warped_names /\
         subject_id row = subject_id_of r /\
         image_uid row
           = (if nonempty (image_id_of r) then image_id_of r else "turboprep_Warped") /\
         split row = split_of r /\ split row <> EmptyString /\
         image_path row = str (resolve w) /\
         latent_path row = latent_of (image_path row) /\
         (segm_path row = EmptyString \/
          exists n, In n ["segm.nii.gz"; "segm.nii"] /\
                    exists_ (joinpath (parent w) n) = true /\
                    segm_path row = str (resolve (joinpath (parent w) n))))
    (out_rows (run limit rows_in)) /\
  skipped (run limit rows_in) + matched (run limit rows_in)
    = Z.of_nat (if 0 <? limit then Nat.min (Z.to_nat limit) (List.length rows_in)
                else List.length rows_in) /\
  matched (run limit rows_in) = Z.of_nat (List.length (out_rows (run limit rows_in))).
Proof.
  unfold main.
  destruct (main_loop_counts exists_ resolve index meta (rows_to_process limit rows_in))
    as (Hout & _ & Hm & Hsum).
  split; [|split; [|exact Hm]].
  - rewrite Hout. apply Forall_forall. intros row Hrow.
    apply in_flat_map in Hrow. destruct Hrow as (r & Hr & Hrow).
    destruct (matched_path index r) as [w|] eqn:E; [|destruct Hrow].
    destruct Hrow as [<- | []].
    destruct (matched_path_indexed exists_ subdirs pre_root r w E) as [He Hn].
    exists r, w. split; [exact Hr|]. split; [exact E|]. split; [exact He|].
    split; [exact Hn|].
    unfold build_row. cbv zeta.
    cbn [subject_id image_uid split image_path latent_path segm_path].
    split; [reflexivity|]. split.
    { destruct (nonempty (image_id_of r)); [reflexivity|]. now apply derived_image_uid. }
    split; [reflexivity|]. split.
    { unfold split_of. destruct (normalize (get r "split" "")); discriminate. }
    split; [reflexivity|]. split; [reflexivity|].
    pose proof (find_segm_near_spec exists_ w) as Hs.
    destruct (find_segm_near exists_ w) as [s|]; [|now left].
    destruct Hs as (n & Hn' & -> & Hes). right. exists n. auto.
  - rewrite Hsum. unfold rows_to_process.
    destruct (0 <? limit); [|reflexivity]. now rewrite length_firstn.
Qed.

End WrittenRows.

(** ** The latent path next to the image *)

Lemma startswith_empty (s : string) : startswith s "" = true.
Proof. now destruct s. Qed.

Lemma turboprep_no_early_start (s : string) :
  startswith s ".nii" = false ->
  startswith (s ++ "/turboprep_Warped") ".nii" = false.
Proof.
  destruct s as [|a [|b [|c [|d r]]]]; cbn [append startswith]; intros H;
    rewrite ?startswith_empty in *;
    repeat match goal with
           | |- context [Ascii.eqb ?x ?y] =>
               is_var y; destruct (Ascii.eqb x y); cbn [andb] in *
           end; reflexivity || exact H.
Qed.

Lemma turboprep_stem_no_nii (dir : string) :
  contains dir ".nii" = false ->
  contains (dir ++ "/turboprep_Warped") ".nii" = false.
Proof.
  induction dir as [|c dir IH]; intros H; [reflexivity|].
  destruct (contains_cons_false _ _ _ H) as [Hs Hc].
  change (String c dir ++ "/turboprep_Warped")%string
    with (String c (dir ++ "/turboprep_Warped")).
  cbn [contains]. rewrite (IH Hc), orb_false_r.
  exact (turboprep_no_early_start (String c dir) Hs).
Qed.

(** X27: for an artifact in a directory whose path holds no [.nii], the
    latent path derived by line 177 is the file [turboprep_Warped_latent.npz]
    of the same directory, for either name of the artifact. *)
Theorem latent_path_next_to_artifact (dir : string) :
  contains dir ".nii" = false ->
  latent_of (dir ++ "/turboprep_Warped.nii.gz")
    = (dir ++ "/turboprep_Warped_latent.npz")%string /\
  latent_of (dir ++ "/turboprep_Warped.nii")
    = (dir ++ "/turboprep_Warped_latent.npz")%string.
Proof.
  intros Hdir.
  pose proof (latent_of_suffix_only _ (turboprep_stem_no_nii dir Hdir)) as [H1 H2].
  rewrite !string_app_assoc in H1, H2. cbn [append] in H1, H2.
  split; [exact H1 | exact H2].
Qed.

(** The theorem at the directory [/pre/S1]. *)
Lemma latent_path_next_to_artifact_witness :
  latent_of ("/pre/S1" ++ "/turboprep_Warped.nii.gz")
    = ("/pre/S1" ++ "/turboprep_Warped_latent.npz")%string /\
  latent_of ("/pre/S1" ++ "/turboprep_Warped.nii")
    = ("/pre/S1" ++ "/turboprep_Warped_latent.npz")%string.
Proof.
  exact (latent_path_next_to_artifact "/pre/S1" eq_refl).
Defined.

End ConvertIndexFacts.

(* ================================================================== *)
(** * The rows read from a sheet *)
(* ================================================================== *)

Module CsvRowsFacts.
Import PyStr PyStrFacts PyDict AdniIndex CsvRows AdniIndexFacts.
Local Open Scope list_scope.

Lemma dict_set_keys {A : Type} (d : list (string * A)) (k : string) (v : A) :
  forall k', In k' (map fst (dict_set d k v)) <-> In k' (map fst d) \/ k' = k.
Proof.
  induction d as [|[k0 v0] d IH]; intros k'; cbn [dict_set map fst In].
  - split; [intros [H | []]; now right | intros [[] | H]; now left].
  - destruct (String.eqb_spec k0 k) as [-> | Hne]; cbn [map fst In].
    + split; [intros [H | H]; auto | intros [[H | H] | H]; auto].
    + rewrite IH. tauto.
Qed.

Lemma dict_set_NoDup {A : Type} (d : list (string * A)) (k : string) (v : A) :
  NoDup (map fst d) -> NoDup (map fst (dict_set d k v)).
Proof.
  induction d as [|[k0 v0] d IH]; intros H; cbn [dict_set map fst].
  - constructor; [intros [] | constructor].
  - inversion H as [|x l Hnot Hnd]; subst.
    destruct (String.eqb_spec k0 k) as [-> | Hne]; cbn [map fst].
    + now constructor.
    + constructor; [|now apply IH].
      rewrite dict_set_keys. intros [Hin | E]; [now apply Hnot | congruence].
Qed.

Lemma dict_set_In {A : Type} (d : list (string * A)) (k : string) (v : A) :
  forall kv, In kv (dict_set d k v) -> In kv d \/ kv = (k, v).
Proof.
  induction d as [|[k0 v0] d IH]; intros kv; cbn [dict_set In].
  - intros [<- | []]. now right.
  - destruct (String.eqb_spec k0 k) as [-> | Hne]; cbn [In].
    + intros [<- | H]; [now right | left; now right].
    + intros [<- | H]; [left; now left|].
      destruct (IH _ H) as [H' | H']; [left; now right | now right].
Qed.

Lemma dict_set_fresh {A : Type} (d : list (string * A)) (k : string) (v : A) :
  ~ In k (map fst d) -> dict_set d k v = d ++ [(k, v)].
Proof.
  induction d as [|[k0 v0] d IH]; intros H; cbn [dict_set]; [reflexivity|].
  cbn [map fst In] in H.
  destruct (String.eqb_spec k0 k) as [-> | Hne]; [tauto|].
  cbn [app]. f_equal. apply IH. tauto.
Qed.

(** ** Filling a dict from a list of pairs *)

(** Both the reader and the comprehension fill a dict pair by pair, the
    first with the names and cells as they are, the second with both
    stripped. *)
Section Fill.
Variables f g : string -> string.
Local Abbreviation fill := (fill f g).

Lemma fill_snoc (l : dict) (kv : string * string) (acc : dict) :
  fill (l ++ [kv]) acc = dict_set (fill l acc) (f (fst kv)) (g (snd kv)).
Proof. unfold fill. now rewrite fold_left_app. Qed.

Lemma fill_invariants (l : dict) :
  NoDup (map fst (fill l [])) /\
  (forall kv, In kv (fill l []) ->
              exists kv0, In kv0 l /\ kv = (f (fst kv0), g (snd kv0))) /\
  (forall k, In k (map fst (fill l [])) <-> exists kv, In kv l /\ f (fst kv) = k).
Proof.
  induction l as [|kv l (Hn & Hs & Hk)] using rev_ind.
  - split; [constructor|]. split; [intros kv [] |].
    intros k. split; [intros [] | intros (kv & [] & _)].
  - rewrite fill_snoc. split; [now apply dict_set_NoDup|]. split.
    + intros kv' Hin. apply dict_set_In in Hin. destruct Hin as [Hin | ->].
      * destruct (Hs _ Hin) as (kv0 & H0 & E). exists kv0.
        split; [apply in_or_app; now left | exact E].
      * exists kv. split; [apply in_or_app; right; now left | reflexivity].
    + intros k. rewrite dict_set_keys, Hk. split.
      * intros [(kv' & Hin & E) | ->].
        -- exists kv'. split; [apply in_or_app; now left | exact E].
        -- exists kv. split; [apply in_or_app; right; now left | reflexivity].
      * intros (kv' & Hin & E). apply in_app_or in Hin.
        destruct Hin as [Hin | [<- | []]]; [left; eauto | now right].
Qed.

(** Pairs whose keys are new and pairwise distinct are appended in
    order. *)
Lemma fill_fresh (l : dict) :
  forall acc,
    NoDup (map fst acc ++ map (fun kv => f (fst kv)) l) ->
    fill l acc = acc ++ map (fun kv => (f (fst kv), g (snd kv))) l.
Proof.
  induction l as [|[k v] l IH]; intros acc Hn; cbn [fill fold_left map].
  - now rewrite app_nil_r.
  - cbn [map fst snd] in Hn.
    assert (Hfresh : ~ In (f k) (map fst acc)).
    { apply NoDup_remove_2 in Hn. intros H. apply Hn. apply in_or_app. now left. }
    cbn [fst snd]. rewrite (dict_set_fresh acc (f k) (g v) Hfresh).
    fold (fill l (acc ++ [(f k, g v)])). rewrite IH.
    + now rewrite <- app_assoc.
    + rewrite map_app. cbn [map fst]. rewrite <- app_assoc. exact Hn.
Qed.

(** The value under a key is the one of the last pair with that key. *)
Lemma get_fill_others (k : string) (post : dict) :
  Forall (fun kv => f (fst kv) <> k) post ->
  forall d, get (fill post d) k "" = get d k "".
Proof.
  induction 1 as [|kv post Hkv _ IH]; intros d; cbn [fill fold_left]; [reflexivity|].
  fold (fill post (dict_set d (f (fst kv)) (g (snd kv)))).
  rewrite IH, get_dict_set.
  destruct (String.eqb_spec (f (fst kv)) k) as [E | _]; [congruence | reflexivity].
Qed.

Lemma get_fill_last (pre post : dict) (k v : string) :
  Forall (fun kv => f (fst kv) <> f k) post ->
  get (fill (pre ++ (k, v) :: post) []) (f k) "" = g v.
Proof.
  intros Hpost. unfold fill. rewrite fold_left_app. cbn [fold_left fst snd].
  fold (fill pre []).
  fold (fill post (dict_set (fill pre []) (f k) (g v))).
  rewrite (get_fill_others _ _ Hpost), get_dict_set.
  now rewrite String.eqb_refl.
Qed.

End Fill.

Local Abbreviation same := (fun s : string => s).

Lemma clean_row_fill (r : dict) : clean_row r = fill strip strip r [].
Proof. reflexivity. Qed.

(** ** The dict of the reader *)

Lemma fill_missing (names : list string) :
  forall d,
    fold_left (fun d key => dict_set d key "") names d =
    fill same same (combine names (repeat "" (List.length names))) d.
Proof.
  induction names as [|n names IH]; intros d; [reflexivity|].
  cbn [fold_left List.length repeat combine fill fst snd]. apply IH.
Qed.

(** The dict of the reader is filled from the names and the cells, the
    line being filled up with empty cells. *)
Lemma dict_reader_row_padded (row : list string) :
  forall fieldnames,
    (List.length row <= List.length fieldnames)%nat ->
    dict_reader_row fieldnames row =
    fill same same (combine fieldnames (padded fieldnames row)) [].
Proof.
  unfold dict_reader_row, padded. generalize (@nil (string * string)).
  induction row as [|c row IH]; intros acc fieldnames Hlen.
  - cbn [List.length skipn app]. rewrite Nat.sub_0_r.
    replace (combine fieldnames []) with (@nil (string * string))
      by (now destruct fieldnames).
    cbn [fold_left]. apply fill_missing.
  - destruct fieldnames as [|n names]; cbn [List.length] in Hlen; [lia|].
    cbn [List.length skipn combine fold_left app Nat.sub fill fst snd].
    apply IH. lia.
Qed.

Lemma padded_length (fieldnames row : list string) :
  (List.length row <= List.length fieldnames)%nat ->
  List.length (padded fieldnames row) = List.length fieldnames.
Proof. intros H. unfold padded. rewrite length_app, repeat_length. lia. Qed.

Lemma map_fst_combine_same {A B : Type} (l : list A) :
  forall l' : list B, List.length l' = List.length l -> map fst (combine l l') = l.
Proof.
  induction l as [|a l IH]; intros [|b l'] H; try discriminate H; [reflexivity|].
  cbn [combine map fst]. f_equal. apply IH. now injection H.
Qed.

Lemma map_pair_combine {A B C D : Type} (f : A -> C) (g : B -> D) (l : list A) :
  forall l' : list B,
    map (fun kv => (f (fst kv), g (snd kv))) (combine l l') = combine (map f l) (map g l').
Proof.
  induction l as [|a l IH]; intros [|b l']; try reflexivity.
  cbn [combine map fst snd]. f_equal. apply IH.
Qed.

Lemma map_pair_eta {A B : Type} (l : list (A * B)) :
  map (fun kv => (fst kv, snd kv)) l = l.
Proof.
  induction l as [|[a b] l IH]; [reflexivity|]. cbn [map fst snd]. now rewrite IH.
Qed.

Lemma NoDup_map_source {A B : Type} (f : A -> B) (l : list A) :
  NoDup (map f l) -> NoDup l.
Proof.
  induction l as [|a l IH]; intros H; [constructor|].
  cbn [map] in H. inversion H as [|x l' Hnot Hnd]; subst.
  constructor; [|now apply IH].
  intros Hin. apply Hnot. now apply in_map.
Qed.

(** With headers that stay pairwise distinct once stripped, a line is read
    column by column. *)
Lemma read_row_distinct_headers (fieldnames row : list string) :
  (List.length row <= List.length fieldnames)%nat ->
  NoDup (map strip fieldnames) ->
  clean_row (dict_reader_row fieldnames row) =
  combine (map strip fieldnames) (map strip (padded fieldnames row)).
Proof.
  intros Hlen Hn.
  pose proof (padded_length _ _ Hlen) as Hp.
  rewrite (dict_reader_row_padded row fieldnames Hlen).
  rewrite (fill_fresh same same).
  - cbn [app]. rewrite clean_row_fill, (fill_fresh strip strip).
    + cbn [app]. rewrite map_pair_eta. apply map_pair_combine.
    + cbn [map app]. rewrite map_pair_eta.
      rewrite <- (map_map fst strip).
      now rewrite (map_fst_combine_same fieldnames _ Hp).
  - cbn [map app].
    change (NoDup (map fst (combine fieldnames (padded fieldnames row)))).
    rewrite (map_fst_combine_same fieldnames _ Hp).
    exact (NoDup_map_source strip _ Hn).
Qed.

(** What holds of the row [r] read from the line [row]. *)
#[warnings="-inconsistent-scopes"] Local Abbreviation row_read fieldnames row r :=
  (NoDup (keys r) /\
   Forall (fun kv => strip (fst kv) = fst kv /\ strip (snd kv) = snd kv) (r : dict) /\
   (forall k, In k (keys r) <-> exists h, In h fieldnames /\ strip h = k) /\
   (forall pre h v post,
       combine fieldnames (padded fieldnames row) = pre ++ (h, v) :: post ->
       Forall (fun kv => fst kv <> h) post ->
       get (dict_reader_row fieldnames row) h "" = v) /\
   (forall pre h v post,
       dict_reader_row fieldnames row = pre ++ (h, v) :: post ->
       Forall (fun kv => strip (fst kv) <> strip h) post ->
       get r (strip h) "" = strip v) /\
   clean_row r = r).

Lemma read_row_spec (fieldnames row : list string) :
  match read_row fieldnames row with
  | None => (List.length fieldnames < List.length row)%nat
  | Some r => (List.length row <= List.length fieldnames)%nat /\
              row_read fieldnames row r
  end.
Proof.
  unfold read_row.
  destruct (List.length fieldnames <? List.length row)%nat eqn:E.
  - now apply Nat.ltb_lt.
  - apply Nat.ltb_ge in E. split; [exact E|].
    set (d := dict_reader_row fieldnames row).
    rewrite clean_row_fill.
    destruct (fill_invariants strip strip d) as (Hn & Hs & Hk).
    split; [exact Hn|]. split; [|split; [|split; [|split]]].
    + apply Forall_forall. intros kv Hin.
      destruct (Hs _ Hin) as (kv0 & _ & ->). cbn [fst snd].
      now rewrite !strip_idem.
    + intros k. unfold keys. rewrite Hk. unfold d.
      rewrite (dict_reader_row_padded row fieldnames E).
      destruct (fill_invariants same same
                  (combine fieldnames (padded fieldnames row))) as (_ & Hs0 & Hk0).
      split.
      * intros ([h v] & Hin & <-). exists h. split; [|reflexivity].
        destruct (Hs0 _ Hin) as ([h0 v0] & Hin0 & E0). cbn [fst snd] in E0.
        injection E0 as -> ->. now apply in_combine_l in Hin0.
      * intros (h & Hin & <-).
        assert (Hkey : In h (map fst (fill same same
                         (combine fieldnames (padded fieldnames row)) []))).
        { apply Hk0.
          rewrite <- (map_fst_combine_same fieldnames (padded fieldnames row)
                        (padded_length _ _ E)) in Hin.
          apply in_map_iff in Hin. destruct Hin as (kv & Ekv & Hin).
          exists kv. auto. }
        apply in_map_iff in Hkey. destruct Hkey as (kv & Ekv & Hin').
        exists kv. split; [exact Hin' | now rewrite Ekv].
    + intros pre h v post Epairs Hpost. unfold d.
      rewrite (dict_reader_row_padded row fieldnames E), Epairs.
      exact (get_fill_last same same pre post h v Hpost).
    + intros pre h v post Ed Hpost. rewrite Ed.
      exact (get_fill_last strip strip pre post h v Hpost).
    + change (fill strip strip (fill strip strip d []) [] = fill strip strip d []).
      rewrite (fill_fresh strip strip (fill strip strip d []) []).
      * cbn [app]. rewrite <- (map_id (fill strip strip d [])) at 2.
        apply map_ext_in. intros [k v] Hin.
        destruct (Hs _ Hin) as (kv0 & _ & E0). injection E0 as -> ->.
        cbn [fst snd]. now rewrite !strip_idem.
      * cbn [map app].
        replace (map (fun kv => strip (fst kv)) (fill strip strip d []))
          with (map fst (fill strip strip d [])); [exact Hn|].
        apply map_ext_in. intros [k v] Hin.
        destruct (Hs _ Hin) as (kv0 & _ & E0). injection E0 as -> ->.
        cbn [fst]. now rewrite strip_idem.
Qed.

Lemma read_all_spec (fieldnames : list string) (rows : list (list string)) :
  match read_all fieldnames rows with
  | None => exists row, In row rows /\ (List.length fieldnames < List.length row)%nat
  | Some out =>
      Forall2 (fun row r => read_row fieldnames row = Some r) rows out
  end.
Proof.
  induction rows as [|row rows IH]; cbn [read_all]; [constructor|].
  pose proof (read_row_spec fieldnames row) as Hrow.
  destruct (read_row fieldnames row) as [r|] eqn:Er.
  - destruct (read_all fieldnames rows) as [out|].
    + now constructor.
    + destruct IH as (row' & Hin & Hlen). exists row'. split; [now right | exact Hlen].
  - exists row. split; [now left | exact Hrow].
Qed.

(** The header [a], [ a], [a] over the cells 1, 2, 3: the reader keeps
    [a] with 3 and [ a] with 2, and the comprehension, which meets the key
    [a] a second time, leaves 2 under it. *)
Example read_row_repeated_header :
  dict_reader_row ["a"; " a"; "a"] ["1"; "2"; "3"] = [("a", "3"); (" a", "2")] /\
  read_rows [["a"; " a"; "a"]; ["1"; "2"; "3"]] = Some [[("a", "2")]] /\
  read_rows [["a"; "b"; "a"]; ["1"]; []; ["5"; "6"; "7"]]
    = Some [[("a", ""); ("b", "")]; [("a", "7"); ("b", "6")]] /\
  read_rows [["a"; "b"]; ["1"; "2"; "3"]] = None.
Proof. repeat split; vm_compute; reflexivity. Qed.

(** X28: reading a sheet fails exactly when a line has more cells than
    the header has names.  Otherwise every line but the blank ones gives a
    row, in order; a row has pairwise distinct keys, the stripped header
    names; its keys and cells are stripped of surrounding white space; the
    reader's dict holds under a name the cell of the last column with that
    name (empty past the end of the line), the row holds under a key the
    stripped value of the last entry of that dict whose name strips to the
    key, and cleaning the row again returns it unchanged.  When the header
    names stay pairwise distinct once stripped, the row pairs the stripped
    names with the stripped cells, column by column. *)
Theorem read_rows_are_stripped (fieldnames : list string) (rest : list (list string)) :
  match read_rows (fieldnames :: rest) with
  | None =>
      exists row, In row rest /\ (List.length fieldnames < List.length row)%nat
  | Some out =>
      Forall (fun row => (List.length row <= List.length fieldnames)%nat) rest /\
      Forall2
        (fun row r =>
           NoDup (keys r) /\
           Forall (fun kv => strip (fst kv) = fst kv /\ strip (snd kv) = snd kv) r /\
           (forall k, In k (keys r) <-> exists h, In h fieldnames /\ strip h = k) /\
           (forall pre h v post,
               combine fieldnames (padded fieldnames row) = pre ++ (h, v) :: post ->
               Forall (fun kv => fst kv <> h) post ->
               get (dict_reader_row fieldnames row) h "" = v) /\
           (forall pre h v post,
               dict_reader_row fieldnames row = pre ++ (h, v) :: post ->
               Forall (fun kv => strip (fst kv) <> strip h) post ->
               get r (strip h) "" = strip v) /\
           clean_row r = r)
        (filter nonblank rest) out /\
      (NoDup (map strip fieldnames) ->
       out = map (fun row => combine (map strip fieldnames)
                                     (map strip (padded fieldnames row)))
                 (filter nonblank rest))
  end.
Proof.
  cbn [read_rows].
  pose proof (read_all_spec fieldnames (filter nonblank rest)) as Hall.
  destruct (read_all fieldnames (filter nonblank rest)) as [out|].
  - assert (Hrows : Forall2 (fun row r =>
                       (List.length row <= List.length fieldnames)%nat /\
                       row_read fieldnames row r /\
                       r = clean_row (dict_reader_row fieldnames row))
                      (filter nonblank rest) out).
    { induction Hall as [|row r rows out' Hr _ IH]; constructor; [|exact IH].
      pose proof (read_row_spec fieldnames row) as Hspec. rewrite Hr in Hspec.
      destruct Hspec as [Hlen Hread]. split; [exact Hlen|]. split; [exact Hread|].
      unfold read_row in Hr.
      destruct (List.length fieldnames <? List.length row)%nat; [discriminate Hr|].
      now injection Hr. }
    clear Hall. split; [|split].
    + apply Forall_forall. intros row Hin.
      destruct row as [|c row]; [cbn [List.length]; lia|].
      assert (Hin' : In (c :: row) (filter nonblank rest))
        by (apply filter_In; split; [exact Hin | reflexivity]).
      clear Hin. induction Hrows as [|row' r rows out' (Hlen & _) _ IH];
        [destruct Hin'|].
      destruct Hin' as [-> | Hin']; [exact Hlen | now apply IH].
    + induction Hrows as [|row r rows out' (_ & Hread & _) _ IH]; constructor;
        [exact Hread | exact IH].
    + intros Hn. induction Hrows as [|row r rows out' (Hlen & _ & ->) _ IH];
        [reflexivity|].
      cbn [map]. f_equal; [|exact IH].
      now apply read_row_distinct_headers.
  - destruct Hall as (row & Hin & Hlen). exists row. split; [|exact Hlen].
    apply filter_In in Hin. now destruct Hin.
Qed.

End CsvRowsFacts.


(* ================================================================== *)
(** * clean_quotes.py *)
(* ================================================================== *)

Module CleanQuotesFacts.
Import PyStr PyStrFacts CleanQuotes.
Local Open Scope list_scope.

Lemma startswith_nil (s : string) : startswith s "" = true.
Proof. now destruct s. Qed.

(** Replacing a character by nothing filters it out. *)
Lemma replace_char_filter (c : ascii) (s : string) :
  replace s (String c EmptyString) "" = filter_str (fun a => negb (Ascii.eqb c a)) s.
Proof.
  unfold replace. induction s as [|a s IH]; [reflexivity|].
  cbn [replace_from filter_str startswith String.length Nat.pred append].
  rewrite startswith_nil, andb_true_r.
  destruct (Ascii.eqb c a); cbn [negb]; now rewrite IH.
Qed.

Lemma filter_str_twice (p q : ascii -> bool) (s : string) :
  filter_str q (filter_str p s) = filter_str (fun a => p a && q a) s.
Proof.
  induction s as [|a s IH]; [reflexivity|]. cbn [filter_str].
  destruct (p a); cbn [andb filter_str]; [|exact IH].
  destruct (q a); now rewrite IH.
Qed.

Lemma filter_str_ext (p q : ascii -> bool) (s : string) :
  (forall a, p a = q a) -> filter_str p s = filter_str q s.
Proof.
  intros H. induction s as [|a s IH]; [reflexivity|]. cbn [filter_str].
  now rewrite H, IH.
Qed.

Lemma clean_cell_filter (cell : string) :
  clean_cell cell = filter_str (fun a => negb (is_quote a)) cell.
Proof.
  unfold clean_cell. rewrite !replace_char_filter, filter_str_twice.
  apply filter_str_ext. intros a. unfold is_quote.
  rewrite negb_orb, (Ascii.eqb_sym a apostrophe), (Ascii.eqb_sym a double_quote).
  reflexivity.
Qed.

Lemma filtered_char_absent (p : ascii -> bool) (c : ascii) (s : string) :
  p c = false -> contains (filter_str p s) (String c EmptyString) = false.
Proof.
  intros Hc. induction s as [|a s IH]; [reflexivity|]. cbn [filter_str].
  destruct (p a) eqn:Ea; [|exact IH].
  cbn [contains startswith]. rewrite IH, orb_false_r.
  destruct (Ascii.eqb_spec c a) as [-> | _]; [congruence | reflexivity].
Qed.

(** X29: cleaning a cell removes every apostrophe and every double quote
    and nothing else: the result is the cell without these characters, in
    the same order; it holds neither character, cleaning it again changes
    nothing, and a cell without quotes is left as it is.  The rows written
    have the numbers of rows and of cells of the rows read. *)
Theorem clean_cell_removes_quotes (cell : string) (rows : list (list string)) :
  clean_cell cell = filter_str (fun a => negb (is_quote a)) cell /\
  contains (clean_cell cell) (String apostrophe EmptyString) = false /\
  contains (clean_cell cell) (String double_quote EmptyString) = false /\
  clean_cell (clean_cell cell) = clean_cell cell /\
  (contains cell (String apostrophe EmptyString)
   || contains cell (String double_quote EmptyString) = false ->
   clean_cell cell = cell) /\
  map (@List.length string) (clean_rows rows) = map (@List.length string) rows.
Proof.
  split; [apply clean_cell_filter|]. rewrite !clean_cell_filter.
  split; [now apply filtered_char_absent|]. split; [now apply filtered_char_absent|].
  split; [|split].
  - rewrite filter_str_twice. apply filter_str_ext. intros a.
    now destruct (negb (is_quote a)).
  - intros H. apply orb_false_elim in H. destruct H as [H1 H2].
    rewrite <- clean_cell_filter. unfold clean_cell.
    rewrite (replace_unchanged _ _ _ H1). now apply replace_unchanged.
  - unfold clean_rows. rewrite map_map. apply map_ext. intros row. apply length_map.
Qed.

(** A text that does not start with [.csv] does not come to start with it
    when [.csv] is appended. *)
Lemma csv_no_early_start (t : string) :
  t <> EmptyString ->
  startswith t ".csv" = false -> startswith (t ++ ".csv") ".csv" = false.
Proof.
  intros Hne H.
  destruct t as [|c1 [|c2 [|c3 [|c4 r]]]]; [congruence | | | |];
    cbn [startswith append] in *; rewrite ?startswith_nil in *;
    repeat match goal with
           | |- context [Ascii.eqb ?a ?b] =>
               is_var b; destruct (Ascii.eqb_spec a b); [subst|]; cbn [andb] in *
           end;
    try discriminate; try reflexivity; try exact H.
Qed.

(** X30: the name of the output file.  For an input name that ends in
    [.csv] and holds no other [.csv], the output name has [_clean.csv] in
    place of that ending; for an input name that holds no [.csv] at all, the
    output name is the input name itself. *)
Theorem output_file_name (stem : string) :
  contains stem ".csv" = false ->
  output_file (stem ++ ".csv") = (stem ++ "_clean.csv")%string /\
  output_file stem = stem.
Proof.
  intros H. unfold output_file. split; [|now apply replace_unchanged].
  apply replace_at_end; [discriminate|].
  clear -H. induction stem as [|c r IH]; intros pre c' t E.
  - destruct pre; discriminate E.
  - apply contains_cons_false in H. destruct H as [H1 H2].
    destruct pre as [|x pre]; cbn [append] in E; injection E as -> ->.
    + apply csv_no_early_start; [discriminate | exact H1].
    + now apply (IH H2 pre).
Qed.

(** The theorem at the name [data/rows]. *)
Lemma output_file_name_witness :
  output_file ("data/rows" ++ ".csv") = ("data/rows" ++ "_clean.csv")%string /\
  output_file "data/rows" = "data/rows".
Proof.
  exact (output_file_name "data/rows" eq_refl).
Defined.

End CleanQuotesFacts.

(* ================================================================== *)
(** * Binary64: the gap threshold of the pairing, the split counts *)
(* ================================================================== *)

Module Binary64Facts.
Import PyStr PyDict Row Timestamp PrepareCsv Binary64 PairingFacts.
Local Open Scope list_scope.

(** The literal of the code is the correctly rounded quotient of 3652425
    by 10000. *)
Lemma days_per_year_literal :
  float_div (float_of_int 3652425) (float_of_int 10000) = days_per_year.
Proof. vm_compute. reflexivity. Qed.

(** The literals of the automatic split are the correctly rounded
    quotients, and for up to a thousand rows of a subject [int(0.8*n)] and
    [int(0.1*n)] are the integer quotients of [8n] and [n] by 10. *)
Lemma split_literals :
  float_div (float_of_int 8) (float_of_int 10) = literal_0_8 /\
  float_div (float_of_int 1) (float_of_int 10) = literal_0_1.
Proof. split; vm_compute; reflexivity. Qed.

Lemma split_counts_in_binary64 (n : nat) :
  (n <= 1000)%nat ->
  int_of_float (float_mul literal_0_8 (float_of_int (Z.of_nat n)))
    = Z.of_nat (8 * n / 10) /\
  int_of_float (float_mul literal_0_1 (float_of_int (Z.of_nat n)))
    = Z.of_nat (n / 10).
Proof.
  intros Hn.
  assert (Hall : forallb split_counts_agree (seq 0 1001) = true)
    by (vm_compute; reflexivity).
  rewrite forallb_forall in Hall.
  specialize (Hall n ltac:(apply in_seq; lia)).
  unfold split_counts_agree in Hall. apply andb_prop in Hall.
  destruct Hall as [H8 H1]. apply Z.eqb_eq in H8, H1. now split.
Qed.

(** The threshold on the whole range, by evaluation. *)
Lemma threshold_grid :
  forallb (fun k => forallb (fun d => threshold_is_exact d k) (zrange 367))
          (zrange 81) = true.
Proof. vm_compute. reflexivity. Qed.

Lemma zrange_In (n : nat) (z : Z) : 0 <= z < Z.of_nat n -> In z (zrange n).
Proof.
  intros H. unfold zrange. apply in_map_iff. exists (Z.to_nat z).
  split; [lia|]. apply in_seq. lia.
Qed.

Lemma threshold_in_range (min_days k : Z) :
  0 <= min_days <= 366 -> 0 <= k <= 80 ->
  td_thresh (F := binary64) min_days (quarters k)
  = (min_days * 86400 + k * 7889238) * 1000000.
Proof.
  intros Hd Hk. pose proof threshold_grid as Hgrid.
  rewrite forallb_forall in Hgrid.
  specialize (Hgrid k (zrange_In 81 k ltac:(lia))).
  rewrite forallb_forall in Hgrid.
  specialize (Hgrid min_days (zrange_In 367 min_days ltac:(lia))).
  now apply Z.eqb_eq in Hgrid.
Qed.


Section EdgeThreshold.
Variable min_days k : Z.
Variable same_split : bool.
Variable cap : Z.
Variable subject_group : string.
Variable subject_regex : option (string -> option string).

Local Abbreviation threshold := (td_thresh (F := binary64) min_days (quarters k)).
Local Abbreviation edge_group := (process_group "edge" threshold same_split cap []).

(** The test of lines 158-161 on the two ends of a group, the gap in
    seconds. *)
Local Abbreviation pair_ok A B :=
  ((same_split = true -> split (row A) = split (row B)) /\
   min_days * 86400 + k * 7889238 <= seconds_of (dt B) - seconds_of (dt A)).


End EdgeThreshold.


End Binary64Facts.
